(** * sht2: a content-addressed blob store over HTTP (src/main.go)

    A shallow embedding of the upload and retrieval handlers of main.go,
    with the filesystem as an explicit finite map and the handlers as
    state-passing functions that also record the system calls they make.

    Handlers run one at a time.  The filesystem answers every call from
    its state alone: a call fails when the state makes it fail (a missing
    root, a file where a directory is needed), never by a device fault.
    Code that main.go calls from outside the repository (the BLAKE3 hasher,
    [mime.ParseMediaType], the multipart reader) is a field of [Env].
    The storage root is a cleaned absolute path, as the default
    [/home/sht2] is; module [Names] says what that buys. *)

From Stdlib Require Import ZArith NArith Ascii String List Lia Bool.
From Stdlib Require Floats DecimalString.
From stdpp Require Import gmap strings list fin_maps.

Local Open Scope string_scope.
Local Open Scope list_scope.
Local Open Scope Z_scope.

(* ===================================================================== *)
(** ** Bytes, strings and 64-bit integers *)
(* ===================================================================== *)

(** Go strings are byte sequences; [string] (a list of 8-bit [ascii]) has
    the same slicing and length.  Payload bytes are [Byte.byte]. *)
Abbreviation byte := Byte.byte.

(** [int64] arithmetic wraps around (two's complement). *)
Definition wrap64 (z : Z) : Z := (z + 2 ^ 63) mod 2 ^ 64 - 2 ^ 63.

Definition max_int64 : Z := 2 ^ 63 - 1.

(** [s[i:j]] for in-range indices. *)
Definition slice (s : string) (i j : nat) : string := substring i (j - i) s.

Fixpoint forall_chars (p : ascii -> bool) (s : string) : bool :=
  match s with
  | EmptyString => true
  | String c s' => p c && forall_chars p s'
  end.

(** [strings.Contains(s, "/")] *)
Fixpoint contains_slash (s : string) : bool :=
  match s with
  | EmptyString => false
  | String c s' => Ascii.eqb c "/" || contains_slash s'
  end.

(** [strings.TrimPrefix(s, "/")] *)
Definition TrimPrefix_slash (s : string) : string :=
  match s with
  | String c s' => if Ascii.eqb c "/" then s' else s
  | EmptyString => s
  end.

(* ===================================================================== *)
(** ** Identifier scheme *)
(* ===================================================================== *)

(** The character class [[A-Za-z0-9_-]] of [idRe]. *)
Definition is_id_char (c : ascii) : bool :=
  let n := N_of_ascii c in
  ((65 <=? n) && (n <=? 90) || (97 <=? n) && (n <=? 122) ||
   (48 <=? n) && (n <=? 57) || (n =? 95) || (n =? 45))%N.

(** [idRe = regexp.MustCompile(`^[A-Za-z0-9_-]{43}$`)]; Go's [$] (no
    multi-line flag) matches at the end of the text only. *)
Definition idRe_MatchString (s : string) : bool :=
  (String.length s =? 43)%nat && forall_chars is_id_char s.

(** The alphabet of [base64.RawURLEncoding]. *)
Definition encodeURL : string :=
  "ABCDEFGHIJKLMNOPQRSTUVWXYZabcdefghijklmnopqrstuvwxyz0123456789-_".

(** [enc.encode[v]] *)
Definition enc (v : N) : ascii :=
  match String.get (N.to_nat v) encodeURL with
  | Some c => c
  | None => "A"%char
  end.

Definition b2N (b : byte) : N := Byte.to_N b.

(** [base64.RawURLEncoding.EncodeToString]: three bytes give four
    characters; a tail of one or two bytes gives two or three characters
    and no padding. *)
Fixpoint EncodeToString (src : list byte) : string :=
  match src with
  | b0 :: b1 :: b2 :: rest =>
      let val := N.lor (N.lor (N.shiftl (b2N b0) 16) (N.shiftl (b2N b1) 8)) (b2N b2) in
      String (enc (N.land (N.shiftr val 18) 63))
        (String (enc (N.land (N.shiftr val 12) 63))
           (String (enc (N.land (N.shiftr val 6) 63))
              (String (enc (N.land val 63)) (EncodeToString rest))))
  | [b0; b1] =>
      let val := N.lor (N.shiftl (b2N b0) 16) (N.shiftl (b2N b1) 8) in
      String (enc (N.land (N.shiftr val 18) 63))
        (String (enc (N.land (N.shiftr val 12) 63))
           (String (enc (N.land (N.shiftr val 6) 63)) EmptyString))
  | [b0] =>
      let val := N.shiftl (b2N b0) 16 in
      String (enc (N.land (N.shiftr val 18) 63))
        (String (enc (N.land (N.shiftr val 12) 63)) EmptyString)
  | [] => EmptyString
  end.

(** A 256-bit digest, as [h.Sum(nil)] returns it for a BLAKE3 hasher. *)
Definition Digest : Type := { d : list byte | length d = 32%nat }.

(* ===================================================================== *)
(** ** Paths and the filesystem *)
(* ===================================================================== *)

(** A cleaned absolute path is the list of its components; [[]] is "/". *)
Abbreviation path := (list string).

Inductive node : Type :=
  | File (data : list byte)
  | Dir.

Abbreviation FS := (gmap path node).

(** [filepath.Join(dir, elems...)] for components that are non-empty and
    hold no separator and no dot segment. *)
Definition filepath_Join (dir : path) (elems : list string) : path := dir ++ elems.

(** [filepath.Dir] *)
Definition filepath_Dir (p : path) : path := removelast p.

(** [filepath.Base] *)
Definition filepath_Base (p : path) : string := List.last p "/".

Definition cfgPath : string := ".sht2".

(** The filesystem root always exists. *)
Definition lookup_node (fs : FS) (p : path) : option node :=
  match p with
  | [] => Some Dir
  | _ => fs !! p
  end.

Definition is_prefix (a b : path) : bool := bool_decide (a `prefix_of` b).

(* ===================================================================== *)
(** ** Requests, responses, configuration *)
(* ===================================================================== *)

Inductive read_error : Type :=
  | MaxBytesError          (* *http.MaxBytesError *)
  | OtherReadError.        (* any other non-EOF error *)

(** What an [io.Reader] yields when read to the end: the bytes it
    delivers, then [io.EOF] ([None]) or an error. *)
Record Reader : Type := mkReader {
  rd_bytes : list byte;
  rd_err : option read_error
}.

(** A part of a multipart body, as [mr.NextPart()] returns it. *)
Record Part : Type := mkPart {
  FileName : string;
  FormName : string;
  part_body : Reader
}.

(** The successive results of [mr.NextPart()]: the parts, then [io.EOF]
    ([ps_fail = false]) or another error ([ps_fail = true]). *)
Record PartStream : Type := mkPartStream {
  ps_parts : list Part;
  ps_fail : bool
}.

Record Request : Type := mkRequest {
  Method : string;
  URL_Path : string;
  Content_Type : string;     (* r.Header.Get("Content-Type") *)
  Body : Reader
}.

Inductive jvalue : Type :=
  | JString (s : string)
  | JInt (z : Z)
  | JBool (b : bool).

Inductive payload : Type :=
  | BodyEmpty
  | BodyText (s : string)
  | BodyJSON (kv : list (string * jvalue))   (* encoding/json writes map keys sorted *)
  | BodyBytes (d : list byte).

Inductive Response : Type :=
  | Reply (status : Z) (header : list (string * string)) (body : payload)
  | Panicked.   (* the handler panicked: net/http drops the connection *)

(** The byte ceilings of [quotaConfig]; its two [float64] fields are only
    printed at start-up. *)
Record quotaConfig : Type := mkQuota {
  MaxStorageByte : Z;
  MaxUploadByte : Z
}.

Definition gib : Z := 1024 * 1024 * 1024.

Definition defaultQuotaConfig : quotaConfig :=
  {| MaxStorageByte := 20 * gib; MaxUploadByte := 2 * gib |}.

(** The process-wide state set once in [main], and the library functions
    main.go calls whose code is outside the repository. *)
Record Env : Type := mkEnv {
  root : path;                                   (* BLOB_PATH, a cleaned absolute path *)
  limits : quotaConfig;
  blake3_Sum : list byte -> Digest;              (* blake3.New(), Write, Sum(nil) *)
  mime_ParseMediaType : string -> option string; (* the media type, or an error *)
  MultipartReader : string -> Reader -> option PartStream
                                                 (* r.MultipartReader() and its NextPart calls *)
}.

Definition status_ok : Z := 200.
Definition StatusBadRequest : Z := 400.
Definition StatusNotFound : Z := 404.
Definition StatusRequestEntityTooLarge : Z := 413.
Definition StatusInsufficientStorage : Z := 507.

Definition newline : string := String (ascii_of_nat 10) EmptyString.

(** [http.Error(w, msg, code)] *)
Definition http_Error (msg : string) (code : Z) : Response :=
  Reply code
    [("Content-Type", "text/plain; charset=utf-8"); ("X-Content-Type-Options", "nosniff")]
    (BodyText (msg +:+ newline)).

(** [http.NotFound(w, r)] *)
Definition http_NotFound : Response := http_Error "404 page not found" StatusNotFound.

Definition json_header : list (string * string) := [("Content-Type", "application/json")].

(** The reply of lines 228-229 and 254-255. *)
Definition upload_reply (id : string) (n : Z) (deduped : bool) : Response :=
  Reply status_ok json_header
    (BodyJSON [("deduped", JBool deduped); ("id", JString id); ("size", JInt n)]).

(** The reply of lines 239-245. *)
Definition quota_reply (used max : Z) : Response :=
  Reply StatusInsufficientStorage json_header
    (BodyJSON [("error", JString "root storage limit exceeded");
               ("max_storage_bytes", JInt max); ("used_bytes", JInt used)]).

(** [http.MaxBytesReader(w, r.Body, n)]: at most [n] bytes pass; one byte
    more makes the read fail with [*http.MaxBytesError]; a negative [n]
    counts as 0. *)
Definition MaxBytesReader (body : Reader) (n : Z) : Reader :=
  if Z.max 0 n <? Z.of_nat (length (rd_bytes body))
  then {| rd_bytes := take (Z.to_nat n) (rd_bytes body); rd_err := Some MaxBytesError |}
  else body.

(** The loop of lines 174-189: the first part that has a file name or is
    named [file]. *)
Fixpoint findFilePart (ps : list Part) : option Part :=
  match ps with
  | [] => None
  | p :: ps' =>
      if negb (String.eqb (FileName p) EmptyString) || String.eqb (FormName p) "file"
      then Some p
      else findFilePart ps'
  end.

(** Lines 148 and 158-198: the reader the payload is copied from, or the
    reply that ends the request. *)
Definition selectSource (E : Env) (r : Request) : Response + Reader :=
  let body := MaxBytesReader (Body r) (MaxUploadByte (limits E)) in
  let contentType := Content_Type r in
  if String.eqb contentType EmptyString then inr body
  else
    match mime_ParseMediaType E contentType with
    | None => inl (http_Error "invalid content-type" StatusBadRequest)
    | Some mediaType =>
        if String.eqb mediaType "multipart/form-data" then
          match MultipartReader E contentType body with
          | None => inl (http_Error "invalid multipart body" StatusBadRequest)
          | Some mr =>
              match findFilePart (ps_parts mr) with
              | Some filePart => inr (part_body filePart)
              | None =>
                  if ps_fail mr
                  then inl (http_Error "invalid multipart body" StatusBadRequest)
                  else inl (http_Error "multipart missing file part" StatusBadRequest)
              end
          end
        else inr body
    end.

(** [objPath]; slicing a string shorter than four bytes panics. *)
Definition objPath (E : Env) (id : string) : option path :=
  if (String.length id <? 4)%nat then None
  else Some (filepath_Join (root E) [slice id 0 2; slice id 2 4; id]).

(* ===================================================================== *)
(** ** The world: filesystem state and the calls made on it *)
(* ===================================================================== *)

Inductive event : Type :=
  | EvCreateTemp (dir : path)
  | EvWrite (p : path)
  | EvClose (p : path)
  | EvHashSum
  | EvMkdirAll (p : path)
  | EvLock
  | EvUnlock
  | EvStat (p : path)
  | EvWalkDir (p : path)
  | EvRename (old new : path)
  | EvRemove (p : path)
  | EvOpen (p : path).


Record World : Type := mkWorld {
  fs : FS;
  trace : list event      (* oldest first *)
}.

Definition M (A : Type) : Type := World -> A * World.

#[global] Instance M_ret : MRet M := fun A (a : A) w => (a, w).

#[global] Instance M_bind : MBind M :=
  fun A B (k : A -> M B) (m : M A) w => let (a, w') := m w in k a w'.

Definition log (e : event) : M unit :=
  fun w => (tt, {| fs := fs w; trace := trace w ++ [e] |}).

Definition get_fs : M FS := fun w => (fs w, w).

Definition put_fs (f : FS) : M unit := fun w => (tt, {| fs := f; trace := trace w |}).

(* ===================================================================== *)
(** ** The os and filepath calls of main.go *)
(* ===================================================================== *)

(** [os.CreateTemp] draws random names until one is free; [rnd] holds the
    draws of this call. *)
Fixpoint pickTemp (f : FS) (dir : path) (rnd : list string) : option path :=
  match rnd with
  | [] => None
  | r :: rnd' =>
      let p := filepath_Join dir ["up-" +:+ r] in
      match f !! p with
      | Some _ => pickTemp f dir rnd'
      | None => Some p
      end
  end.

(** [os.CreateTemp(dir, "up-*")]: the name of the new, empty file.  For
    the cleaned absolute [dir] of [Env] it is also the path under which
    [filepath.WalkDir] meets the file. *)
Definition os_CreateTemp (dir : path) (rnd : list string) : M (option path) :=
  log (EvCreateTemp dir);;
  f ← get_fs;
  match lookup_node f dir with
  | Some Dir =>
      match pickTemp f dir rnd with
      | Some p => put_fs (<[p := File []]> f);; mret (Some p)
      | None => mret None
      end
  | _ => mret None
  end.

(** The writes [io.Copy] makes to the temporary file. *)
Definition write_file (p : path) (d : list byte) : M unit :=
  log (EvWrite p);;
  f ← get_fs;
  put_fs (<[p := File d]> f).

(** [tmp.Close()] *)
Definition file_Close (p : path) : M bool :=
  log (EvClose p);; mret true.

(** [os.MkdirAll] on the reversed path: a directory that exists ends the
    call, a file there fails it, otherwise the parent is made first. *)
Fixpoint MkdirAll_rev (f : FS) (rp : list string) : option FS :=
  match lookup_node f (rev rp) with
  | Some Dir => Some f
  | Some (File _) => None
  | None =>
      match rp with
      | [] => None
      | _ :: rp' =>
          match MkdirAll_rev f rp' with
          | Some f' => Some (<[rev rp := Dir]> f')
          | None => None
          end
      end
  end.

Definition os_MkdirAll (p : path) : M bool :=
  log (EvMkdirAll p);;
  f ← get_fs;
  match MkdirAll_rev f (rev p) with
  | Some f' => put_fs f';; mret true
  | None => mret false
  end.

(** [os.Stat(p)]: [None] is an error. *)
Definition os_Stat (p : path) : M (option node) :=
  log (EvStat p);;
  f ← get_fs;
  mret (lookup_node f p).

(** [os.Open(p)] *)
Definition os_Open (p : path) : M (option node) :=
  log (EvOpen p);;
  f ← get_fs;
  mret (lookup_node f p).

(** [os.Rename] of a regular file: the parent of the new name must be a
    directory, and the new name must not be one.  (main.go renames only
    the file it staged; a directory as source is refused here.) *)
Definition rename_fs (f : FS) (old new : path) : option FS :=
  match f !! old with
  | Some (File d) =>
      match lookup_node f (filepath_Dir new), f !! new with
      | Some Dir, Some Dir => None
      | Some Dir, _ => Some (<[new := File d]> (delete old f))
      | _, _ => None
      end
  | _ => None
  end.

Definition os_Rename (old new : path) : M bool :=
  log (EvRename old new);;
  f ← get_fs;
  match rename_fs f old new with
  | Some f' => put_fs f';; mret true
  | None => mret false
  end.

Definition has_entries (f : FS) (p : path) : bool :=
  map_fold (fun q _ acc => acc || bool_decide (q <> [] /\ filepath_Dir q = p)) false f.

(** [os.Remove(p)], its error dropped as in [defer os.Remove(tmpName)]. *)
Definition os_Remove (p : path) : M unit :=
  log (EvRemove p);;
  f ← get_fs;
  match f !! p with
  | Some (File _) => put_fs (delete p f)
  | Some Dir => if has_entries f p then mret tt else put_fs (delete p f)
  | None => mret tt
  end.

(** The callback of [diskUsageBytes] on one entry. *)
Definition usage_step (E : Env) (exclude : path) (p : path) (n : node) (total : Z) : Z :=
  if is_prefix (root E) p then
    match n with
    | Dir => total
    | File d =>
        if bool_decide (p = exclude) || String.eqb (filepath_Base p) cfgPath
        then total
        else wrap64 (total + Z.of_nat (length d))
    end
  else total.

(** [diskUsageBytes]: [filepath.WalkDir] fails when the root is missing
    and otherwise visits every entry below it; the order of the visits
    does not change the sum. *)
Definition walk_usage (E : Env) (exclude : path) (f : FS) : option Z :=
  match lookup_node f (root E) with
  | None => None
  | Some _ => Some (map_fold (usage_step E exclude) 0 f)
  end.

Definition diskUsageBytes (E : Env) (exclude : path) : M (option Z) :=
  log (EvWalkDir (root E));;
  f ← get_fs;
  mret (walk_usage E exclude f).

(* ===================================================================== *)
(** ** The handlers *)
(* ===================================================================== *)

(** [io.Copy(io.MultiWriter(tmp, h), src)]: every byte [src] delivers is
    written to the temporary file (and to the hasher); the result is the
    byte count and the error that stopped the copy, if any. *)
Definition io_Copy (tmpName : path) (src : Reader) : M (Z * option read_error) :=
  match rd_bytes src with
  | [] => mret tt
  | d => write_file tmpName d
  end;;
  mret (Z.of_nat (length (rd_bytes src)), rd_err src).

(** Lines 227-255 of [upload], run between [quotaMu.Lock()] and the
    deferred [quotaMu.Unlock()]. *)
Definition publish (E : Env) (tmpName : path) (id : string) (n : Z) (final : path)
  : M Response :=
  st ← os_Stat final;
  match st with
  | Some _ => mret (upload_reply id n true)
  | None =>
      u ← diskUsageBytes E tmpName;
      match u with
      | None => mret (http_Error "usage" 500)
      | Some used =>
          if wrap64 (used + n) >? MaxStorageByte (limits E)
          then mret (quota_reply used (MaxStorageByte (limits E)))
          else
            ok ← os_Rename tmpName final;
            if ok : bool then mret (upload_reply id n false)
            else mret (http_Error "rename" 500)
      end
  end.

(** The identifier of a payload: line 216. *)
Definition object_id (E : Env) (data : list byte) : string :=
  EncodeToString (proj1_sig (blake3_Sum E data)).

(** Lines 158-217 of [upload], the staging of the payload: the reply that
    ends the request, or the identifier, the byte count and the target
    path. *)
Definition stage (E : Env) (tmpName : path) (r : Request)
  : M (Response + (string * Z * path)) :=
  match selectSource E r with
  | inl reply => mret (inl reply)
  | inr src =>
      c ← io_Copy tmpName src;
      match snd c with
      | Some MaxBytesError =>
          mret (inl (http_Error "upload exceeds MAX_UPLOAD_GB" StatusRequestEntityTooLarge))
      | Some OtherReadError => mret (inl (http_Error "copy" 400))
      | None =>
          ok ← file_Close tmpName;
          if negb ok then mret (inl (http_Error "close" 500))
          else
            log EvHashSum;;
            let id := object_id E (rd_bytes src) in
            match objPath E id with
            | None => mret (inl Panicked)
            | Some final => mret (inr (id, fst c, final))
            end
      end
  end.

(** Lines 158-255 of [upload]: what runs after [defer os.Remove(tmpName)]
    is registered. *)
Definition upload_staged (E : Env) (tmpName : path) (r : Request) : M Response :=
  s ← stage E tmpName r;
  match s with
  | inl reply => mret reply
  | inr (id, n, final) =>
      ok ← os_MkdirAll (filepath_Dir final);
      if negb ok then mret (http_Error "mkdir" 500)
      else
        log EvLock;;
        reply ← publish E tmpName id n final;
        log EvUnlock;;
        mret reply
  end.

(** [upload]; [rnd] is the sequence of random names [os.CreateTemp] draws. *)
Definition upload (E : Env) (rnd : list string) (r : Request) : M Response :=
  tmp ← os_CreateTemp (root E) rnd;
  match tmp with
  | None => mret (http_Error "tmp" 500)
  | Some tmpName =>
      reply ← upload_staged E tmpName r;
      os_Remove tmpName;;
      mret reply
  end.

(** [http.ServeContent] for a request without range or conditional
    headers: the whole file on GET, the headers alone on HEAD.  A
    directory cannot be served. *)
Definition http_ServeContent (r : Request) (header : list (string * string)) (content : node)
  : Response :=
  match content with
  | File d =>
      Reply status_ok header (if String.eqb (Method r) "HEAD" then BodyEmpty else BodyBytes d)
  | Dir => http_Error "seeker can't seek" 500
  end.

Definition quote : string := String (ascii_of_nat 34) EmptyString.

(** [serveByID] *)
Definition serveByID (E : Env) (r : Request) : M Response :=
  let id := TrimPrefix_slash (URL_Path r) in
  if String.eqb id EmptyString || contains_slash id || negb (idRe_MatchString id)
  then mret http_NotFound
  else
    match objPath E id with
    | None => mret Panicked
    | Some p =>
        f ← os_Open p;
        match f with
        | None => mret http_NotFound
        | Some content =>
            (* f.Stat() on the open file succeeds *)
            mret (http_ServeContent r [("ETag", quote +:+ id +:+ quote)] content)
        end
    end.

(** The handler registered in [main], for a request without an [Origin]
    header ([setCORS] then returns at once). *)
Definition ServeHTTP (E : Env) (rnd : list string) (r : Request) : M Response :=
  if String.eqb (Method r) "OPTIONS" then mret (Reply 204 [] BodyEmpty)
  else if String.eqb (URL_Path r) "/" then
    if String.eqb (Method r) "POST" || String.eqb (Method r) "PUT"
    then upload E rnd r
    else mret (Reply 405 [] BodyEmpty)
  else if String.eqb (Method r) "GET" || String.eqb (Method r) "HEAD"
  then serveByID E r
  else mret (Reply 405 [] BodyEmpty).

(* ===================================================================== *)
(** ** Measures and predicates the properties are stated with *)
(* ===================================================================== *)

Definition node_data (n : node) : option (list byte) :=
  match n with
  | File d => Some d
  | Dir => None
  end.

(** The regular files of a filesystem, with their contents. *)
Definition regular_files (f : FS) : gmap path (list byte) := omap node_data f.

(** The exact (unbounded) total size of the regular files whose path
    satisfies [P]. *)
Definition sum_map (P : path -> bool) (m : gmap path (list byte)) : Z :=
  map_fold (fun p (d : list byte) acc => if P p then acc + Z.of_nat (length d) else acc) 0 m.

Definition sum_sizes (P : path -> bool) (f : FS) : Z := sum_map P (regular_files f).

(** The paths [diskUsageBytes exclude] counts. *)
Definition counted (E : Env) (exclude : path) (p : path) : bool :=
  is_prefix (root E) p && negb (bool_decide (p = exclude))
  && negb (String.eqb (filepath_Base p) cfgPath).

(** Everything below the root but configuration files. *)
Definition stored (E : Env) (p : path) : bool :=
  is_prefix (root E) p && negb (String.eqb (filepath_Base p) cfgPath).

Definition stored_bytes (E : Env) (f : FS) : Z := sum_sizes (stored E) f.

(** The path of a published object: [objPath id] for a well-formed [id]. *)
Definition is_object_path (E : Env) (p : path) : bool :=
  idRe_MatchString (filepath_Base p)
  && bool_decide (objPath E (filepath_Base p) = Some p).

Definition published_bytes (E : Env) (f : FS) : Z := sum_sizes (is_object_path E) f.

Definition is_dir (o : option node) : bool :=
  match o with
  | Some Dir => true
  | _ => false
  end.

(** A filesystem is a tree: every entry lies in a directory. *)
Definition tree_like (f : FS) : Prop :=
  map_Forall (fun p _ => is_dir (lookup_node f (filepath_Dir p)) = true) f.

Definition is_rename (e : event) : bool :=
  match e with EvRename _ _ => true | _ => false end.

Definition is_open (e : event) : bool :=
  match e with EvOpen _ => true | _ => false end.

(** The calls the publish gate makes: the lock, the duplicate check, the
    usage walk, the rename. *)
Definition is_gate_event (e : event) : bool :=
  match e with
  | EvLock | EvUnlock | EvStat _ | EvWalkDir _ | EvRename _ _ => true
  | _ => false
  end.

(** The write [io.Copy] makes for a payload (none when it is empty). *)
Definition copy_events (tmpName : path) (d : list byte) : list event :=
  match d with
  | [] => []
  | _ => [EvWrite tmpName]
  end.

Definition no_slash_plus_pad (c : ascii) : bool :=
  negb (Ascii.eqb c "/") && negb (Ascii.eqb c "+") && negb (Ascii.eqb c "=").

Definition len (d : list byte) : Z := Z.of_nat (length d).

Definition GET (id : string) : Request :=
  {| Method := "GET"; URL_Path := "/" +:+ id; Content_Type := EmptyString;
     Body := {| rd_bytes := []; rd_err := None |} |}.

(* ===================================================================== *)
(** ** Concrete instances *)
(* ===================================================================== *)

(** A stand-in for the hash, good enough to run the handlers: 32 copies of
    the first byte of the input. *)
Definition demo_Sum (d : list byte) : Digest :=
  match d with
  | [] => exist _ (repeat Byte.x00 32) eq_refl
  | b :: _ => exist _ (repeat b 32) eq_refl
  end.

(** [r.MultipartReader()] on a body that ends, or is cut off by a read
    error, before its first part is complete: [NextPart] returns no part;
    it fails with the read error of the body if there is one, and returns
    [io.EOF] otherwise. *)
Definition no_part_reader (_ : string) (body : Reader) : option PartStream :=
  match rd_err body with
  | Some _ => Some {| ps_parts := []; ps_fail := true |}
  | None => Some {| ps_parts := []; ps_fail := false |}
  end.

Definition demo_ParseMediaType (v : string) : option string :=
  if String.eqb v "multipart/form-data; boundary=b" then Some "multipart/form-data"
  else if String.eqb v "application/octet-stream" then Some "application/octet-stream"
  else None.

Definition demo_env : Env :=
  {| root := ["home"; "sht2"];
     limits := defaultQuotaConfig;
     blake3_Sum := demo_Sum;
     mime_ParseMediaType := demo_ParseMediaType;
     MultipartReader := no_part_reader |}.

(** The same with ceilings of 8 and 16 bytes. *)
Definition small_env : Env :=
  {| root := ["home"; "sht2"];
     limits := {| MaxStorageByte := 16; MaxUploadByte := 8 |};
     blake3_Sum := demo_Sum;
     mime_ParseMediaType := demo_ParseMediaType;
     MultipartReader := no_part_reader |}.

Definition demo_fs : FS :=
  <[ ["home"; "sht2"; ".sht2"] := File (list_byte_of_string "MAX_STORAGE_GB=20") ]>
  (<[ ["home"; "sht2"] := Dir ]> (<[ ["home"] := Dir ]> ∅)).

Definition demo_world : World := {| fs := demo_fs; trace := [] |}.

Definition raw_request (d : list byte) : Request :=
  {| Method := "POST"; URL_Path := "/"; Content_Type := EmptyString;
     Body := {| rd_bytes := d; rd_err := None |} |}.

Definition hello : list byte := list_byte_of_string "hello, world".

Definition AAA : string := "AAAAAAAAAAAAAAAAAAAAAAAAAAAAAAAAAAAAAAAAAAA".

(** The world after [hello] was uploaded to [demo_world]. *)
Definition hello_world : World := snd (upload demo_env ["1"] (raw_request hello) demo_world).

Definition up1 : path := ["home"; "sht2"; "up-1"].

Definition hello_id : string := "aGhoaGhoaGhoaGhoaGhoaGhoaGhoaGhoaGhoaGhoaGg".

(** A second payload, and the worlds its upload to [hello_world] goes
    through under the small ceilings: after [os.CreateTemp], after the
    staging, after [os.MkdirAll]. *)
Definition five : list byte := list_byte_of_string "12345".

Definition five_id : string := "MTExMTExMTExMTExMTExMTExMTExMTExMTExMTExMTE".

Definition five_path : path := ["home"; "sht2"; "MT"; "Ex"; five_id].

Definition five_w1 : World := snd (os_CreateTemp ["home"; "sht2"] ["1"] hello_world).

Definition five_w2 : World := snd (stage small_env up1 (raw_request five) five_w1).

Definition five_w3 : World := snd (os_MkdirAll ["home"; "sht2"; "MT"; "Ex"] five_w2).

Definition crlf : string := String (ascii_of_nat 13) newline.

(** A multipart upload of one file part, 83 bytes on the wire. *)
Definition multipart_body : list byte :=
  list_byte_of_string
    ("--b" +:+ crlf +:+
     "Content-Disposition: form-data; name=file; filename=a" +:+ crlf +:+ crlf +:+
     "hello, world" +:+ crlf +:+ "--b--" +:+ crlf).

Definition multipart_request : Request :=
  {| Method := "POST"; URL_Path := "/"; Content_Type := "multipart/form-data; boundary=b";
     Body := {| rd_bytes := multipart_body; rd_err := None |} |}.


(* ===================================================================== *)
(** ** The server over time *)
(* ===================================================================== *)

(** The requests a server handles one after the other, each with the
    random names its [os.CreateTemp] would draw. *)
Fixpoint serve_all (E : Env) (reqs : list (list string * Request)) : M (list Response) :=
  match reqs with
  | [] => mret []
  | (rnd, r) :: rest =>
      reply ← ServeHTTP E rnd r;
      replies ← serve_all E rest;
      mret (reply :: replies)
  end.

(** A request whose body is taken as the payload as it is: no
    [Content-Type], or one that parses to something else than
    [multipart/form-data]. *)
Definition is_raw (E : Env) (r : Request) : Prop :=
  Content_Type r = EmptyString \/
  exists mediaType, mime_ParseMediaType E (Content_Type r) = Some mediaType /\
                    mediaType <> "multipart/form-data".

(** A part the loop of lines 174-189 selects. *)
Definition is_file_part (p : Part) : bool :=
  negb (String.eqb (FileName p) EmptyString) || String.eqb (FormName p) "file".

(** The calls [upload] makes while it holds [quotaMu]. *)
Definition is_locked_call (e : event) : bool :=
  match e with
  | EvStat _ | EvWalkDir _ | EvRename _ _ => true
  | _ => false
  end.

(** A request whose body breaks off after five bytes. *)
Definition broken_request : Request :=
  {| Method := "PUT"; URL_Path := "/"; Content_Type := "application/octet-stream";
     Body := {| rd_bytes := five; rd_err := Some OtherReadError |} |}.

(** A multipart body of a text field and a file part, and the reader
    that yields the two parts and then [io.EOF]. *)
Definition note_part : Part :=
  {| FileName := EmptyString; FormName := "note";
     part_body := {| rd_bytes := five; rd_err := None |} |}.

Definition file_part : Part :=
  {| FileName := "a.txt"; FormName := "upload";
     part_body := {| rd_bytes := hello; rd_err := None |} |}.

Definition two_part_request : Request :=
  {| Method := "POST"; URL_Path := "/"; Content_Type := "multipart/form-data; boundary=b";
     Body := {| rd_bytes := list_byte_of_string
                  ("--b" +:+ crlf +:+
                   "Content-Disposition: form-data; name=note" +:+ crlf +:+ crlf +:+
                   "12345" +:+ crlf +:+ "--b" +:+ crlf +:+
                   "Content-Disposition: form-data; name=upload; filename=a.txt"
                   +:+ crlf +:+ crlf +:+
                   "hello, world" +:+ crlf +:+ "--b--" +:+ crlf);
                rd_err := None |} |}.

Definition two_part_reader (_ : string) (_ : Reader) : option PartStream :=
  Some {| ps_parts := [note_part; file_part]; ps_fail := false |}.

(** A multipart body without any part. *)
Definition empty_multipart_request : Request :=
  {| Method := "POST"; URL_Path := "/"; Content_Type := "multipart/form-data; boundary=b";
     Body := {| rd_bytes := list_byte_of_string ("--b--" +:+ crlf); rd_err := None |} |}.

Definition parts_env : Env :=
  {| root := ["home"; "sht2"];
     limits := defaultQuotaConfig;
     blake3_Sum := demo_Sum;
     mime_ParseMediaType := demo_ParseMediaType;
     MultipartReader := two_part_reader |}.

(** A HEAD request for an identifier. *)
Definition HEAD (id : string) : Request :=
  {| Method := "HEAD"; URL_Path := "/" +:+ id; Content_Type := EmptyString;
     Body := {| rd_bytes := []; rd_err := None |} |}.

(** A request with a method the server does not know. *)
Definition DELETE (id : string) : Request :=
  {| Method := "DELETE"; URL_Path := "/" +:+ id; Content_Type := EmptyString;
     Body := {| rd_bytes := []; rd_err := None |} |}.

(** Requests that arrive after [hello] was stored. *)
Definition later_requests : list (list string * Request) :=
  [ (["1"], raw_request five);
    ([], GET hello_id);
    ([], DELETE hello_id);
    (["1"], raw_request hello);
    (["2"], multipart_request) ].

(** The place of a character in the alphabet of the encoding. *)
Fixpoint index_of (c : ascii) (s : string) : N :=
  match s with
  | EmptyString => 0%N
  | String c' s' => if Ascii.eqb c c' then 0%N else N.succ (index_of c s')
  end.

Definition dec (c : ascii) : N := index_of c encodeURL.

(* ===================================================================== *)
(** ** Start-up: the quota configuration *)
(* ===================================================================== *)

Module Startup.

(** The library functions [writeDefaultConfig] and [loadQuotaConfig]
    call, whose code is outside the repository. *)
Record Lib : Type := mkLib {
  strings_TrimSpace : string -> string;
  strconv_ParseFloat : string -> option PrimFloat.float;
                                  (* ParseFloat(s, 64); [None]: err != nil *)
  bufio_Scan : list byte -> list string * bool;
                                  (* the [sc.Text()] of the successful [sc.Scan()]
                                     calls on a file of this content, and whether
                                     [sc.Err()] is non-nil after them *)
  fmt_f0 : PrimFloat.float -> string;
                                  (* the verb [%.0f] *)
  int64_overflow : PrimFloat.float -> Z
                                  (* [int64(x)] when [x] has no [int64] value:
                                     the result depends on the implementation *)
}.

(** The struct [quotaConfig] with all its fields. *)
Record quotaConfig : Type := mkQuotaConfig {
  MaxStorageGB : PrimFloat.float;
  MaxUploadGB : PrimFloat.float;
  MaxStorageByte : Z;
  MaxUploadByte : Z
}.

(** [float64(z)] of an integer of at most 53 bits. *)
Definition float64 (z : Z) : PrimFloat.float :=
  match z with
  | Z0 => PrimFloat.zero
  | Zpos m => FloatOps.SF2Prim (SpecFloat.S754_finite false m 0)
  | Zneg m => FloatOps.SF2Prim (SpecFloat.S754_finite true m 0)
  end.

(** The integer part of a finite [float64]. *)
Definition float64_trunc (x : PrimFloat.float) : option Z :=
  match FloatOps.Prim2SF x with
  | SpecFloat.S754_zero _ => Some 0
  | SpecFloat.S754_finite s m e =>
      let v := if 0 <=? e then Z.pos m * 2 ^ e else Z.pos m / 2 ^ (- e) in
      Some (if s then - v else v)
  | _ => None
  end.

(** The conversion [int64(x)]: the fraction is discarded. *)
Definition int64 (L : Lib) (x : PrimFloat.float) : Z :=
  match float64_trunc x with
  | Some z => if (- 2 ^ 63 <=? z) && (z <=? max_int64) then z else int64_overflow L x
  | None => int64_overflow L x
  end.

Definition defaultQuotaConfig : quotaConfig :=
  {| MaxStorageGB := float64 20;
     MaxUploadGB := float64 2;
     MaxStorageByte := 20 * gib;
     MaxUploadByte := 2 * gib |}.

(** [limits = cfg]: what the handlers read of the configuration. *)
Definition handler_limits (cfg : quotaConfig) :=
  mkQuota (MaxStorageByte cfg) (MaxUploadByte cfg).

(** [os.Create(p)] is [os.OpenFile] with [O_CREATE|O_TRUNC]: the parent
    must be a directory and [p] must not be one. *)
Definition os_Create (p : path) : M bool :=
  log (EvOpen p);;
  f ← get_fs;
  match lookup_node f (filepath_Dir p), lookup_node f p with
  | Some Dir, Some Dir => mret false
  | Some Dir, _ => put_fs (<[p := File []]> f);; mret true
  | _, _ => mret false
  end.

(** What [fmt.Fprintf] writes in [writeDefaultConfig]. *)
Definition config_text (L : Lib) (cfg : quotaConfig) : string :=
  "# sht2 storage configuration (values are in GiB)" +:+ newline
  +:+ "MAX_STORAGE_GB=" +:+ fmt_f0 L (MaxStorageGB cfg) +:+ newline
  +:+ "MAX_UPLOAD_GB=" +:+ fmt_f0 L (MaxUploadGB cfg) +:+ newline.

(** [writeDefaultConfig]: [true] is a nil error.  The write itself does
    not fail here. *)
Definition writeDefaultConfig (L : Lib) (p : path) (cfg : quotaConfig) : M bool :=
  ok ← os_Create p;
  if ok : bool then
    write_file p (list_byte_of_string (config_text L cfg));;
    file_Close p;;
    mret true
  else mret false.

(** [os.IsNotExist] of the error of a failed lookup of [p]: the lookup
    ended at a missing name (ENOENT), not at a file standing where a
    directory is needed (ENOTDIR). *)
Definition not_exist (f : FS) (p : path) : bool :=
  forallb (fun k => match lookup_node f (firstn k p) with
                    | Some (File _) => false
                    | _ => true
                    end)
          (seq 0 (length p)).

(** [strings.SplitN(s, "=", 2)] when it returns two parts. *)
Fixpoint SplitN_eq_2 (s : string) : option (string * string) :=
  match s with
  | EmptyString => None
  | String c s' =>
      if Ascii.eqb c "="%char then Some (EmptyString, s')
      else match SplitN_eq_2 s' with
           | Some (k, v) => Some (String c k, v)
           | None => None
           end
  end.

Inductive load_error : Type :=
  | ErrCreate                  (* the error of [writeDefaultConfig] *)
  | ErrOpen                    (* the error of [os.Open] *)
  | ErrInvalid (key : string)  (* fmt.Errorf("invalid %s in %s", key, path) *)
  | ErrScan.                   (* [sc.Err()] *)

(** The [switch key] of the loop. *)
Definition assign (L : Lib) (cfg : quotaConfig) (key : string) (gb : PrimFloat.float)
  : quotaConfig :=
  if String.eqb key "MAX_STORAGE_GB" then
    {| MaxStorageGB := gb;
       MaxUploadGB := MaxUploadGB cfg;
       MaxStorageByte := int64 L (PrimFloat.mul gb (float64 gib));
       MaxUploadByte := MaxUploadByte cfg |}
  else if String.eqb key "MAX_UPLOAD_GB" then
    {| MaxStorageGB := MaxStorageGB cfg;
       MaxUploadGB := gb;
       MaxStorageByte := MaxStorageByte cfg;
       MaxUploadByte := int64 L (PrimFloat.mul gb (float64 gib)) |}
  else cfg.

(** One turn of the scanning loop on the line [text]: the configuration
    the next turn starts with, or the key of the "invalid" error the
    function returns with. *)
Definition scan_line (L : Lib) (cfg : quotaConfig) (text : string) : quotaConfig + string :=
  let line := strings_TrimSpace L text in
  if String.eqb line EmptyString || String.prefix "#" line then inl cfg
  else
    match SplitN_eq_2 line with
    | None => inl cfg
    | Some (k, v) =>
        let key := strings_TrimSpace L k in
        let val := strings_TrimSpace L v in
        match strconv_ParseFloat L val with
        | None => inr key
        | Some gb =>
            if PrimFloat.leb gb PrimFloat.zero then inr key
            else inl (assign L cfg key gb)
        end
    end.

(** The loop [for sc.Scan()] over the lines the scanner gives. *)
Fixpoint scan_lines (L : Lib) (cfg : quotaConfig) (lines : list string)
  : quotaConfig * option load_error :=
  match lines with
  | [] => (cfg, None)
  | text :: rest =>
      match scan_line L cfg text with
      | inl cfg' => scan_lines L cfg' rest
      | inr key => (cfg, Some (ErrInvalid key))
      end
  end.

(** [loadQuotaConfig] for the storage root [rootp]. *)
Definition loadQuotaConfig (L : Lib) (rootp : path) : M (quotaConfig * option load_error) :=
  let cfg := defaultQuotaConfig in
  let p := filepath_Join rootp [cfgPath] in
  st ← os_Stat p;
  f ← get_fs;
  if match st with None => not_exist f p | Some _ => false end then
    ok ← writeDefaultConfig L p cfg;
    mret (cfg, if ok : bool then None else Some ErrCreate)
  else
    o ← os_Open p;
    match o with
    | None => mret (cfg, Some ErrOpen)
    | Some n =>
        let scanned := match n with
                       | File d => bufio_Scan L d
                       | Dir => ([], true)     (* reading a directory fails *)
                       end in
        let result := scan_lines L cfg (fst scanned) in
        file_Close p;;
        mret (fst result,
              match snd result with
              | Some e => Some e
              | None => if snd scanned then Some ErrScan else None
              end)
    end.

(** [main] up to the registration of the handler: the error of
    [os.MkdirAll] is dropped, that of [loadQuotaConfig] is fatal
    ([None]). *)
Definition main_start (L : Lib) (rootp : path) : M (option quotaConfig) :=
  os_MkdirAll rootp;;
  r ← loadQuotaConfig L rootp;
  match snd r with
  | None => mret (Some (fst r))
  | Some _ => mret None
  end.

(** [main] serving the requests [reqs] one after the other. *)
Definition main (L : Lib) (rootp : path) (sum : list byte -> Digest)
    (parse : string -> option string) (mr : string -> Reader -> option PartStream)
    (reqs : list (list string * Request)) : M (option (list Response)) :=
  o ← main_start L rootp;
  match o with
  | None => mret None
  | Some cfg =>
      replies ← serve_all {| root := rootp; limits := handler_limits cfg;
                             blake3_Sum := sum; mime_ParseMediaType := parse;
                             MultipartReader := mr |} reqs;
      mret (Some replies)
  end.

(** The assignment a line makes, if it makes one: its key and value. *)
Definition assignment (L : Lib) (text : string) : option (string * PrimFloat.float) :=
  let line := strings_TrimSpace L text in
  if String.eqb line EmptyString || String.prefix "#" line then None
  else
    match SplitN_eq_2 line with
    | None => None
    | Some (k, v) =>
        match strconv_ParseFloat L (strings_TrimSpace L v) with
        | Some gb => Some (strings_TrimSpace L k, gb)
        | None => None
        end
    end.

(** The value of the last line that assigns to [key]. *)
Definition last_value (L : Lib) (key : string) (lines : list string)
  : option PrimFloat.float :=
  List.last (map (fun kv => Some (snd kv))
               (filter (fun kv => String.eqb key (fst kv) = true) (omap (assignment L) lines)))
            None.

(** *** A library to run the loader with *)

Definition is_space (c : ascii) : bool :=
  let n := nat_of_ascii c in
  ((9 <=? n) && (n <=? 13))%nat || (n =? 32)%nat.

Fixpoint trim_left (s : list ascii) : list ascii :=
  match s with
  | c :: s' => if is_space c then trim_left s' else s
  | [] => []
  end.

Definition demo_TrimSpace (s : string) : string :=
  string_of_list_ascii (rev (trim_left (rev (trim_left (list_ascii_of_string s))))).

Fixpoint digits (s : string) (acc : Z) : option Z :=
  match s with
  | EmptyString => Some acc
  | String c s' =>
      let n := Z.of_nat (nat_of_ascii c) in
      if (48 <=? n) && (n <=? 57) then digits s' (10 * acc + (n - 48)) else None
  end.

(** Decimal integers, with a sign or without, and the negative powers of
    two in hexadecimal notation, [0x1p-n]. *)
Definition demo_ParseFloat (s : string) : option PrimFloat.float :=
  match s with
  | EmptyString => None
  | String "-"%char (String c s') =>
      match digits (String c s') 0 with
      | Some z => Some (PrimFloat.opp (float64 z))
      | None => None
      end
  | String "0"%char (String "x"%char (String "1"%char (String "p"%char
      (String "-"%char (String c s'))))) =>
      match digits (String c s') 0 with
      | Some z => Some (FloatOps.SF2Prim (SpecFloat.S754_finite false 1 (- z)))
      | None => None
      end
  | _ => match digits s 0 with
         | Some z => Some (float64 z)
         | None => None
         end
  end.

Fixpoint split_lines (s : list ascii) (cur : list ascii) : list string :=
  match s with
  | [] => match cur with
          | [] => []
          | _ => [string_of_list_ascii (rev cur)]
          end
  | c :: s' =>
      if Ascii.eqb c (ascii_of_nat 10) then string_of_list_ascii (rev cur) :: split_lines s' []
      else split_lines s' (c :: cur)
  end.

Definition demo_Scan (d : list byte) : list string * bool :=
  (split_lines (list_ascii_of_string (string_of_list_byte d)) [], false).

Definition demo_f0 (x : PrimFloat.float) : string :=
  match float64_trunc x with
  | Some z => DecimalString.NilZero.string_of_int (Z.to_int z)
  | None => "NaN"
  end.

Definition demo_lib : Lib :=
  {| strings_TrimSpace := demo_TrimSpace;
     strconv_ParseFloat := demo_ParseFloat;
     bufio_Scan := demo_Scan;
     fmt_f0 := demo_f0;
     int64_overflow := fun _ => - 2 ^ 63 |}.

(** A storage root that is still to be made, and the world after the
    first start there. *)
Definition fresh_world : World := {| fs := <[ ["home"] := Dir ]> ∅; trace := [] |}.

Definition started_world : World := snd (main_start demo_lib ["home"; "sht2"] fresh_world).

(** A configuration that sets both ceilings, the first of them twice, and
    one whose second line has a value that is not positive under a key
    the loader does not know. *)
Definition config_world (text : string) : World :=
  {| fs := <[ ["home"; "sht2"; ".sht2"] := File (list_byte_of_string text) ]>
           (<[ ["home"; "sht2"] := Dir ]> (<[ ["home"] := Dir ]> ∅));
     trace := [] |}.

Definition tuned_config : string :=
  "# limits" +:+ newline
  +:+ "MAX_STORAGE_GB=5" +:+ newline
  +:+ newline
  +:+ " MAX_UPLOAD_GB = 1 " +:+ newline
  +:+ "MAX_STORAGE_GB=3" +:+ newline.

Definition broken_config : string :=
  "MAX_STORAGE_GB=5" +:+ newline
  +:+ "RETENTION_DAYS=0" +:+ newline.

(** An upload ceiling of eight bytes, 2^-27 GiB. *)
Definition small_config : string := "MAX_UPLOAD_GB=0x1p-27" +:+ newline.

End Startup.

(* ===================================================================== *)
(** ** The name of the staging file, as text *)
(* ===================================================================== *)

(** [upload] compares names as strings at one place: the usage walk skips
    the entry whose path equals [tmp.Name()].  [os.CreateTemp] builds that
    name with [joinPath], without cleaning it; [filepath.WalkDir] passes
    [filepath.Join(dir, name)] for an entry, which is cleaned.  For a
    storage root given as a cleaned absolute path the two are the same
    text ([Names.staging_name_is_walked] below), and a path stands for
    both; that is the setting of [Env]. *)
Module Names.

Fixpoint ends_with_slash (s : string) : bool :=
  match s with
  | EmptyString => false
  | String c EmptyString => Ascii.eqb c "/"%char
  | String _ s' => ends_with_slash s'
  end.

(** [joinPath] of package [os]. *)
Definition joinPath (dir name : string) : string :=
  if ends_with_slash dir then dir +:+ name else dir +:+ "/" +:+ name.

(** [strings.Split(s, "/")] *)
Fixpoint split_slash (s : string) : list string :=
  match s with
  | EmptyString => [EmptyString]
  | String c s' =>
      if Ascii.eqb c "/"%char then EmptyString :: split_slash s'
      else match split_slash s' with
           | x :: l => String c x :: l
           | [] => [String c EmptyString]
           end
  end.

(** [strings.Join(elems, "/")] *)
Fixpoint join_slash (elems : list string) : string :=
  match elems with
  | [] => EmptyString
  | [e] => e
  | e :: rest => e +:+ "/" +:+ join_slash rest
  end.

(** The elements [filepath.Clean] keeps, in reverse: empty elements and
    [.] are dropped, [..] removes the element before it, is dropped at
    the top of a rooted path and kept at the top of another. *)
Fixpoint clean_elems (rooted : bool) (out : list string) (elems : list string)
  : list string :=
  match elems with
  | [] => out
  | e :: rest =>
      if String.eqb e EmptyString || String.eqb e "." then clean_elems rooted out rest
      else if String.eqb e ".." then
        match out with
        | top :: out' =>
            if String.eqb top ".." then clean_elems rooted (e :: out) rest
            else clean_elems rooted out' rest
        | [] =>
            if rooted then clean_elems rooted out rest
            else clean_elems rooted [e] rest
        end
      else clean_elems rooted (e :: out) rest
  end.

(** [filepath.Clean] on a system whose separator is [/]. *)
Definition Clean (p : string) : string :=
  match p with
  | EmptyString => "."
  | String c _ =>
      let rooted := Ascii.eqb c "/"%char in
      let out := rev (clean_elems rooted [] (split_slash p)) in
      if rooted then "/" +:+ join_slash out
      else match out with
           | [] => "."
           | _ => join_slash out
           end
  end.

(** [filepath.Join(dir, name)] *)
Definition Join (dir name : string) : string :=
  match filter (fun e => String.eqb e EmptyString = false) [dir; name] with
  | [] => EmptyString
  | elems => Clean (join_slash elems)
  end.

(** A name of one element: not empty, not [.] or [..], without [/]. *)
Definition is_element (e : string) : bool :=
  negb (String.eqb e EmptyString) && negb (String.eqb e ".") && negb (String.eqb e "..")
  && forall_chars (fun c => negb (Ascii.eqb c "/"%char)) e.

(** The text of a cleaned absolute path. *)
Fixpoint text_elems (p : path) : string :=
  match p with
  | [] => EmptyString
  | e :: p' => "/" +:+ e +:+ text_elems p'
  end.

Definition text (p : path) : string :=
  match p with
  | [] => "/"
  | _ => text_elems p
  end.

End Names.

(** A regular file. *)
Definition is_file (o : option node) : bool :=
  match o with
  | Some (File _) => true
  | _ => false
  end.

(** The paths the usage of claim C3 counts, in the claim's words: every
    regular file under the storage root but the configuration file and
    the staging file of the upload. *)
Definition claimed_counted (E : Env) (tmp : path) (p : path) : bool :=
  is_prefix (root E) p
  && negb (bool_decide (p = tmp))
  && negb (bool_decide (p = filepath_Join (root E) [cfgPath])).

(** A store with a file named [.sht2] that is not the configuration
    file. *)
Definition foreign_world : World :=
  {| fs := <[ ["home"; "sht2"; "aa"; ".sht2"] := File hello ]>
           (<[ ["home"; "sht2"; "aa"] := Dir ]> demo_fs);
     trace := [] |}.

(** A store with a regular file where the first shard directory of
    [five_id] would go. *)
Definition blocked_world : World :=
  {| fs := <[ ["home"; "sht2"; "MT"] := File [] ]> demo_fs; trace := [] |}.

(* ===================================================================== *)
(** ** Proof tactics *)
(* ===================================================================== *)

(** Turns the powers of two of the 64-bit range into numerals for [lia]. *)
Ltac pow64 :=
  unfold wrap64, max_int64 in *;
  change (2 ^ 63) with 9223372036854775808 in *;
  change (2 ^ 64) with 18446744073709551616 in *.

(** Runs the binds and returns of the monad [M] one layer down. *)
Ltac run_monad :=
  unfold mbind, M_bind, mret, M_ret, log, get_fs, put_fs in *;
  cbn beta iota zeta delta [fs trace fst snd negb] in *.

(* ===================================================================== *)
(** ** Identifiers: length and alphabet *)
(* ===================================================================== *)

Lemma enc_in_alphabet (v : N) : is_id_char (enc (N.land v 63)) = true.
Proof.
  change 63%N with (N.ones 6). rewrite N.land_ones.
  assert (H : (N.to_nat (v mod 2 ^ 6) < 64)%nat).
  { pose proof (N.mod_upper_bound v (2 ^ 6)) as Hb.
    change (2 ^ 6)%N with 64%N in *. lia. }
  unfold enc. remember (N.to_nat (v mod 2 ^ 6)) as k eqn:Hk. clear Hk.
  do 64 (destruct k as [|k]; [reflexivity|]). lia.
Qed.

Lemma id_char_no_slash (c : ascii) : is_id_char c = true -> no_slash_plus_pad c = true.
Proof.
  unfold is_id_char, no_slash_plus_pad. intros H.
  destruct (Ascii.eqb_spec c "/") as [->|_]; [discriminate H|].
  destruct (Ascii.eqb_spec c "+") as [->|_]; [discriminate H|].
  destruct (Ascii.eqb_spec c "=") as [->|_]; [discriminate H|].
  reflexivity.
Qed.

Lemma forall_chars_impl (p q : ascii -> bool) (s : string) :
  (forall c, p c = true -> q c = true) ->
  forall_chars p s = true -> forall_chars q s = true.
Proof.
  intros Hpq. induction s as [|c s IH]; simpl; [done|].
  rewrite !andb_true_iff. intros [Hc Hs]. split; auto.
Qed.

(** Induction three elements at a time, as the encoder consumes its input. *)
Lemma list_ind3 {A} (P : list A -> Prop) :
  P [] -> (forall a, P [a]) -> (forall a b, P [a; b]) ->
  (forall a b c l, P l -> P (a :: b :: c :: l)) ->
  forall l, P l.
Proof.
  intros H0 H1 H2 H3 l.
  assert (H : P l /\ (forall a, P (a :: l)) /\ (forall a b, P (a :: b :: l))).
  { induction l as [|x l (IHa & IHb & IHc)]; [by auto|].
    split; [apply IHb|]. split; [intros a; apply IHc|].
    intros a b. by apply H3. }
  apply H.
Qed.

Lemma EncodeToString_length (src : list byte) :
  String.length (EncodeToString src) = ((4 * length src + 2) / 3)%nat.
Proof.
  induction src as [|a|a b|a b c l IH] using list_ind3; try reflexivity.
  cbn [EncodeToString String.length length]. rewrite IH.
  replace (4 * S (S (S (length l))) + 2)%nat with (4 * 3 + (4 * length l + 2))%nat by lia.
  rewrite (Nat.div_add_l 4 3) by lia. lia.
Qed.

Lemma EncodeToString_alphabet (src : list byte) :
  forall_chars is_id_char (EncodeToString src) = true.
Proof.
  induction src as [|a|a b|a b c l IH] using list_ind3;
    cbn [EncodeToString forall_chars]; rewrite ?enc_in_alphabet, ?IH; reflexivity.
Qed.

Lemma object_id_length (E : Env) (d : list byte) : String.length (object_id E d) = 43%nat.
Proof.
  unfold object_id. rewrite EncodeToString_length.
  destruct (blake3_Sum E d) as [x Hx]. simpl. rewrite Hx. reflexivity.
Qed.

Lemma object_id_valid (E : Env) (d : list byte) : idRe_MatchString (object_id E d) = true.
Proof.
  unfold idRe_MatchString. rewrite object_id_length.
  unfold object_id. by rewrite EncodeToString_alphabet.
Qed.

Lemma id_chars_no_slash (s : string) :
  forall_chars is_id_char s = true -> contains_slash s = false.
Proof.
  induction s as [|c s IH]; simpl; [done|].
  rewrite andb_true_iff. intros [Hc Hs]. rewrite (IH Hs), orb_false_r.
  apply id_char_no_slash in Hc. unfold no_slash_plus_pad in Hc.
  destruct (Ascii.eqb c "/"); [discriminate Hc | reflexivity].
Qed.

Lemma valid_id_length (id : string) : idRe_MatchString id = true -> String.length id = 43%nat.
Proof.
  unfold idRe_MatchString. rewrite andb_true_iff. intros [H _].
  by apply Nat.eqb_eq in H.
Qed.

Lemma valid_id_objPath (E : Env) (id : string) :
  idRe_MatchString id = true ->
  objPath E id = Some (filepath_Join (root E) [slice id 0 2; slice id 2 4; id]).
Proof.
  intros H. apply valid_id_length in H. unfold objPath. rewrite H. reflexivity.
Qed.

Lemma objPath_shape (E : Env) (id : string) (p : path) :
  objPath E id = Some p -> p = filepath_Join (root E) [slice id 0 2; slice id 2 4; id].
Proof.
  unfold objPath. destruct (String.length id <? 4)%nat; [discriminate|].
  by intros [= <-].
Qed.

(* ===================================================================== *)
(** ** 64-bit arithmetic *)
(* ===================================================================== *)

Lemma wrap64_small (z : Z) : - 2 ^ 63 <= z <= max_int64 -> wrap64 z = z.
Proof.
  intros H. pow64. rewrite Z.mod_small; lia.
Qed.

Lemma wrap64_add_l (a b : Z) : wrap64 (wrap64 a + b) = wrap64 (a + b).
Proof.
  unfold wrap64.
  replace ((a + 2 ^ 63) mod 2 ^ 64 - 2 ^ 63 + b + 2 ^ 63)
    with ((a + 2 ^ 63) mod 2 ^ 64 + b) by lia.
  rewrite Zplus_mod_idemp_l. f_equal. f_equal. lia.
Qed.

(* ===================================================================== *)
(** ** Sums of file sizes *)
(* ===================================================================== *)

Lemma sum_map_empty (P : path -> bool) : sum_map P ∅ = 0.
Proof. unfold sum_map. by rewrite map_fold_empty. Qed.

Lemma sum_map_insert (P : path -> bool) (m : gmap path (list byte)) (p : path) (d : list byte) :
  m !! p = None ->
  sum_map P (<[p := d]> m) = sum_map P m + (if P p then len d else 0).
Proof.
  intros Hp. unfold sum_map. rewrite map_fold_insert_L; [|by intros; repeat case_match; lia|done].
  unfold len. case_match; lia.
Qed.

Lemma sum_map_nonneg (P : path -> bool) (m : gmap path (list byte)) : 0 <= sum_map P m.
Proof.
  induction m as [|p d m Hp IH] using map_ind.
  - by rewrite sum_map_empty.
  - rewrite sum_map_insert by done. unfold len. case_match; lia.
Qed.

Lemma sum_map_mono (P Q : path -> bool) (m : gmap path (list byte)) :
  (forall p, P p = true -> Q p = true) -> sum_map P m <= sum_map Q m.
Proof.
  intros HPQ. induction m as [|p d m Hp IH] using map_ind.
  - by rewrite !sum_map_empty.
  - rewrite !sum_map_insert by done. specialize (HPQ p). unfold len.
    destruct (P p), (Q p); lia.
Qed.

Lemma regular_files_lookup (f : FS) (p : path) :
  regular_files f !! p = f !! p ≫= node_data.
Proof. unfold regular_files. apply lookup_omap. Qed.

Lemma regular_files_insert_file (f : FS) (p : path) (d : list byte) :
  regular_files (<[p := File d]> f) = <[p := d]> (regular_files f).
Proof. unfold regular_files. by apply omap_insert_Some. Qed.

Lemma regular_files_insert_dir (f : FS) (p : path) :
  f !! p = None -> regular_files (<[p := Dir]> f) = regular_files f.
Proof.
  intros Hp. unfold regular_files. rewrite omap_insert_None by done.
  apply delete_id. by rewrite lookup_omap, Hp.
Qed.

Lemma regular_files_delete (f : FS) (p : path) :
  regular_files (delete p f) = delete p (regular_files f).
Proof. unfold regular_files. apply omap_delete. Qed.

(** The callback of the walk commutes with itself: the order in which
    [filepath.WalkDir] visits the entries does not matter. *)
Lemma usage_step_comm (E : Env) (ex p1 p2 : path) (n1 n2 : node) (y : Z) :
  usage_step E ex p1 n1 (usage_step E ex p2 n2 y)
  = usage_step E ex p2 n2 (usage_step E ex p1 n1 y).
Proof.
  unfold usage_step. repeat case_match; try reflexivity.
  rewrite !wrap64_add_l. f_equal. lia.
Qed.

(** What the walk returns is the exact sum of the counted files, wrapped
    to 64 bits. *)
Lemma usage_fold_exact (E : Env) (ex : path) (f : FS) :
  map_fold (usage_step E ex) 0 f = wrap64 (sum_sizes (counted E ex) f).
Proof.
  unfold sum_sizes. induction f as [|p n f Hp IH] using map_ind.
  - rewrite map_fold_empty. unfold regular_files. rewrite omap_empty, sum_map_empty.
    reflexivity.
  - rewrite map_fold_insert_L; [|by intros; apply usage_step_comm|done].
    rewrite IH. destruct n as [d|].
    + rewrite regular_files_insert_file, sum_map_insert
        by (by rewrite regular_files_lookup, Hp).
      unfold usage_step, counted, len.
      destruct (is_prefix (root E) p); simpl; [|by rewrite Z.add_0_r].
      destruct (bool_decide (p = ex)); simpl; [by rewrite Z.add_0_r|].
      destruct (String.eqb (filepath_Base p) cfgPath); simpl; [by rewrite Z.add_0_r|].
      apply wrap64_add_l.
    + rewrite regular_files_insert_dir by done.
      unfold usage_step. by case_match.
Qed.

Lemma walk_usage_exact (E : Env) (ex : path) (f : FS) (u : Z) :
  walk_usage E ex f = Some u -> u = wrap64 (sum_sizes (counted E ex) f).
Proof.
  unfold walk_usage. case_match; [|discriminate].
  intros [= <-]. apply usage_fold_exact.
Qed.

(* ===================================================================== *)
(** ** The system calls *)
(* ===================================================================== *)

Lemma pickTemp_Some (f : FS) (dir : path) (rnd : list string) (p : path) :
  pickTemp f dir rnd = Some p -> f !! p = None /\ exists x, p = filepath_Join dir [x].
Proof.
  induction rnd as [|r rnd IH]; simpl; [discriminate|].
  destruct (f !! filepath_Join dir _) eqn:Hf.
  - exact IH.
  - intros [= <-]. eauto.
Qed.

Lemma CreateTemp_Some (dir : path) (rnd : list string) (w w1 : World) (tmp : path) :
  os_CreateTemp dir rnd w = (Some tmp, w1) ->
  lookup_node (fs w) dir = Some Dir /\ fs w !! tmp = None /\
  (exists x, tmp = filepath_Join dir [x]) /\
  w1 = {| fs := <[tmp := File []]> (fs w); trace := trace w ++ [EvCreateTemp dir] |}.
Proof.
  unfold os_CreateTemp. run_monad.
  destruct (lookup_node (fs w) dir) as [[d|]|] eqn:Hd; try discriminate.
  destruct (pickTemp (fs w) dir rnd) as [p|] eqn:Hp; [|discriminate].
  intros [= <- <-]. apply pickTemp_Some in Hp as [? ?]. auto.
Qed.

Lemma CreateTemp_None (dir : path) (rnd : list string) (w w1 : World) :
  os_CreateTemp dir rnd w = (None, w1) ->
  w1 = {| fs := fs w; trace := trace w ++ [EvCreateTemp dir] |}.
Proof.
  unfold os_CreateTemp. run_monad.
  destruct (lookup_node (fs w) dir) as [[d|]|]; try by intros [= <-].
  destruct (pickTemp (fs w) dir rnd); [discriminate | by intros [= <-]].
Qed.

Lemma lookup_node_snoc (f : FS) (l : path) (c : string) :
  lookup_node f (l ++ [c]) = f !! (l ++ [c]).
Proof. by destruct l. Qed.

(** [os.MkdirAll] leaves every entry as it is and adds directories only. *)
Lemma MkdirAll_rev_frame (rp : list string) (f f' : FS) :
  MkdirAll_rev f rp = Some f' ->
  forall q, f' !! q = f !! q \/ (f !! q = None /\ f' !! q = Some Dir).
Proof.
  revert f'. induction rp as [|c rp IH]; intros f' H q; simpl in H.
  - injection H as <-. by left.
  - rewrite lookup_node_snoc in H.
    destruct (f !! (rev rp ++ [c])) as [[d|]|] eqn:Hl; try discriminate.
    { injection H as <-. by left. }
    destruct (MkdirAll_rev f rp) as [f1|] eqn:H1; [|discriminate].
    injection H as <-. specialize (IH f1 eq_refl).
    destruct (decide (q = rev rp ++ [c])) as [->|Hne].
    + right. by rewrite lookup_insert_eq.
    + rewrite lookup_insert_ne by done. apply IH.
Qed.

Lemma MkdirAll_rev_dir (rp : list string) (f f' : FS) :
  MkdirAll_rev f rp = Some f' -> lookup_node f' (rev rp) = Some Dir.
Proof.
  destruct rp as [|c rp]; simpl; [done|].
  rewrite !lookup_node_snoc.
  destruct (f !! (rev rp ++ [c])) as [[d|]|] eqn:Hl; try discriminate.
  - by intros [= <-].
  - destruct (MkdirAll_rev f rp) as [f1|]; [|discriminate].
    intros [= <-]. by rewrite lookup_insert_eq.
Qed.

Lemma MkdirAll_rev_files (rp : list string) (f f' : FS) :
  MkdirAll_rev f rp = Some f' -> regular_files f' = regular_files f.
Proof.
  intros H. apply map_eq. intros q. rewrite !regular_files_lookup.
  destruct (MkdirAll_rev_frame _ _ _ H q) as [->|[-> ->]]; done.
Qed.

Lemma MkdirAll_rev_keeps (rp : list string) (f f' : FS) (q : path) (n : node) :
  MkdirAll_rev f rp = Some f' -> f !! q = Some n -> f' !! q = Some n.
Proof.
  intros H Hq. destruct (MkdirAll_rev_frame _ _ _ H q) as [->|[Hn _]]; congruence.
Qed.

Lemma lookup_node_keeps (f f' : FS) (q : path) (n : node) :
  (forall p m, f !! p = Some m -> f' !! p = Some m) ->
  lookup_node f q = Some n -> lookup_node f' q = Some n.
Proof. intros H. destruct q; simpl; auto. Qed.

(** The parent of the directory [os.MkdirAll] was asked for is a directory
    too, when the filesystem it started from is a tree at that point. *)
Lemma MkdirAll_rev_parent (c : string) (rp : list string) (f f' : FS) :
  (forall n, f !! (rev rp ++ [c]) = Some n -> lookup_node f (rev rp) = Some Dir) ->
  MkdirAll_rev f (c :: rp) = Some f' -> lookup_node f' (rev rp) = Some Dir.
Proof.
  intros Htree H. simpl in H. rewrite lookup_node_snoc in H.
  destruct (f !! (rev rp ++ [c])) as [[d|]|] eqn:Hl; try discriminate.
  - injection H as <-. by apply (Htree Dir).
  - destruct (MkdirAll_rev f rp) as [f1|] eqn:H1; [|discriminate].
    injection H as <-. apply MkdirAll_rev_dir in H1.
    destruct (rev rp) eqn:Hr; [done|]. simpl in *.
    rewrite lookup_insert_ne; [done|].
    intros Heq. apply (f_equal length) in Heq. simpl in Heq.
    rewrite length_app in Heq. simpl in Heq. lia.
Qed.

Lemma os_MkdirAll_true (p : path) (w w1 : World) :
  os_MkdirAll p w = (true, w1) ->
  trace w1 = trace w ++ [EvMkdirAll p] /\ MkdirAll_rev (fs w) (rev p) = Some (fs w1).
Proof.
  unfold os_MkdirAll. run_monad.
  destruct (MkdirAll_rev (fs w) (rev p)); [|discriminate]. by intros [= <-].
Qed.

Lemma os_MkdirAll_false (p : path) (w w1 : World) :
  os_MkdirAll p w = (false, w1) ->
  w1 = {| fs := fs w; trace := trace w ++ [EvMkdirAll p] |}.
Proof.
  unfold os_MkdirAll. run_monad.
  destruct (MkdirAll_rev (fs w) (rev p)); [discriminate|]. by intros [= <-].
Qed.

Lemma os_Remove_file (p : path) (d : list byte) (w : World) :
  fs w !! p = Some (File d) ->
  os_Remove p w = (tt, {| fs := delete p (fs w); trace := trace w ++ [EvRemove p] |}).
Proof. intros H. unfold os_Remove. run_monad. by rewrite H. Qed.

Lemma os_Remove_absent (p : path) (w : World) :
  fs w !! p = None ->
  os_Remove p w = (tt, {| fs := fs w; trace := trace w ++ [EvRemove p] |}).
Proof. intros H. unfold os_Remove. run_monad. by rewrite H. Qed.

Lemma rename_fs_ok (f : FS) (old new : path) (d : list byte) :
  f !! old = Some (File d) -> lookup_node f (filepath_Dir new) = Some Dir ->
  f !! new = None ->
  rename_fs f old new = Some (<[new := File d]> (delete old f)).
Proof. intros H1 H2 H3. unfold rename_fs. by rewrite H1, H2, H3. Qed.

(* ===================================================================== *)
(** ** The stages of [upload] *)
(* ===================================================================== *)

Lemma io_Copy_run (tmp : path) (src : Reader) (w : World) :
  exists w', io_Copy tmp src w = ((len (rd_bytes src), rd_err src), w') /\
    trace w' = trace w ++ copy_events tmp (rd_bytes src) /\
    (fs w' = fs w \/ fs w' = <[tmp := File (rd_bytes src)]> (fs w)) /\
    (fs w !! tmp = Some (File []) -> fs w' = <[tmp := File (rd_bytes src)]> (fs w)).
Proof.
  unfold io_Copy, write_file, len. run_monad. destruct (rd_bytes src) as [|b d] eqn:Hd.
  - eexists. split; [reflexivity|]. simpl. rewrite app_nil_r.
    repeat split; auto. intros H. by rewrite insert_id.
  - eexists. split; [reflexivity|]. simpl. auto.
Qed.

Lemma stage_reply (E : Env) (tmp : path) (r : Request) (w : World) (reply : Response) :
  selectSource E r = inl reply -> stage E tmp r w = (inl reply, w).
Proof. intros H. unfold stage. by rewrite H. Qed.

Lemma stage_too_large (E : Env) (tmp : path) (r : Request) (w : World) (src : Reader) :
  selectSource E r = inr src -> rd_err src = Some MaxBytesError ->
  exists w', stage E tmp r w
             = (inl (http_Error "upload exceeds MAX_UPLOAD_GB" StatusRequestEntityTooLarge), w') /\
    trace w' = trace w ++ copy_events tmp (rd_bytes src) /\
    (fs w !! tmp = Some (File []) -> fs w' = <[tmp := File (rd_bytes src)]> (fs w)).
Proof.
  intros H He. unfold stage. rewrite H.
  destruct (io_Copy_run tmp src w) as (w' & Hc & Ht & _ & Hf).
  exists w'. unfold mbind, M_bind at 1. rewrite Hc. simpl. rewrite He. auto.
Qed.

Lemma stage_staged (E : Env) (tmp : path) (r : Request) (w w2 : World)
      (id : string) (n : Z) (final : path) :
  stage E tmp r w = (inr (id, n, final), w2) ->
  exists src, selectSource E r = inr src /\ rd_err src = None /\
    id = object_id E (rd_bytes src) /\ n = len (rd_bytes src) /\
    objPath E id = Some final /\
    trace w2 = trace w ++ copy_events tmp (rd_bytes src) ++ [EvClose tmp; EvHashSum] /\
    (fs w !! tmp = Some (File []) -> fs w2 = <[tmp := File (rd_bytes src)]> (fs w)).
Proof.
  unfold stage. destruct (selectSource E r) as [reply|src] eqn:Hs; [discriminate|].
  destruct (io_Copy_run tmp src w) as (w' & Hc & Ht & _ & Hf).
  unfold mbind, M_bind at 1. rewrite Hc. simpl.
  destruct (rd_err src) as [[|]|] eqn:He; try discriminate.
  unfold file_Close. run_monad.
  destruct (objPath E (object_id E (rd_bytes src))) as [p|] eqn:Hp; [|discriminate].
  intros [= <- <- <- <-]. exists src. simpl.
  rewrite Ht, <- !app_assoc. repeat split; auto.
Qed.

(** Whatever [stage] returns, it touches the temporary file only. *)
Lemma stage_fs (E : Env) (tmp : path) (r : Request) (w w2 : World)
      (s : Response + (string * Z * path)) :
  stage E tmp r w = (s, w2) -> fs w !! tmp = Some (File []) ->
  exists d, fs w2 = <[tmp := File d]> (fs w).
Proof.
  intros H Htmp. unfold stage in H.
  destruct (selectSource E r) as [reply|src] eqn:Hs.
  { injection H as <- <-. exists []. by rewrite insert_id. }
  destruct (io_Copy_run tmp src w) as (w' & Hc & Ht & _ & Hf).
  unfold mbind, M_bind at 1 in H. rewrite Hc in H. simpl in H.
  exists (rd_bytes src). rewrite <- (Hf Htmp).
  destruct (rd_err src) as [[|]|]; try by injection H as <- <-.
  unfold file_Close in H. run_monad.
  destruct (objPath E (object_id E (rd_bytes src))); by injection H as <- <-.
Qed.

Lemma publish_duplicate (E : Env) (tmp : path) (id : string) (n : Z) (final : path)
      (w : World) (n0 : node) :
  lookup_node (fs w) final = Some n0 ->
  publish E tmp id n final w
  = (upload_reply id n true, {| fs := fs w; trace := trace w ++ [EvStat final] |}).
Proof. intros H. unfold publish, os_Stat. run_monad. by rewrite H. Qed.

Lemma publish_no_usage (E : Env) (tmp : path) (id : string) (n : Z) (final : path)
      (w : World) :
  lookup_node (fs w) final = None -> walk_usage E tmp (fs w) = None ->
  publish E tmp id n final w
  = (http_Error "usage" 500,
     {| fs := fs w; trace := trace w ++ [EvStat final; EvWalkDir (root E)] |}).
Proof.
  intros H Hu. unfold publish, os_Stat, diskUsageBytes. run_monad.
  rewrite H. run_monad. rewrite Hu, <- app_assoc. reflexivity.
Qed.

Lemma publish_rejected (E : Env) (tmp : path) (id : string) (n : Z) (final : path)
      (w : World) (used : Z) :
  lookup_node (fs w) final = None -> walk_usage E tmp (fs w) = Some used ->
  wrap64 (used + n) > MaxStorageByte (limits E) ->
  publish E tmp id n final w
  = (quota_reply used (MaxStorageByte (limits E)),
     {| fs := fs w; trace := trace w ++ [EvStat final; EvWalkDir (root E)] |}).
Proof.
  intros H Hu Hgt. unfold publish, os_Stat, diskUsageBytes. run_monad.
  rewrite H. run_monad. rewrite Hu, <- app_assoc.
  destruct (Z.gtb_spec (wrap64 (used + n)) (MaxStorageByte (limits E))); [done|lia].
Qed.

Lemma publish_renamed (E : Env) (tmp : path) (id : string) (n : Z) (final : path)
      (w : World) (used : Z) (d : list byte) :
  lookup_node (fs w) final = None -> walk_usage E tmp (fs w) = Some used ->
  wrap64 (used + n) <= MaxStorageByte (limits E) ->
  fs w !! tmp = Some (File d) -> lookup_node (fs w) (filepath_Dir final) = Some Dir ->
  publish E tmp id n final w
  = (upload_reply id n false,
     {| fs := <[final := File d]> (delete tmp (fs w));
        trace := trace w ++ [EvStat final; EvWalkDir (root E); EvRename tmp final] |}).
Proof.
  intros H Hu Hle Htmp Hdir. unfold publish, os_Stat, diskUsageBytes, os_Rename. run_monad.
  rewrite H. run_monad. rewrite Hu.
  destruct (Z.gtb_spec (wrap64 (used + n)) (MaxStorageByte (limits E))); [lia|].
  assert (Hf : fs w !! final = None).
  { destruct final; [discriminate H | exact H]. }
  run_monad. rewrite (rename_fs_ok _ _ _ d), <- !app_assoc by done. reflexivity.
Qed.

Lemma upload_no_temp (E : Env) (rnd : list string) (r : Request) (w w1 : World) :
  os_CreateTemp (root E) rnd w = (None, w1) ->
  upload E rnd r w = (http_Error "tmp" 500, w1).
Proof. intros H. unfold upload. unfold mbind, M_bind at 1. by rewrite H. Qed.

Lemma upload_with_temp (E : Env) (rnd : list string) (r : Request) (w w1 w2 : World)
      (tmp : path) (reply : Response) :
  os_CreateTemp (root E) rnd w = (Some tmp, w1) ->
  upload_staged E tmp r w1 = (reply, w2) ->
  upload E rnd r w = (reply, snd (os_Remove tmp w2)).
Proof.
  intros H1 H2. unfold upload. unfold mbind, M_bind at 1. rewrite H1.
  unfold mbind, M_bind at 1. rewrite H2.
  unfold mbind, M_bind, mret, M_ret. by destruct (os_Remove tmp w2).
Qed.

Lemma upload_staged_reply (E : Env) (tmp : path) (r : Request) (w w2 : World)
      (reply : Response) :
  stage E tmp r w = (inl reply, w2) -> upload_staged E tmp r w = (reply, w2).
Proof. intros H. unfold upload_staged. unfold mbind, M_bind at 1. by rewrite H. Qed.

Lemma upload_staged_mkdir_failed (E : Env) (tmp : path) (r : Request) (w w2 w3 : World)
      (id : string) (n : Z) (final : path) :
  stage E tmp r w = (inr (id, n, final), w2) ->
  os_MkdirAll (filepath_Dir final) w2 = (false, w3) ->
  upload_staged E tmp r w = (http_Error "mkdir" 500, w3).
Proof.
  intros H1 H2. unfold upload_staged. unfold mbind, M_bind at 1. rewrite H1.
  unfold mbind, M_bind at 1. by rewrite H2.
Qed.

Lemma upload_staged_gate (E : Env) (tmp : path) (r : Request) (w w2 w3 w4 : World)
      (id : string) (n : Z) (final : path) (reply : Response) :
  stage E tmp r w = (inr (id, n, final), w2) ->
  os_MkdirAll (filepath_Dir final) w2 = (true, w3) ->
  publish E tmp id n final {| fs := fs w3; trace := trace w3 ++ [EvLock] |} = (reply, w4) ->
  upload_staged E tmp r w = (reply, {| fs := fs w4; trace := trace w4 ++ [EvUnlock] |}).
Proof.
  intros H1 H2 H3. unfold upload_staged. unfold mbind, M_bind at 1. rewrite H1.
  unfold mbind, M_bind at 1. rewrite H2. run_monad. by rewrite H3.
Qed.

(** The filesystem in which the publish gate runs. *)
Lemma gate_state (E : Env) (rnd : list string) (r : Request) (w w1 w2 w3 : World)
      (tmp : path) (id : string) (n : Z) (final : path) :
  os_CreateTemp (root E) rnd w = (Some tmp, w1) ->
  stage E tmp r w1 = (inr (id, n, final), w2) ->
  os_MkdirAll (filepath_Dir final) w2 = (true, w3) ->
  exists data,
    selectSource E r = inr {| rd_bytes := data; rd_err := None |} /\
    id = object_id E data /\ n = len data /\ objPath E id = Some final /\
    fs w !! tmp = None /\
    fs w3 !! tmp = Some (File data) /\
    lookup_node (fs w3) (root E) = Some Dir /\
    lookup_node (fs w3) (filepath_Dir final) = Some Dir /\
    regular_files (fs w3) = <[tmp := data]> (regular_files (fs w)) /\
    (forall q, q <> tmp ->
       fs w3 !! q = fs w !! q \/ (fs w !! q = None /\ fs w3 !! q = Some Dir)) /\
    trace w3 = trace w ++ [EvCreateTemp (root E)] ++ copy_events tmp data
                 ++ [EvClose tmp; EvHashSum; EvMkdirAll (filepath_Dir final)].
Proof.
  intros H1 H2 H3.
  apply CreateTemp_Some in H1 as (Hroot & Hfresh & _ & ->).
  apply stage_staged in H2 as (src & Hsel & Herr & -> & -> & Hobj & Htr & Hfs).
  simpl in Hfs, Htr. specialize (Hfs (lookup_insert_eq _ _ _)).
  rewrite insert_insert_eq in Hfs.
  apply os_MkdirAll_true in H3 as (Htr3 & Hmk).
  exists (rd_bytes src). destruct src as [data e]. simpl in *. subst e.
  repeat split; try done.
  - eapply MkdirAll_rev_keeps; [exact Hmk|]. rewrite Hfs. apply lookup_insert_eq.
  - eapply lookup_node_keeps; [intros p m; apply (MkdirAll_rev_keeps _ _ _ _ _ Hmk)|].
    rewrite Hfs. destruct (root E) eqn:Hr; [done|]. simpl in *.
    rewrite lookup_insert_ne; [done|]. intros ->. congruence.
  - rewrite <- (rev_involutive (filepath_Dir final)). by eapply MkdirAll_rev_dir.
  - rewrite (MkdirAll_rev_files _ _ _ Hmk), Hfs. apply regular_files_insert_file.
  - intros q Hq. destruct (MkdirAll_rev_frame _ _ _ Hmk q) as [Heq|[Hn Hd]].
    + left. by rewrite Heq, Hfs, lookup_insert_ne.
    + right. by rewrite Hfs, lookup_insert_ne in Hn.
  - rewrite Htr3, Htr, <- !app_assoc. reflexivity.
Qed.

Lemma walk_usage_Some (E : Env) (ex : path) (f : FS) (n : node) :
  lookup_node f (root E) = Some n ->
  walk_usage E ex f = Some (wrap64 (sum_sizes (counted E ex) f)).
Proof.
  intros H. unfold walk_usage. rewrite H. f_equal. apply usage_fold_exact.
Qed.

Lemma selectSource_reply_status (E : Env) (r : Request) (reply : Response) :
  selectSource E r = inl reply -> exists msg, reply = http_Error msg StatusBadRequest.
Proof.
  unfold selectSource. repeat case_match; intros [= <-]; eauto.
Qed.

Lemma stage_reply_not_ok (E : Env) (tmp : path) (r : Request) (w w2 : World)
      (reply : Response) :
  stage E tmp r w = (inl reply, w2) -> forall h b, reply <> Reply status_ok h b.
Proof.
  unfold stage. destruct (selectSource E r) as [rep|src] eqn:Hs.
  { intros [= <- <-] h b. apply selectSource_reply_status in Hs as [msg ->]. discriminate. }
  destruct (io_Copy_run tmp src w) as (w' & Hc & _).
  unfold mbind, M_bind at 1. rewrite Hc. simpl.
  destruct (rd_err src) as [[|]|]; try (intros [= <- <-]; discriminate).
  unfold file_Close. run_monad.
  destruct (objPath E (object_id E (rd_bytes src))); intros [= <- <-]; discriminate.
Qed.

(** Every way [upload] can end: the reply, the filesystem and the calls
    made, by the point where the handler left. *)
Lemma upload_outcomes (E : Env) (rnd : list string) (r : Request) (w : World) :
  exists reply w', upload E rnd r w = (reply, w') /\
    ((os_CreateTemp (root E) rnd w = (None, w') /\ reply = http_Error "tmp" 500)
     \/ exists tmp w1, os_CreateTemp (root E) rnd w = (Some tmp, w1) /\
     ((exists w2, stage E tmp r w1 = (inl reply, w2) /\
          fs w' = fs w /\ trace w' = trace w2 ++ [EvRemove tmp])
      \/ exists id n final w2, stage E tmp r w1 = (inr (id, n, final), w2) /\
      ((exists w3, os_MkdirAll (filepath_Dir final) w2 = (false, w3) /\
           reply = http_Error "mkdir" 500 /\
           fs w' = fs w /\ trace w' = trace w3 ++ [EvRemove tmp])
       \/ exists w3, os_MkdirAll (filepath_Dir final) w2 = (true, w3) /\
       ((exists n0, lookup_node (fs w3) final = Some n0 /\
           reply = upload_reply id n true /\
           fs w' = delete tmp (fs w3) /\
           trace w' = trace w3 ++ [EvLock; EvStat final; EvUnlock; EvRemove tmp])
        \/ (lookup_node (fs w3) final = None /\
            exists used, used = wrap64 (sum_sizes (counted E tmp) (fs w3)) /\
            ((wrap64 (used + n) > MaxStorageByte (limits E) /\
              reply = quota_reply used (MaxStorageByte (limits E)) /\
              fs w' = delete tmp (fs w3) /\
              trace w' = trace w3 ++ [EvLock; EvStat final; EvWalkDir (root E);
                                      EvUnlock; EvRemove tmp])
             \/ (wrap64 (used + n) <= MaxStorageByte (limits E) /\
                 reply = upload_reply id n false /\
                 exists data, fs w3 !! tmp = Some (File data) /\
                 fs w' = <[final := File data]> (delete tmp (fs w3)) /\
                 trace w' = trace w3 ++ [EvLock; EvStat final; EvWalkDir (root E);
                                         EvRename tmp final; EvUnlock; EvRemove tmp]))))))).
Proof.
  destruct (os_CreateTemp (root E) rnd w) as [[tmp|] w1] eqn:Hct.
  2:{ eexists _, _. split; [by apply upload_no_temp|]. by left. }
  pose proof (CreateTemp_Some _ _ _ _ _ Hct) as (Hroot & Hfresh & _ & Hw1).
  assert (Htmp1 : fs w1 !! tmp = Some (File [])) by (subst w1; apply lookup_insert_eq).
  destruct (stage E tmp r w1) as [[reply|[[id n] final]] w2] eqn:Hst.
  { destruct (stage_fs _ _ _ _ _ _ Hst Htmp1) as [d Hd].
    eexists _, _. split.
    { eapply upload_with_temp; [exact Hct|]. by apply upload_staged_reply. }
    right. exists tmp, w1. split; [done|]. left. exists w2. split; [done|].
    rewrite (os_Remove_file tmp d) by (rewrite Hd; apply lookup_insert_eq). simpl.
    split; [|done]. rewrite Hd. subst w1. simpl.
    by rewrite insert_insert_eq, delete_insert_id. }
  destruct (stage_fs _ _ _ _ _ _ Hst Htmp1) as [d Hd].
  destruct (os_MkdirAll (filepath_Dir final) w2) as [[|] w3] eqn:Hmk.
  2:{ pose proof (os_MkdirAll_false _ _ _ Hmk) as Hw3.
      eexists _, _. split.
      { eapply upload_with_temp; [exact Hct|]. by eapply upload_staged_mkdir_failed. }
      right. exists tmp, w1. split; [done|]. right. exists id, n, final, w2. split; [done|].
      left. exists w3. split; [done|]. split; [done|].
      rewrite (os_Remove_file tmp d) by (subst w3; simpl; rewrite Hd; apply lookup_insert_eq).
      simpl. split; [|done]. subst w3 w1. simpl. rewrite Hd. simpl.
      by rewrite insert_insert_eq, delete_insert_id. }
  destruct (gate_state _ _ _ _ _ _ _ _ _ _ _ Hct Hst Hmk)
    as (data & Hsel & Hid & Hn & Hobj & _ & Htmp3 & Hroot3 & Hdir3 & _).
  set (wg := {| fs := fs w3; trace := trace w3 ++ [EvLock] |}).
  destruct (lookup_node (fs w3) final) as [n0|] eqn:Hstat.
  { eexists _, _. split.
    { eapply upload_with_temp; [exact Hct|]. eapply upload_staged_gate; [done..|].
      by apply (publish_duplicate _ _ _ _ _ wg n0). }
    right. exists tmp, w1. split; [done|]. right. exists id, n, final, w2. split; [done|].
    right. exists w3. split; [done|]. left. exists n0. split; [done|]. split; [done|].
    rewrite (os_Remove_file tmp data) by done. simpl.
    by rewrite <- !app_assoc. }
  pose proof (walk_usage_Some E tmp (fs w3) Dir Hroot3) as Hwalk.
  set (used := wrap64 (sum_sizes (counted E tmp) (fs w3))) in *.
  destruct (Z_gt_le_dec (wrap64 (used + n)) (MaxStorageByte (limits E))) as [Hgt|Hle].
  { eexists _, _. split.
    { eapply upload_with_temp; [exact Hct|]. eapply upload_staged_gate; [done..|].
      by apply (publish_rejected _ _ _ _ _ wg used). }
    right. exists tmp, w1. split; [done|]. right. exists id, n, final, w2. split; [done|].
    right. exists w3. split; [done|]. right. split; [done|]. exists used. split; [done|].
    left. split; [done|]. split; [done|].
    rewrite (os_Remove_file tmp data) by done. simpl.
    by rewrite <- !app_assoc. }
  eexists _, _. split.
  { eapply upload_with_temp; [exact Hct|]. eapply upload_staged_gate; [done..|].
    by apply (publish_renamed _ _ _ _ _ wg used data). }
  right. exists tmp, w1. split; [done|]. right. exists id, n, final, w2. split; [done|].
  right. exists w3. split; [done|]. right. split; [done|]. exists used. split; [done|].
  right. split; [done|]. split; [done|]. exists data. split; [done|].
  assert (Hne : final <> tmp).
  { intros ->. destruct tmp; simpl in Hstat; congruence. }
  rewrite os_Remove_absent.
  2:{ simpl. rewrite lookup_insert_ne by done. apply lookup_delete_eq. }
  simpl. by rewrite <- !app_assoc.
Qed.

(* ===================================================================== *)
(** ** Identifier scheme: the storage path *)
(* ===================================================================== *)

Lemma substring_whole (s : string) : substring 0 (String.length s) s = s.
Proof. induction s as [|c s IH]; simpl; [done|]. by rewrite IH. Qed.

Lemma filepath_Base_snoc (l : path) (c : string) : filepath_Base (l ++ [c]) = c.
Proof. unfold filepath_Base. apply List.last_last. Qed.

Lemma filepath_Dir_snoc (l : path) (c : string) : filepath_Dir (l ++ [c]) = l.
Proof. unfold filepath_Dir. apply removelast_last. Qed.

Lemma objPath_Base (E : Env) (id : string) (p : path) :
  objPath E id = Some p -> filepath_Base p = id.
Proof.
  intros ->%objPath_shape. unfold filepath_Join.
  change [slice id 0 2; slice id 2 4; id] with ([slice id 0 2; slice id 2 4] ++ [id]).
  rewrite app_assoc. apply filepath_Base_snoc.
Qed.

Lemma objPath_Dir (E : Env) (id : string) (p : path) :
  objPath E id = Some p ->
  filepath_Dir p = (root E ++ [slice id 0 2]) ++ [slice id 2 4].
Proof.
  intros ->%objPath_shape. unfold filepath_Join.
  change [slice id 0 2; slice id 2 4; id] with ([slice id 0 2] ++ [slice id 2 4] ++ [id]).
  rewrite !app_assoc. apply filepath_Dir_snoc.
Qed.

Lemma objPath_lookup (E : Env) (id : string) (p : path) (f : FS) :
  objPath E id = Some p -> lookup_node f p = f !! p.
Proof.
  intros ->%objPath_shape. unfold filepath_Join.
  change [slice id 0 2; slice id 2 4; id] with ([slice id 0 2; slice id 2 4] ++ [id]).
  rewrite app_assoc. apply lookup_node_snoc.
Qed.

(** C5, as the claim states it, fails: the last component of the storage
    path of the identifier [AAA] is not its characters 4 to 43. *)
Lemma objPath_tail_counterexample :
  idRe_MatchString AAA = true /\
  objPath demo_env AAA
  <> Some (filepath_Join (root demo_env) [slice AAA 0 2; slice AAA 2 4; slice AAA 4 43]).
Proof. split; [reflexivity|]. vm_compute. discriminate. Qed.

(** C5 (amended): for every well-formed identifier, the storage path is the
    storage root joined with the two-character segments [id[0:2]] and
    [id[2:4]] and, as the final component, the whole 43-character
    identifier (whose characters 4 to 43 follow the two segments). *)
Theorem objPath_layout (E : Env) (id : string) :
  idRe_MatchString id = true ->
  objPath E id = Some (filepath_Join (root E) [slice id 0 2; slice id 2 4; id]) /\
  (forall p, objPath E id = Some p -> filepath_Base p = id /\ String.length (filepath_Base p) = 43%nat) /\
  String.length (slice id 0 2) = 2%nat /\ String.length (slice id 2 4) = 2%nat /\
  id = slice id 0 2 +:+ slice id 2 4 +:+ slice id 4 43.
Proof.
  intros Hid. pose proof (valid_id_length id Hid) as Hlen.
  split; [by apply valid_id_objPath|].
  split. { intros p Hp. rewrite (objPath_Base _ _ _ Hp). done. }
  destruct id as [|c0 [|c1 [|c2 [|c3 rest]]]]; try discriminate Hlen.
  simpl in Hlen. assert (Hrest : String.length rest = 39%nat) by lia.
  unfold slice. cbn [Nat.sub substring String.length].
  repeat split; try done.
  - by destruct rest.
  - change (43 - 4)%nat with 39%nat. rewrite <- Hrest, substring_whole.
    assert (substring 0 0 rest = EmptyString) as -> by (by destruct rest). reflexivity.
Qed.

Lemma objPath_layout_witness :
  idRe_MatchString AAA = true /\
  objPath demo_env AAA = Some ["home"; "sht2"; "AA"; "AA"; AAA].
Proof.
  split; [reflexivity|].
  exact (proj1 (objPath_layout demo_env AAA eq_refl)).
Defined.

(* ===================================================================== *)
(** ** Retrieval: malformed identifiers *)
(* ===================================================================== *)

(** C7: a GET or HEAD request whose path, without the leading slash, is not
    43 characters of [[A-Za-z0-9_-]] is answered "not found", and the
    world is left as it was: no call is made on the filesystem, so no file
    is opened. *)
Theorem serveByID_rejects_malformed (E : Env) (r : Request) (w : World) :
  idRe_MatchString (TrimPrefix_slash (URL_Path r)) = false ->
  serveByID E r w = (http_NotFound, w) /\
  existsb is_open (trace (snd (serveByID E r w))) = existsb is_open (trace w) /\
  forall rnd, (Method r = "GET" \/ Method r = "HEAD") -> URL_Path r <> "/" ->
    ServeHTTP E rnd r w = (http_NotFound, w).
Proof.
  intros Hbad.
  assert (Hs : serveByID E r w = (http_NotFound, w)).
  { unfold serveByID. rewrite Hbad. simpl. by rewrite !orb_true_r. }
  split; [exact Hs|]. split; [by rewrite Hs|].
  intros rnd Hm Hp. unfold ServeHTTP.
  destruct (String.eqb_spec (URL_Path r) "/") as [?|_]; [done|].
  destruct Hm as [-> | ->]; exact Hs.
Qed.

Lemma serveByID_rejects_malformed_witness :
  serveByID demo_env (GET "../../etc/passwd") hello_world = (http_NotFound, hello_world) /\
  serveByID demo_env (GET "aG/ho/aGhoaGhoaGhoaGhoaGhoaGhoaGhoaGhoaGhoaGhoaGg") hello_world
  = (http_NotFound, hello_world).
Proof.
  split.
  - apply (serveByID_rejects_malformed demo_env (GET "../../etc/passwd") hello_world).
    reflexivity.
  - apply (serveByID_rejects_malformed demo_env
             (GET "aG/ho/aGhoaGhoaGhoaGhoaGhoaGhoaGhoaGhoaGhoaGhoaGg") hello_world).
    reflexivity.
Defined.

(* ===================================================================== *)
(** ** Content addressing *)
(* ===================================================================== *)

(** A successful upload staged its payload and reports its identifier. *)
Lemma upload_ok_inv (E : Env) (rnd : list string) (r : Request) (w w' : World)
      (h : list (string * string)) (b : payload) :
  upload E rnd r w = (Reply status_ok h b, w') ->
  exists data deduped tmp final,
    selectSource E r = inr {| rd_bytes := data; rd_err := None |} /\
    Reply status_ok h b = upload_reply (object_id E data) (len data) deduped /\
    objPath E (object_id E data) = Some final /\
    fs w !! tmp = None /\
    (deduped = false ->
       fs w' !! final = Some (File data) /\
       regular_files (fs w') = <[final := data]> (regular_files (fs w)) /\
       regular_files (fs w) !! final = None /\
       wrap64 (wrap64 (sum_sizes (counted E tmp) (fs w)) + len data)
         <= MaxStorageByte (limits E) /\
       exists x, tmp = root E ++ [x]) /\
    (deduped = true -> regular_files (fs w') = regular_files (fs w)).
Proof.
  intros Hup.
  destruct (upload_outcomes E rnd r w) as (reply & w0 & Heq & Hcases).
  rewrite Hup in Heq. injection Heq as <- <-.
  destruct Hcases as [[_ ?]|(tmp & w1 & Hct & Hcases)]; [discriminate|].
  destruct Hcases as [(w2 & Hst & _)|(id & n & final & w2 & Hst & Hcases)].
  { by destruct (stage_reply_not_ok _ _ _ _ _ _ Hst h b). }
  destruct Hcases as [(w3 & _ & ? & _)|(w3 & Hmk & Hcases)]; [discriminate|].
  destruct (gate_state _ _ _ _ _ _ _ _ _ _ _ Hct Hst Hmk)
    as (data & Hsel & -> & -> & Hobj & Hfresh & Htmp3 & Hroot3 & Hdir3 & Hfiles & Hframe & _).
  pose proof (CreateTemp_Some _ _ _ _ _ Hct) as (_ & _ & Hx & _).
  assert (Hdel : regular_files (delete tmp (fs w3)) = regular_files (fs w)).
  { rewrite regular_files_delete, Hfiles. apply delete_insert_id.
    by rewrite regular_files_lookup, Hfresh. }
  destruct Hcases as [(n0 & Hstat & Hr & Hfs & _)|(Hstat & used & Hused & Hcases)].
  { exists data, true, tmp, final. rewrite Hfs, Hdel. repeat split; try done. }
  destruct Hcases as [(_ & ? & _)|(Hle & Hr & data' & Htmp' & Hfs & _)]; [discriminate|].
  assert (data' = data) as -> by congruence.
  assert (Hfin3 : fs w3 !! final = None) by (destruct final; [discriminate Hstat | exact Hstat]).
  assert (Hne : final <> tmp) by congruence.
  exists data, false, tmp, final. repeat split; try done.
  - rewrite Hfs. apply lookup_insert_eq.
  - rewrite Hfs, regular_files_insert_file, Hdel. reflexivity.
  - rewrite regular_files_lookup.
    destruct (Hframe final Hne) as [<-|[-> _]]; [by rewrite Hfin3 | done].
  - subst used. unfold sum_sizes in *. rewrite Hfiles in Hle.
    rewrite sum_map_insert in Hle by (by rewrite regular_files_lookup, Hfresh).
    unfold counted in Hle at 2. rewrite bool_decide_eq_true_2 in Hle by done.
    rewrite andb_false_r, Z.add_0_r in Hle. exact Hle.
Qed.

(** C1: when an upload is answered with HTTP 200, the [id] of the JSON
    reply is the unpadded URL-safe base64 encoding of the BLAKE3 digest of
    the payload [data] that was uploaded: 43 characters of [[A-Za-z0-9_-]],
    none of them a slash, a plus or the padding character. *)
Theorem upload_id_is_encoded_digest (E : Env) (rnd : list string) (r : Request)
        (w w' : World) (h : list (string * string)) (b : payload) :
  upload E rnd r w = (Reply status_ok h b, w') ->
  exists data deduped,
    selectSource E r = inr {| rd_bytes := data; rd_err := None |} /\
    let id := EncodeToString (proj1_sig (blake3_Sum E data)) in
    h = json_header /\
    b = BodyJSON [("deduped", JBool deduped); ("id", JString id); ("size", JInt (len data))] /\
    String.length id = 43%nat /\
    forall_chars is_id_char id = true /\
    forall_chars no_slash_plus_pad id = true.
Proof.
  intros Hup. apply upload_ok_inv in Hup as (data & deduped & _ & _ & Hsel & Hreply & _).
  exists data, deduped. split; [exact Hsel|]. simpl.
  injection Hreply as -> ->. fold (object_id E data).
  pose proof (object_id_valid E data) as Hv.
  unfold idRe_MatchString in Hv. apply andb_true_iff in Hv as [_ Hc].
  repeat split; try done.
  - apply object_id_length.
  - eapply forall_chars_impl; [apply id_char_no_slash | exact Hc].
Qed.

Lemma upload_id_is_encoded_digest_witness :
  exists data deduped,
    selectSource demo_env (raw_request hello) = inr {| rd_bytes := data; rd_err := None |} /\
    let id := EncodeToString (proj1_sig (blake3_Sum demo_env data)) in
    json_header = json_header /\
    BodyJSON [("deduped", JBool false);
              ("id", JString "aGhoaGhoaGhoaGhoaGhoaGhoaGhoaGhoaGhoaGhoaGg");
              ("size", JInt 12)]
    = BodyJSON [("deduped", JBool deduped); ("id", JString id); ("size", JInt (len data))] /\
    String.length id = 43%nat /\
    forall_chars is_id_char id = true /\
    forall_chars no_slash_plus_pad id = true.
Proof.
  apply (upload_id_is_encoded_digest demo_env ["1"] (raw_request hello) demo_world hello_world).
  reflexivity.
Defined.

(* ===================================================================== *)
(** ** The publish gate *)
(* ===================================================================== *)

(** C6: when the staged payload has identifier [id] and a file already
    exists at [objPath id] as the gate runs, the reply is HTTP 200 with
    [{id, size, deduped: true}], where [size] is the byte count of the
    payload just uploaded; the handler makes no rename, and the file at
    the target path is the one that was there. *)
Theorem upload_duplicate (E : Env) (rnd : list string) (r : Request) (w w1 w2 w3 : World)
        (tmp : path) (id : string) (n : Z) (final : path) (d : list byte) :
  os_CreateTemp (root E) rnd w = (Some tmp, w1) ->
  stage E tmp r w1 = (inr (id, n, final), w2) ->
  os_MkdirAll (filepath_Dir final) w2 = (true, w3) ->
  fs w3 !! final = Some (File d) ->
  exists w' data evs,
    upload E rnd r w = (upload_reply id n true, w') /\
    selectSource E r = inr {| rd_bytes := data; rd_err := None |} /\
    n = len data /\ id = object_id E data /\ objPath E id = Some final /\
    trace w' = trace w ++ evs /\ existsb is_rename evs = false /\
    fs w' !! final = Some (File d) /\
    fs w' !! tmp = None.
Proof.
  intros Hct Hst Hmk Hfile.
  destruct (gate_state _ _ _ _ _ _ _ _ _ _ _ Hct Hst Hmk)
    as (data & Hsel & Hid & Hn & Hobj & Hfresh & Htmp3 & _ & _ & _ & _ & Htr3).
  destruct (upload_outcomes E rnd r w) as (reply & w' & Hup & Hcases).
  destruct Hcases as [[Hct' _]|(tmp' & w1' & Hct' & Hcases)]; [congruence|].
  rewrite Hct in Hct'. injection Hct' as <- <-.
  destruct Hcases as [(w2' & Hst' & _)|(id' & n' & final' & w2' & Hst' & Hcases)];
    [congruence|].
  rewrite Hst in Hst'. injection Hst' as <- <- <- <-.
  destruct Hcases as [(w3' & Hmk' & _)|(w3' & Hmk' & Hcases)]; [congruence|].
  rewrite Hmk in Hmk'. injection Hmk' as <-.
  assert (Hstat : lookup_node (fs w3) final = Some (File d)).
  { rewrite Hid in Hobj. by rewrite (objPath_lookup _ _ _ _ Hobj). }
  destruct Hcases as [(n0 & _ & -> & Hfs & Htr)|(Hnone & _)]; [|congruence].
  assert (Hne : tmp <> final).
  { intros ->. apply objPath_shape in Hobj.
    pose proof (CreateTemp_Some _ _ _ _ _ Hct) as (_ & _ & [x Hx] & _).
    rewrite Hobj in Hx. unfold filepath_Join in Hx.
    apply app_inv_head in Hx. discriminate Hx. }
  exists w', data. eexists. split; [exact Hup|]. repeat split; try done.
  - rewrite Htr, Htr3, <- !app_assoc. reflexivity.
  - rewrite !existsb_app. simpl. by destruct data.
  - rewrite Hfs. by rewrite lookup_delete_ne.
  - rewrite Hfs. apply lookup_delete_eq.
Qed.

Lemma upload_duplicate_witness :
  exists w' data evs,
    upload demo_env ["1"] (raw_request hello) hello_world
    = (upload_reply "aGhoaGhoaGhoaGhoaGhoaGhoaGhoaGhoaGhoaGhoaGg" 12 true, w') /\
    selectSource demo_env (raw_request hello) = inr {| rd_bytes := data; rd_err := None |} /\
    12 = len data /\ "aGhoaGhoaGhoaGhoaGhoaGhoaGhoaGhoaGhoaGhoaGg" = object_id demo_env data /\
    objPath demo_env "aGhoaGhoaGhoaGhoaGhoaGhoaGhoaGhoaGhoaGhoaGg"
    = Some ["home"; "sht2"; "aG"; "ho"; "aGhoaGhoaGhoaGhoaGhoaGhoaGhoaGhoaGhoaGhoaGg"] /\
    trace w' = trace hello_world ++ evs /\ existsb is_rename evs = false /\
    fs w' !! ["home"; "sht2"; "aG"; "ho"; "aGhoaGhoaGhoaGhoaGhoaGhoaGhoaGhoaGhoaGhoaGg"]
    = Some (File hello) /\
    fs w' !! ["home"; "sht2"; "up-1"] = None.
Proof.
  eapply (upload_duplicate demo_env ["1"] (raw_request hello) hello_world).
  - reflexivity.
  - reflexivity.
  - reflexivity.
  - reflexivity.
Defined.

Lemma sum_map_ext (P Q : path -> bool) (m : gmap path (list byte)) :
  (forall p d, m !! p = Some d -> P p = Q p) -> sum_map P m = sum_map Q m.
Proof.
  induction m as [|p d m Hp IH] using map_ind; intros H.
  - by rewrite !sum_map_empty.
  - rewrite !sum_map_insert by done.
    rewrite (H p d) by apply lookup_insert_eq. f_equal. apply IH.
    intros q e Hq. apply (H q e). rewrite lookup_insert_ne; [done|]. congruence.
Qed.

(** The usage measured at the gate is the size of what the store held
    before the upload began: the staging file is left out. *)
Lemma gate_usage (E : Env) (tmp : path) (data : list byte) (f f3 : FS) :
  f !! tmp = None ->
  regular_files f3 = <[tmp := data]> (regular_files f) ->
  sum_sizes (counted E tmp) f3 = stored_bytes E f.
Proof.
  intros Hfresh Hfiles. unfold stored_bytes, sum_sizes. rewrite Hfiles.
  rewrite sum_map_insert by (by rewrite regular_files_lookup, Hfresh).
  unfold counted at 2. rewrite bool_decide_eq_true_2 by done.
  rewrite andb_false_r, Z.add_0_r. apply sum_map_ext.
  intros p d Hp. unfold counted, stored.
  rewrite bool_decide_eq_false_2; [by rewrite andb_true_r|].
  intros ->. by rewrite regular_files_lookup, Hfresh in Hp.
Qed.

(** C3, as the claim states it, fails: the usage walk skips every file
    named [.sht2], wherever it lies, not only the configuration file
    [root/.sht2].  With 12 bytes in [aa/.sht2] the usage of the claim is
    12 at the quota check, and 5 bytes more pass the ceiling of 16; the
    code measures 0 and publishes. *)
Lemma foreign_config_name_counterexample :
  let gate := snd (os_MkdirAll ["home"; "sht2"; "MT"; "Ex"]
                     (snd (stage small_env up1 (raw_request five)
                             (snd (os_CreateTemp ["home"; "sht2"] ["1"] foreign_world))))) in
  sum_sizes (claimed_counted small_env up1) (fs gate) = 12 /\
  12 + 5 > MaxStorageByte (limits small_env) /\
  walk_usage small_env up1 (fs gate) = Some 0 /\
  fst (upload small_env ["1"] (raw_request five) foreign_world)
  = upload_reply five_id 5 false.
Proof. repeat split; reflexivity. Qed.

(** C3 (amended): for a storage root given as a cleaned absolute path, an
    upload of [S] bytes that reaches the quota check, with [U] the total
    size of the regular files under the root other than the files named
    [.sht2] and the upload's own staging file, is published exactly when
    [U + S <= MaxStorageByte]; otherwise the reply is HTTP 507 with
    [used_bytes = U] and [max_storage_bytes = MaxStorageByte], and
    nothing is stored at the target path.  ([U + S] is taken to fit in an
    [int64], as the sizes of real files do.) *)
Theorem upload_quota_boundary (E : Env) (rnd : list string) (r : Request)
        (w w1 w2 w3 : World) (tmp : path) (id : string) (S : Z) (final : path) (U : Z) :
  os_CreateTemp (root E) rnd w = (Some tmp, w1) ->
  stage E tmp r w1 = (inr (id, S, final), w2) ->
  os_MkdirAll (filepath_Dir final) w2 = (true, w3) ->
  lookup_node (fs w3) final = None ->
  U = sum_sizes (counted E tmp) (fs w3) ->
  U + S <= max_int64 ->
  exists reply w',
    upload E rnd r w = (reply, w') /\
    walk_usage E tmp (fs w3) = Some U /\
    U = stored_bytes E (fs w) /\
    (reply = upload_reply id S false <-> U + S <= MaxStorageByte (limits E)) /\
    (U + S <= MaxStorageByte (limits E) ->
       exists data, fs w' !! final = Some (File data) /\ len data = S) /\
    (U + S > MaxStorageByte (limits E) ->
       reply = quota_reply U (MaxStorageByte (limits E)) /\ fs w' !! final = None).
Proof.
  intros Hct Hst Hmk Hstat HU Hfit.
  destruct (gate_state _ _ _ _ _ _ _ _ _ _ _ Hct Hst Hmk)
    as (data & Hsel & Hid & Hn & Hobj & Hfresh & Htmp3 & Hroot3 & _ & Hfiles & _ & _).
  assert (HU0 : 0 <= U) by (subst U; apply sum_map_nonneg).
  assert (HS0 : 0 <= S) by (subst S; unfold len; lia).
  assert (HwU : wrap64 U = U) by (apply wrap64_small; pow64; lia).
  assert (HwUS : wrap64 (U + S) = U + S) by (apply wrap64_small; pow64; lia).
  destruct (upload_outcomes E rnd r w) as (reply & w' & Hup & Hcases).
  destruct Hcases as [[Hct' _]|(tmp' & w1' & Hct' & Hcases)]; [congruence|].
  rewrite Hct in Hct'. injection Hct' as <- <-.
  destruct Hcases as [(w2' & Hst' & _)|(id' & n' & final' & w2' & Hst' & Hcases)];
    [congruence|].
  rewrite Hst in Hst'. injection Hst' as <- <- <- <-.
  destruct Hcases as [(w3' & Hmk' & _)|(w3' & Hmk' & Hcases)]; [congruence|].
  rewrite Hmk in Hmk'. injection Hmk' as <-.
  destruct Hcases as [(n0 & Hdup & _)|(_ & used & Hused & Hcases)]; [congruence|].
  rewrite <- HU, HwU in Hused. subst used. rewrite HwUS in Hcases.
  assert (Hfin3 : fs w3 !! final = None).
  { rewrite Hid in Hobj. by rewrite <- (objPath_lookup _ _ _ _ Hobj). }
  exists reply, w'. split; [exact Hup|].
  split. { rewrite (walk_usage_Some E tmp (fs w3) Dir Hroot3), <- HU. by f_equal. }
  split. { rewrite HU. by eapply gate_usage. }
  destruct Hcases as [(Hgt & -> & Hfs & _)|(Hle & -> & data' & Htmp' & Hfs & _)].
  - split; [split; [discriminate | lia]|]. split; [lia|]. intros _. split; [done|].
    rewrite Hfs. destruct (decide (tmp = final)) as [->|Hne].
    + apply lookup_delete_eq.
    + by rewrite lookup_delete_ne.
  - split; [done|]. split; [|lia]. intros _. exists data'.
    split; [rewrite Hfs; apply lookup_insert_eq | congruence].
Qed.

Lemma upload_quota_boundary_witness :
  exists reply w',
    upload small_env ["1"] (raw_request five) hello_world = (reply, w') /\
    walk_usage small_env up1 (fs five_w3) = Some 12 /\
    12 = stored_bytes small_env (fs hello_world) /\
    (reply = upload_reply five_id 5 false <-> 12 + 5 <= MaxStorageByte (limits small_env)) /\
    (12 + 5 <= MaxStorageByte (limits small_env) ->
       exists data, fs w' !! five_path = Some (File data) /\ len data = 5) /\
    (12 + 5 > MaxStorageByte (limits small_env) ->
       reply = quota_reply 12 (MaxStorageByte (limits small_env)) /\
       fs w' !! five_path = None).
Proof.
  apply (upload_quota_boundary small_env ["1"] (raw_request five)
           hello_world five_w1 five_w2 five_w3 up1 five_id 5 five_path 12).
  - reflexivity.
  - reflexivity.
  - reflexivity.
  - reflexivity.
  - reflexivity.
  - vm_compute. discriminate.
Defined.

(** After a successful [os.MkdirAll] on the parent of the target path,
    both shard directories exist. *)
Lemma shard_dirs_made (E : Env) (rnd : list string) (r : Request) (w w1 w2 w3 : World)
      (tmp : path) (id : string) (n : Z) (final : path) :
  tree_like (fs w) ->
  os_CreateTemp (root E) rnd w = (Some tmp, w1) ->
  stage E tmp r w1 = (inr (id, n, final), w2) ->
  os_MkdirAll (filepath_Dir final) w2 = (true, w3) ->
  fs w3 !! (root E ++ [slice id 0 2]) = Some Dir /\
  fs w3 !! ((root E ++ [slice id 0 2]) ++ [slice id 2 4]) = Some Dir.
Proof.
  intros Htree Hct Hst Hmk.
  destruct (gate_state _ _ _ _ _ _ _ _ _ _ _ Hct Hst Hmk)
    as (data & _ & _ & _ & Hobj & Hfresh & _ & _ & Hdir3 & _).
  pose proof (CreateTemp_Some _ _ _ _ _ Hct) as (_ & _ & [x Hx] & Hw1).
  apply stage_staged in Hst as (src & _ & _ & _ & _ & _ & _ & Hfs2).
  rewrite Hw1 in Hfs2. simpl in Hfs2. specialize (Hfs2 (lookup_insert_eq _ _ _)).
  rewrite insert_insert_eq in Hfs2.
  apply os_MkdirAll_true in Hmk as [_ Hmk].
  rewrite (objPath_Dir _ _ _ Hobj) in *.
  split; [|by rewrite <- lookup_node_snoc].
  rewrite <- lookup_node_snoc, <- (rev_involutive (root E ++ [slice id 0 2])).
  rewrite rev_unit in Hmk. eapply MkdirAll_rev_parent; [|exact Hmk].
  rewrite rev_involutive. intros m Hm. rewrite Hfs2 in Hm.
  rewrite lookup_insert_ne in Hm.
  2:{ rewrite Hx. unfold filepath_Join. rewrite <- app_assoc.
      intros Heq%app_inv_head. discriminate Heq. }
  apply map_Forall_lookup_1 with (i := (root E ++ [slice id 0 2]) ++ [slice id 2 4]) (x := m)
    in Htree; [|exact Hm].
  rewrite filepath_Dir_snoc in Htree.
  assert (Hd : lookup_node (fs w) (root E ++ [slice id 0 2]) = Some Dir).
  { destruct (lookup_node (fs w) (root E ++ [slice id 0 2])) as [[?|]|]; done. }
  rewrite lookup_node_snoc in *. rewrite Hfs2, lookup_insert_ne; [done|].
  intros ->. congruence.
Qed.

Lemma MkdirAll_rev_existing (f : FS) (rp : list string) :
  lookup_node f (rev rp) = Some Dir -> MkdirAll_rev f rp = Some f.
Proof. intros H. destruct rp; simpl in *; [done | by rewrite H]. Qed.

Lemma app_length_ne {A : Type} (l m : list A) : m <> [] -> l ++ m <> l.
Proof.
  intros Hm Heq. apply (f_equal length) in Heq. rewrite length_app in Heq.
  destruct m; [done|]. simpl in Heq. lia.
Qed.

Lemma substring_length (s : string) : forall i n, (String.length (substring i n s) <= n)%nat.
Proof.
  induction s as [|c s IH]; intros [|i] [|n]; simpl; try lia.
  - specialize (IH 0%nat n). lia.
  - apply (IH i 0%nat).
  - apply (IH i (S n)).
Qed.

Lemma pickTemp_name (f : FS) (dir : path) (rnd : list string) (p : path) :
  pickTemp f dir rnd = Some p -> exists x, p = dir ++ ["up-" +:+ x].
Proof.
  induction rnd as [|x rnd IH]; simpl; [discriminate|].
  destruct (f !! filepath_Join dir _); [exact IH|]. intros [= <-]. by exists x.
Qed.

Lemma CreateTemp_name (dir : path) (rnd : list string) (w w1 : World) (tmp : path) :
  os_CreateTemp dir rnd w = (Some tmp, w1) -> exists x, tmp = dir ++ ["up-" +:+ x].
Proof.
  unfold os_CreateTemp. run_monad.
  destruct (lookup_node (fs w) dir) as [[?|]|]; try discriminate.
  destruct (pickTemp (fs w) dir rnd) as [p|] eqn:Hp; run_monad; [|discriminate].
  intros [= <- _]. by eapply pickTemp_name.
Qed.

(** A staging file never has the name of a shard directory: its name has
    three characters or more, theirs two at most. *)
Lemma tmp_not_shard (dir : path) (x id : string) (i : nat) :
  dir ++ ["up-" +:+ x] <> dir ++ [slice id i (i + 2)].
Proof.
  intros Heq%app_inv_head. injection Heq as Heq. apply (f_equal String.length) in Heq.
  pose proof (substring_length id i (i + 2 - i)) as Hlen. unfold slice in Heq.
  rewrite <- Heq in Hlen. simpl in Hlen. lia.
Qed.

Lemma os_MkdirAll_false_rev (p : path) (w w1 : World) :
  os_MkdirAll p w = (false, w1) -> MkdirAll_rev (fs w) (rev p) = None.
Proof.
  unfold os_MkdirAll. run_monad.
  by destruct (MkdirAll_rev (fs w) (rev p)).
Qed.

(** [os.MkdirAll] of a directory two levels below an existing one fails
    only on a regular file in the place of one of the two. *)
Lemma MkdirAll_shards_blocked (f : FS) (dir : path) (x y : string) :
  lookup_node f dir = Some Dir ->
  MkdirAll_rev f (rev ((dir ++ [x]) ++ [y])) = None ->
  is_file (f !! (dir ++ [x])) || is_file (f !! ((dir ++ [x]) ++ [y])) = true.
Proof.
  intros Hdir. rewrite !rev_unit. simpl. rewrite !rev_involutive, !lookup_node_snoc.
  destruct (f !! ((dir ++ [x]) ++ [y])) as [[d|]|]; [by rewrite orb_true_r|done|].
  destruct (f !! (dir ++ [x])) as [[d|]|]; [done|done|].
  by rewrite (MkdirAll_rev_existing f (rev dir)) by (by rewrite rev_involutive).
Qed.

(** C10, as the claim states it, fails: with a regular file where the
    first shard directory would go, the staging of an upload completes,
    [os.MkdirAll] fails, the request is answered 500 and no shard
    directory is there when the handler has returned. *)
Lemma shard_blocked_counterexample :
  fst (stage small_env up1 (raw_request five)
         (snd (os_CreateTemp ["home"; "sht2"] ["1"] blocked_world)))
  = inr (five_id, 5, five_path) /\
  fst (upload small_env ["1"] (raw_request five) blocked_world) = http_Error "mkdir" 500 /\
  fs (snd (upload small_env ["1"] (raw_request five) blocked_world))
    !! ["home"; "sht2"; "MT"] = Some (File []) /\
  fs (snd (upload small_env ["1"] (raw_request five) blocked_world))
    !! ["home"; "sht2"; "MT"; "Ex"] = None.
Proof. repeat split; reflexivity. Qed.

(** C10 (amended): the two shard directories above the target path are
    made before the publish decision.  For an upload whose staging
    completes, on a filesystem that is a tree: if a regular file stands
    in the place of one of the two directories, [os.MkdirAll] fails, the
    reply is 500 "mkdir" and the filesystem ends as it began; otherwise
    the upload is published, found to be a duplicate, or refused for lack
    of room, and in all three cases both directories exist after the
    handler has returned, made before the lock was taken; the staging
    file is gone, and on the last two paths the filesystem differs from
    the one before the request by added directories only. *)
Theorem upload_leaves_shard_dirs (E : Env) (rnd : list string) (r : Request)
        (w w1 w2 : World) (tmp : path) (id : string) (n : Z) (final : path) :
  tree_like (fs w) ->
  os_CreateTemp (root E) rnd w = (Some tmp, w1) ->
  stage E tmp r w1 = (inr (id, n, final), w2) ->
  let a := root E ++ [slice id 0 2] in
  let b := a ++ [slice id 2 4] in
  exists reply w',
    upload E rnd r w = (reply, w') /\
    if is_file (fs w !! a) || is_file (fs w !! b)
    then reply = http_Error "mkdir" 500 /\ fs w' = fs w
    else
      ((exists dd, reply = upload_reply id n dd) \/
       (exists used, reply = quota_reply used (MaxStorageByte (limits E)))) /\
      fs w' !! a = Some Dir /\
      fs w' !! b = Some Dir /\
      fs w' !! tmp = None /\
      (exists evs post,
         trace w' = trace w ++ evs ++ [EvMkdirAll (filepath_Dir final); EvLock] ++ post /\
         existsb is_gate_event evs = false) /\
      (reply <> upload_reply id n false ->
       forall q, fs w' !! q = fs w !! q \/ (fs w !! q = None /\ fs w' !! q = Some Dir)).
Proof.
  intros Htree Hct Hst a b.
  destruct (upload_outcomes E rnd r w) as (reply & w' & Hup & Hcases).
  exists reply, w'. split; [exact Hup|].
  destruct Hcases as [[Hct' _]|(tmp' & w1' & Hct' & Hcases)]; [congruence|].
  rewrite Hct in Hct'. injection Hct' as <- <-.
  destruct Hcases as [(w2' & Hst' & _)|(id' & n' & final' & w2' & Hst' & Hcases)];
    [congruence|].
  rewrite Hst in Hst'. injection Hst' as <- <- <- <-.
  destruct Hcases as [(w3 & Hmk & -> & Hfs & _)|(w3 & Hmk & Hcases)].
  { (* a file is in the way *)
    pose proof (CreateTemp_Some _ _ _ _ _ Hct) as (Hroot & Hfresh & _ & Hw1).
    destruct (CreateTemp_name _ _ _ _ _ Hct) as [x Hx].
    apply stage_staged in Hst as (src & _ & _ & _ & _ & Hobj & _ & Hfs2).
    rewrite Hw1 in Hfs2. simpl in Hfs2. specialize (Hfs2 (lookup_insert_eq _ _ _)).
    rewrite insert_insert_eq in Hfs2.
    apply os_MkdirAll_false_rev in Hmk. rewrite (objPath_Dir _ _ _ Hobj), Hfs2 in Hmk.
    assert (Hne : tmp <> root E) by (rewrite Hx; by apply app_length_ne).
    assert (Hna : tmp <> a) by (rewrite Hx; apply (tmp_not_shard (root E) x id 0)).
    assert (Hnb : tmp <> b).
    { rewrite Hx. unfold b, a. rewrite <- app_assoc. by intros Heq%app_inv_head. }
    assert (Hroot2 : lookup_node (<[tmp := File (rd_bytes src)]> (fs w)) (root E) = Some Dir).
    { rewrite <- Hroot. unfold lookup_node. destruct (root E); [done|].
      by rewrite lookup_insert_ne. }
    apply (MkdirAll_shards_blocked _ _ _ _ Hroot2) in Hmk.
    rewrite !lookup_insert_ne in Hmk by done. fold a b in Hmk. by rewrite Hmk. }
  destruct (shard_dirs_made _ _ _ _ _ _ _ _ _ _ _ Htree Hct Hst Hmk) as [Ha Hb].
  fold a in Ha. fold a b in Hb.
  destruct (gate_state _ _ _ _ _ _ _ _ _ _ _ Hct Hst Hmk)
    as (data & _ & Hid & _ & Hobj & Hfresh & Htmp3 & _ & _ & Hfiles & Hframe & Htr3).
  assert (Hna : tmp <> a) by (intros ->; congruence).
  assert (Hnb : tmp <> b) by (intros ->; congruence).
  assert (Hfree : is_file (fs w !! a) || is_file (fs w !! b) = false).
  { destruct (Hframe a) as [Hqa|[Hqa _]]; [done| |];
      destruct (Hframe b) as [Hqb|[Hqb _]]; try done;
      rewrite <- ?Hqa, <- ?Hqb, ?Ha, ?Hb, ?Hqa, ?Hqb; done. }
  rewrite Hfree.
  assert (Hsplit : forall evs, trace w' = trace w3 ++ EvLock :: evs ->
            exists pre post,
              trace w' = trace w ++ pre ++ [EvMkdirAll (filepath_Dir final); EvLock] ++ post /\
              existsb is_gate_event pre = false).
  { intros evs Htr.
    exists ([EvCreateTemp (root E)] ++ copy_events tmp data ++ [EvClose tmp; EvHashSum]), evs.
    split; [|by destruct data].
    rewrite Htr, Htr3, <- ?app_assoc. simpl. by rewrite <- ?app_assoc. }
  assert (Hall : forall q,
            delete tmp (fs w3) !! q = fs w !! q
            \/ (fs w !! q = None /\ delete tmp (fs w3) !! q = Some Dir)).
  { intros q. destruct (decide (q = tmp)) as [->|Hq].
    - left. by rewrite lookup_delete_eq.
    - rewrite lookup_delete_ne by done. by apply Hframe. }
  destruct Hcases as [(n0 & _ & -> & Hfs & Htr)|(Hstat & used & Hused & Hcases)].
  { rewrite Hfs, !lookup_delete_ne, lookup_delete_eq by done.
    split; [left; by exists true|]. repeat split; try done. by apply (Hsplit _ Htr). }
  rewrite Hid in Hobj. rewrite (objPath_lookup _ _ _ _ Hobj) in Hstat. rewrite <- Hid in Hobj.
  destruct Hcases as [(_ & -> & Hfs & Htr)|(_ & -> & data' & _ & Hfs & Htr)].
  { rewrite Hfs, !lookup_delete_ne, lookup_delete_eq by done.
    split; [right; by exists used|]. repeat split; try done. by apply (Hsplit _ Htr). }
  assert (Hfa : final <> a) by (intros ->; congruence).
  assert (Hfb : final <> b) by (intros ->; congruence).
  assert (Hft : final <> tmp) by (intros ->; congruence).
  rewrite Hfs, !lookup_insert_ne, !lookup_delete_ne, lookup_delete_eq by done.
  split; [left; by exists false|]. repeat split; try done. by apply (Hsplit _ Htr).
Qed.

Lemma upload_leaves_shard_dirs_witness :
  exists reply w',
    upload small_env ["1"] (raw_request five) hello_world = (reply, w') /\
    ((exists dd, reply = upload_reply five_id 5 dd) \/
     (exists used, reply = quota_reply used 16)) /\
    fs w' !! ["home"; "sht2"; "MT"] = Some Dir /\
    fs w' !! ["home"; "sht2"; "MT"; "Ex"] = Some Dir /\
    fs w' !! up1 = None /\
    (exists evs post,
       trace w' = trace hello_world ++ evs
                    ++ [EvMkdirAll (filepath_Dir five_path); EvLock] ++ post /\
       existsb is_gate_event evs = false) /\
    (reply <> upload_reply five_id 5 false ->
     forall q, fs w' !! q = fs hello_world !! q
               \/ (fs hello_world !! q = None /\ fs w' !! q = Some Dir)).
Proof.
  apply (upload_leaves_shard_dirs small_env ["1"] (raw_request five)
           hello_world five_w1 five_w2 up1 five_id 5 five_path).
  - unfold tree_like. apply (bool_decide_unpack _). vm_compute. exact I.
  - reflexivity.
  - reflexivity.
Defined.

(* ===================================================================== *)
(** ** Oversize uploads *)
(* ===================================================================== *)

(** A body longer than the ceiling, sent without a [Content-Type], is the
    copy source and ends in [*http.MaxBytesError]. *)
Lemma raw_body_over_ceiling (E : Env) (r : Request) :
  Content_Type r = EmptyString ->
  Z.max 0 (MaxUploadByte (limits E)) < len (rd_bytes (Body r)) ->
  exists src, selectSource E r = inr src /\ rd_err src = Some MaxBytesError.
Proof.
  intros Hct Hlen. unfold selectSource, MaxBytesReader. rewrite Hct. simpl.
  unfold len in Hlen.
  destruct (Z.ltb_spec (Z.max 0 (MaxUploadByte (limits E)))
              (Z.of_nat (length (rd_bytes (Body r))))); [|lia].
  eexists. split; reflexivity.
Qed.

(** C8 fails on the code at this input.  The 83-byte body of a multipart
    upload exceeds a ceiling of 8 bytes.  [mr.NextPart()] meets the limit
    before a part is complete, and lines 175-181 answer 400 "invalid
    multipart body" without testing the error for [*http.MaxBytesError].
    The same bytes sent without a [Content-Type] reach the copy of lines
    201-206, which does test for it and answers 413.  On both paths the
    gate is not entered and no staging file remains. *)
Theorem oversize_multipart_answered_400 :
  MaxUploadByte (limits small_env) < len (rd_bytes (Body multipart_request)) /\
  fst (upload small_env ["1"] multipart_request demo_world)
  = http_Error "invalid multipart body" StatusBadRequest /\
  (forall h b, fst (upload small_env ["1"] multipart_request demo_world)
               <> Reply StatusRequestEntityTooLarge h b) /\
  fs (snd (upload small_env ["1"] multipart_request demo_world)) = fs demo_world /\
  trace (snd (upload small_env ["1"] multipart_request demo_world))
  = [EvCreateTemp ["home"; "sht2"]; EvRemove up1] /\
  fst (upload small_env ["1"] (raw_request multipart_body) demo_world)
  = http_Error "upload exceeds MAX_UPLOAD_GB" StatusRequestEntityTooLarge.
Proof.
  split; [reflexivity|]. split; [reflexivity|]. split.
  { intros h b. vm_compute. discriminate. }
  repeat split; reflexivity.
Qed.

(** The copy path, lines 201-206: when the staging file was created and
    the stream the payload is copied from runs past [MaxUploadByte]
    during the copy, the request is answered HTTP 413; the hash is not
    finalized, the publish gate is not entered, and when the handler
    returns the staging file is gone.  By [raw_body_over_ceiling] this is
    the case of every body longer than the ceiling that is sent without
    a [Content-Type]. *)
Lemma upload_too_large (E : Env) (rnd : list string) (r : Request) (w w1 : World)
        (tmp : path) (src : Reader) :
  os_CreateTemp (root E) rnd w = (Some tmp, w1) ->
  selectSource E r = inr src ->
  rd_err src = Some MaxBytesError ->
  exists w',
    upload E rnd r w
    = (http_Error "upload exceeds MAX_UPLOAD_GB" StatusRequestEntityTooLarge, w') /\
    trace w' = trace w ++ [EvCreateTemp (root E)] ++ copy_events tmp (rd_bytes src)
                 ++ [EvRemove tmp] /\
    fs w' = fs w /\ fs w' !! tmp = None.
Proof.
  intros Hct Hsel Herr.
  pose proof (CreateTemp_Some _ _ _ _ _ Hct) as (_ & Hfresh & _ & Hw1).
  destruct (stage_too_large E tmp r w1 src Hsel Herr) as (w2 & Hst & Htr & Hfs).
  rewrite Hw1 in Hfs, Htr. simpl in Hfs, Htr. specialize (Hfs (lookup_insert_eq _ _ _)).
  rewrite insert_insert_eq in Hfs.
  eexists. split.
  { eapply upload_with_temp; [exact Hct|]. apply upload_staged_reply. exact Hst. }
  rewrite (os_Remove_file tmp (rd_bytes src)) by (rewrite Hfs; apply lookup_insert_eq).
  simpl. rewrite Htr, Hfs, <- ?app_assoc, delete_insert_id by done. done.
Qed.

Lemma upload_too_large_witness :
  exists w',
    upload small_env ["1"] (raw_request hello) demo_world
    = (http_Error "upload exceeds MAX_UPLOAD_GB" StatusRequestEntityTooLarge, w') /\
    trace w' = trace demo_world ++ [EvCreateTemp (root small_env)]
                 ++ copy_events up1 (take 8 hello) ++ [EvRemove up1] /\
    fs w' = fs demo_world /\ fs w' !! up1 = None.
Proof.
  apply (upload_too_large small_env ["1"] (raw_request hello) demo_world
           (snd (os_CreateTemp (root small_env) ["1"] demo_world)) up1
           {| rd_bytes := take 8 hello; rd_err := Some MaxBytesError |}).
  - reflexivity.
  - reflexivity.
  - reflexivity.
Defined.

(* ===================================================================== *)
(** ** Malformed Content-Type *)
(* ===================================================================== *)




(* ===================================================================== *)
(** ** Round trip *)
(* ===================================================================== *)

(** C2: when the upload of a payload [data] is answered with identifier
    [id] and [deduped: false] (the object was published), a GET of [/id]
    right after it returns exactly [data], with the header [ETag] set to
    [id] in double quotes. *)
Theorem upload_then_get (E : Env) (rnd rnd' : list string) (r : Request) (w w' : World)
        (id : string) (n : Z) :
  upload E rnd r w = (upload_reply id n false, w') ->
  exists data final,
    selectSource E r = inr {| rd_bytes := data; rd_err := None |} /\
    n = len data /\ objPath E id = Some final /\
    serveByID E (GET id) w'
    = (Reply status_ok [("ETag", quote +:+ id +:+ quote)] (BodyBytes data),
       {| fs := fs w'; trace := trace w' ++ [EvOpen final] |}) /\
    ServeHTTP E rnd' (GET id) w' = serveByID E (GET id) w'.
Proof.
  intros Hup. apply upload_ok_inv in Hup
    as (data & deduped & tmp & final & Hsel & Hreply & Hobj & _ & Hpub & _).
  injection Hreply as <- -> ->. destruct (Hpub eq_refl) as (Hfile & _).
  pose proof (object_id_valid E data) as Hv.
  pose proof (object_id_length E data) as Hl.
  exists data, final. repeat split; try done.
  - unfold serveByID.
    change (TrimPrefix_slash (URL_Path (GET (object_id E data)))) with (object_id E data).
    rewrite Hv.
    assert (Hs : contains_slash (object_id E data) = false).
    { apply id_chars_no_slash. unfold idRe_MatchString in Hv.
      by apply andb_true_iff in Hv as [_ ?]. }
    rewrite Hs. destruct (String.eqb_spec (object_id E data) EmptyString) as [He|_].
    { rewrite He in Hl. discriminate Hl. }
    simpl. rewrite Hobj. unfold os_Open. run_monad.
    rewrite (objPath_lookup _ _ _ _ Hobj), Hfile. reflexivity.
  - unfold ServeHTTP. simpl.
    destruct (object_id E data) eqn:He; [discriminate Hl|]. reflexivity.
Qed.

Lemma upload_then_get_witness :
  exists data final,
    selectSource demo_env (raw_request hello) = inr {| rd_bytes := data; rd_err := None |} /\
    12 = len data /\ objPath demo_env hello_id = Some final /\
    serveByID demo_env (GET hello_id) hello_world
    = (Reply status_ok [("ETag", quote +:+ hello_id +:+ quote)] (BodyBytes data),
       {| fs := fs hello_world; trace := trace hello_world ++ [EvOpen final] |}) /\
    ServeHTTP demo_env [] (GET hello_id) hello_world
    = serveByID demo_env (GET hello_id) hello_world.
Proof.
  apply (upload_then_get demo_env ["1"] [] (raw_request hello) demo_world hello_world
           hello_id 12).
  reflexivity.
Defined.

(* ===================================================================== *)
(** ** The storage ceiling *)
(* ===================================================================== *)

(** A published object is among the files the usage walk counts. *)
Lemma object_path_counted (E : Env) (tmp : path) (x : string) (p : path) :
  tmp = root E ++ [x] -> is_object_path E p = true -> counted E tmp p = true.
Proof.
  intros Htmp. unfold is_object_path, counted. rewrite andb_true_iff.
  intros [Hid Hobj]. apply bool_decide_eq_true_1 in Hobj.
  pose proof (objPath_shape _ _ _ Hobj) as Hp. unfold filepath_Join in Hp.
  rewrite !andb_true_iff, !negb_true_iff. repeat split.
  - unfold is_prefix. apply bool_decide_eq_true_2. rewrite Hp. by eexists.
  - apply bool_decide_eq_false_2. rewrite Hp, Htmp.
    intros Heq%app_inv_head. discriminate Heq.
  - destruct (String.eqb_spec (filepath_Base p) cfgPath) as [He|_]; [|done].
    apply valid_id_length in Hid. rewrite He in Hid. discriminate Hid.
Qed.

Lemma counted_stored (E : Env) (tmp : path) (p : path) :
  counted E tmp p = true -> stored E p = true.
Proof.
  unfold counted, stored. rewrite !andb_true_iff. intros [[? _] ?]. done.
Qed.

(** What an upload does to the regular files of the store: nothing, or it
    adds the payload at its object path, after the quota check passed. *)
Lemma upload_files (E : Env) (rnd : list string) (r : Request) (w w' : World)
      (reply : Response) :
  upload E rnd r w = (reply, w') ->
  regular_files (fs w') = regular_files (fs w) \/
  exists data tmp final x,
    selectSource E r = inr {| rd_bytes := data; rd_err := None |} /\
    reply = upload_reply (object_id E data) (len data) false /\
    objPath E (object_id E data) = Some final /\
    regular_files (fs w') = <[final := data]> (regular_files (fs w)) /\
    regular_files (fs w) !! final = None /\
    tmp = root E ++ [x] /\
    wrap64 (wrap64 (sum_sizes (counted E tmp) (fs w)) + len data) <= MaxStorageByte (limits E).
Proof.
  intros Hup.
  destruct (upload_outcomes E rnd r w) as (reply0 & w0 & Heq & Hcases).
  rewrite Hup in Heq. injection Heq as <- <-.
  destruct Hcases as [[Hct _]|(tmp & w1 & Hct & Hcases)].
  { apply CreateTemp_None in Hct. subst w'. by left. }
  destruct Hcases as [(w2 & _ & -> & _)|(id & n & final & w2 & Hst & Hcases)]; [by left|].
  destruct Hcases as [(w3 & _ & _ & -> & _)|(w3 & Hmk & Hcases)]; [by left|].
  destruct (gate_state _ _ _ _ _ _ _ _ _ _ _ Hct Hst Hmk)
    as (data & _ & _ & _ & _ & Hfresh & _ & _ & _ & Hfiles & _).
  assert (Hdel : regular_files (delete tmp (fs w3)) = regular_files (fs w)).
  { rewrite regular_files_delete, Hfiles. apply delete_insert_id.
    by rewrite regular_files_lookup, Hfresh. }
  destruct Hcases as [(n0 & _ & _ & -> & _)|(_ & used & _ & Hcases)];
    [left; exact Hdel|].
  destruct Hcases as [(_ & _ & -> & _)|(_ & -> & _)]; [left; exact Hdel|].
  right. apply upload_ok_inv in Hup
    as (data' & deduped & tmp' & final' & Hsel & Hreply & Hobj & _ & Hpub & _).
  injection Hreply as <- Hid Hn. destruct (Hpub eq_refl) as (_ & Hf & Hnone & Hle & x & Hx).
  exists data', tmp', final', x. rewrite Hid, Hn. repeat split; done.
Qed.

(** C4: the total size of the published objects never exceeds
    [MaxStorageByte].  From any state within the bound, an upload,
    whichever way its publish decision goes, leaves the store within the
    bound: the rename happens only when the measured usage plus the
    incoming size is at most the ceiling, and the measured usage counts
    every published object.  (The sizes under the root and the payload are
    taken to sum to an [int64].) *)
Theorem upload_preserves_ceiling (E : Env) (rnd : list string) (r : Request) (w : World) :
  published_bytes E (fs w) <= MaxStorageByte (limits E) ->
  (forall src, selectSource E r = inr src ->
               stored_bytes E (fs w) + len (rd_bytes src) <= max_int64) ->
  published_bytes E (fs (snd (upload E rnd r w))) <= MaxStorageByte (limits E).
Proof.
  intros Hinv Hfit.
  destruct (upload E rnd r w) as [reply w'] eqn:Hup. simpl.
  destruct (upload_files _ _ _ _ _ _ Hup)
    as [Hsame|(data & tmp & final & x & Hsel & _ & Hobj & Hf & Hnone & Htmp & Hle)].
  { unfold published_bytes, sum_sizes in *. by rewrite Hsame. }
  specialize (Hfit _ Hsel). simpl in Hfit.
  unfold published_bytes, stored_bytes, sum_sizes in *. rewrite Hf.
  rewrite sum_map_insert by done.
  set (F0 := regular_files (fs w)) in *.
  pose proof (sum_map_nonneg (counted E tmp) F0) as HU0.
  pose proof (sum_map_mono (counted E tmp) (stored E) F0 (counted_stored E tmp)) as HU1.
  pose proof (sum_map_mono (is_object_path E) (counted E tmp) F0
                (fun p => object_path_counted E tmp x p Htmp)) as HP.
  assert (Hlen : 0 <= len data) by (unfold len; lia).
  rewrite (wrap64_small (sum_map (counted E tmp) F0)) in Hle by (pow64; lia).
  rewrite wrap64_small in Hle by (pow64; lia).
  destruct (is_object_path E final); lia.
Qed.

Lemma upload_preserves_ceiling_witness :
  published_bytes demo_env (fs hello_world) <= MaxStorageByte (limits demo_env) /\
  published_bytes demo_env (fs (snd (upload demo_env ["1"] (raw_request five) hello_world)))
  <= MaxStorageByte (limits demo_env).
Proof.
  assert (H : published_bytes demo_env (fs hello_world) <= MaxStorageByte (limits demo_env)).
  { vm_compute. discriminate. }
  split; [exact H|].
  apply (upload_preserves_ceiling demo_env ["1"] (raw_request five) hello_world H).
  intros src Hsrc. injection Hsrc as <-. vm_compute. discriminate.
Defined.

(* ===================================================================== *)
(** ** What an upload does to the filesystem *)
(* ===================================================================== *)

Lemma stage_trace (E : Env) (tmp : path) (r : Request) (w w2 : World)
      (s : Response + (string * Z * path)) :
  stage E tmp r w = (s, w2) ->
  exists evs, trace w2 = trace w ++ evs /\ existsb is_gate_event evs = false.
Proof.
  unfold stage. destruct (selectSource E r) as [reply|src].
  { intros [= <- <-]. exists []. by rewrite app_nil_r. }
  destruct (io_Copy_run tmp src w) as (w' & Hc & Ht & _).
  unfold mbind, M_bind at 1. rewrite Hc. simpl.
  assert (Hce : existsb is_gate_event (copy_events tmp (rd_bytes src)) = false)
    by (by destruct (rd_bytes src)).
  destruct (rd_err src) as [[|]|]; try (intros [= <- <-]; eauto).
  unfold file_Close. run_monad.
  destruct (objPath E (object_id E (rd_bytes src))); intros [= <- <-]; simpl;
    exists (copy_events tmp (rd_bytes src) ++ [EvClose tmp; EvHashSum]);
    rewrite Ht, <- !app_assoc, existsb_app, Hce; done.
Qed.

Lemma upload_changes (E : Env) (rnd : list string) (r : Request) (w : World) (p : path) :
  let reply := fst (upload E rnd r w) in
  let w' := snd (upload E rnd r w) in
  fs w' !! p = fs w !! p \/
  (fs w !! p = None /\
   (fs w' !! p = Some Dir \/
    exists data,
      selectSource E r = inr {| rd_bytes := data; rd_err := None |} /\
      reply = upload_reply (object_id E data) (len data) false /\
      objPath E (object_id E data) = Some p /\
      fs w' !! p = Some (File data))).
Proof.
  destruct (upload_outcomes E rnd r w) as (reply & w' & Hup & Hcases).
  rewrite Hup. simpl.
  destruct Hcases as [[Hct _]|(tmp & w1 & Hct & Hcases)].
  { apply CreateTemp_None in Hct. subst w'. by left. }
  destruct Hcases as [(w2 & _ & -> & _)|(id & n & final & w2 & Hst & Hcases)]; [by left|].
  destruct Hcases as [(w3 & _ & _ & -> & _)|(w3 & Hmk & Hcases)]; [by left|].
  destruct (gate_state _ _ _ _ _ _ _ _ _ _ _ Hct Hst Hmk)
    as (data & Hsel & Hid & Hn & Hobj & Hfresh & Htmp3 & _ & _ & _ & Hframe & _).
  assert (Hdel : delete tmp (fs w3) !! p = fs w !! p
                 \/ (fs w !! p = None /\ delete tmp (fs w3) !! p = Some Dir)).
  { destruct (decide (p = tmp)) as [->|Hp].
    - left. by rewrite lookup_delete_eq.
    - rewrite lookup_delete_ne by done. by apply Hframe. }
  destruct Hcases as [(n0 & _ & _ & -> & _)|(Hstat & used & _ & Hcases)].
  { destruct Hdel as [?|[? ?]]; auto. }
  destruct Hcases as [(_ & _ & -> & _)|(_ & -> & data' & Htmp' & -> & _)].
  { destruct Hdel as [?|[? ?]]; auto. }
  assert (data' = data) as -> by congruence.
  rewrite Hid in Hobj. rewrite (objPath_lookup _ _ _ _ Hobj) in Hstat.
  destruct (decide (p = final)) as [->|Hp].
  - right. assert (Hne : final <> tmp) by congruence.
    destruct (Hframe final Hne) as [Heq|[Hnone _]].
    + split; [by rewrite <- Heq|]. right. exists data. rewrite lookup_insert_eq.
      subst id n. done.
    + split; [done|]. right. exists data. rewrite lookup_insert_eq. subst id n. done.
  - rewrite lookup_insert_ne by done. destruct Hdel as [?|[? ?]]; auto.
Qed.

(** X1: an upload changes the filesystem only by adding entries.  Every
    path either holds what it held before the request, or was free and now
    holds a directory, or was free and now holds the payload at the object
    path of the identifier the reply reports as published.  So no entry is
    modified or removed, and no staging file is left, whatever the way the
    request ends. *)
Theorem upload_frame (E : Env) (rnd : list string) (r : Request) (w : World) (p : path) :
  let reply := fst (upload E rnd r w) in
  let w' := snd (upload E rnd r w) in
  fs w' !! p = fs w !! p \/
  (fs w !! p = None /\
   (fs w' !! p = Some Dir \/
    exists data,
      selectSource E r = inr {| rd_bytes := data; rd_err := None |} /\
      reply = upload_reply (object_id E data) (len data) false /\
      objPath E (object_id E data) = Some p /\
      fs w' !! p = Some (File data))).
Proof. apply upload_changes. Qed.

(** X2: the lock discipline of [upload].  Either the handler makes no call
    of the publish gate at all, or its calls are: calls outside the gate,
    one [Lock], then only the duplicate check, the usage walk and the
    rename, then the [Unlock], then the removal of the staging file.  The
    lock is released on every path that takes it, and nothing is renamed
    or measured without it. *)
Theorem upload_lock_discipline (E : Env) (rnd : list string) (r : Request) (w : World) :
  exists evs,
    trace (snd (upload E rnd r w)) = trace w ++ evs /\
    (existsb is_gate_event evs = false \/
     exists pre mid tmp,
       evs = pre ++ [EvLock] ++ mid ++ [EvUnlock; EvRemove tmp] /\
       existsb is_gate_event pre = false /\
       forallb is_locked_call mid = true).
Proof.
  destruct (upload_outcomes E rnd r w) as (reply & w' & Hup & Hcases).
  rewrite Hup. simpl.
  destruct Hcases as [[Hct _]|(tmp & w1 & Hct & Hcases)].
  { apply CreateTemp_None in Hct. subst w'. simpl. eexists. split; [done|]. by left. }
  pose proof (CreateTemp_Some _ _ _ _ _ Hct) as (_ & _ & _ & Hw1).
  destruct Hcases as [(w2 & Hst & _ & Htr)|(id & n & final & w2 & Hst & Hcases)].
  { destruct (stage_trace _ _ _ _ _ _ Hst) as (evs & Htr2 & Hev).
    exists ([EvCreateTemp (root E)] ++ evs ++ [EvRemove tmp]). split.
    - rewrite Htr, Htr2, Hw1. simpl. by rewrite <- ?app_assoc.
    - left. simpl. rewrite existsb_app, Hev. done. }
  destruct (stage_trace _ _ _ _ _ _ Hst) as (evs & Htr2 & Hev).
  destruct Hcases as [(w3 & Hmk & _ & _ & Htr)|(w3 & Hmk & Hcases)].
  { apply os_MkdirAll_false in Hmk. subst w3. simpl in Htr.
    exists ([EvCreateTemp (root E)] ++ evs ++ [EvMkdirAll (filepath_Dir final); EvRemove tmp]).
    split.
    - rewrite Htr, Htr2, Hw1. simpl. rewrite <- ?app_assoc. simpl. by rewrite <- ?app_assoc.
    - left. simpl. rewrite existsb_app, Hev. done. }
  apply os_MkdirAll_true in Hmk as [Htr3 _].
  assert (Hpre : trace w3 = trace w
                   ++ ([EvCreateTemp (root E)] ++ evs ++ [EvMkdirAll (filepath_Dir final)])).
  { rewrite Htr3, Htr2, Hw1. simpl. rewrite <- ?app_assoc. simpl. by rewrite <- ?app_assoc. }
  assert (Hpg : existsb is_gate_event
                  ([EvCreateTemp (root E)] ++ evs ++ [EvMkdirAll (filepath_Dir final)]) = false).
  { simpl. rewrite existsb_app, Hev. done. }
  destruct Hcases as [(n0 & _ & _ & _ & Htr)|(_ & used & _ & Hcases)].
  { eexists. split; [rewrite Htr, Hpre, <- app_assoc; reflexivity|].
    right. eexists _, [EvStat final], tmp. split; [reflexivity|]. done. }
  destruct Hcases as [(_ & _ & _ & Htr)|(_ & _ & data & _ & _ & Htr)].
  - eexists. split; [rewrite Htr, Hpre, <- app_assoc; reflexivity|].
    right. eexists _, [EvStat final; EvWalkDir (root E)], tmp. split; [reflexivity|]. done.
  - eexists. split; [rewrite Htr, Hpre, <- app_assoc; reflexivity|].
    right. eexists _, [EvStat final; EvWalkDir (root E); EvRename tmp final], tmp.
    split; [reflexivity|]. done.
Qed.

(* ===================================================================== *)
(** ** Uploading the same payload again *)
(* ===================================================================== *)

Lemma stage_ok (E : Env) (tmp : path) (r : Request) (w : World) (src : Reader) (final : path) :
  selectSource E r = inr src -> rd_err src = None ->
  objPath E (object_id E (rd_bytes src)) = Some final ->
  exists w2,
    stage E tmp r w = (inr (object_id E (rd_bytes src), len (rd_bytes src), final), w2) /\
    (fs w !! tmp = Some (File []) -> fs w2 = <[tmp := File (rd_bytes src)]> (fs w)).
Proof.
  intros Hsel Herr Hobj. unfold stage. rewrite Hsel.
  destruct (io_Copy_run tmp src w) as (w' & Hc & _ & _ & Hf).
  unfold mbind, M_bind at 1. rewrite Hc. simpl. rewrite Herr.
  unfold file_Close. run_monad. rewrite Hobj. eexists. split; [reflexivity|]. exact Hf.
Qed.

Lemma lookup_node_delete_dir (f : FS) (q tmp : path) (d : list byte) :
  f !! tmp = Some (File d) -> lookup_node f q = Some Dir ->
  lookup_node (delete tmp f) q = Some Dir.
Proof.
  intros Ht Hq. destruct q as [|c q]; [done|]. simpl in *.
  rewrite lookup_delete_ne; [done|]. congruence.
Qed.

Lemma lookup_node_insert_dir (f : FS) (q p : path) (n : node) :
  f !! p = None -> lookup_node f q = Some Dir ->
  lookup_node (<[p := n]> f) q = Some Dir.
Proof.
  intros Hp Hq. destruct q as [|c q]; [done|]. simpl in *.
  rewrite lookup_insert_ne; [done|]. congruence.
Qed.

Lemma tmp_not_object (E : Env) (id : string) (final : path) (x : string) :
  objPath E id = Some final -> final <> root E ++ [x].
Proof.
  intros ->%objPath_shape. unfold filepath_Join. intros Heq%app_inv_head. discriminate Heq.
Qed.

(** After an upload answered 200, the target path is taken, and its parent
    and the root are directories. *)
Lemma upload_ok_target (E : Env) (rnd : list string) (r : Request) (w w' : World)
      (h : list (string * string)) (b : payload) :
  upload E rnd r w = (Reply status_ok h b, w') ->
  exists data final dd,
    selectSource E r = inr {| rd_bytes := data; rd_err := None |} /\
    Reply status_ok h b = upload_reply (object_id E data) (len data) dd /\
    objPath E (object_id E data) = Some final /\
    is_Some (fs w' !! final) /\
    lookup_node (fs w') (filepath_Dir final) = Some Dir /\
    lookup_node (fs w') (root E) = Some Dir.
Proof.
  intros Hup.
  destruct (upload_outcomes E rnd r w) as (reply & w0 & Heq & Hcases).
  rewrite Hup in Heq. injection Heq as <- <-.
  destruct Hcases as [[_ ?]|(tmp & w1 & Hct & Hcases)]; [discriminate|].
  destruct Hcases as [(w2 & Hst & _)|(id & n & final & w2 & Hst & Hcases)].
  { by destruct (stage_reply_not_ok _ _ _ _ _ _ Hst h b). }
  destruct Hcases as [(w3 & _ & ? & _)|(w3 & Hmk & Hcases)]; [discriminate|].
  destruct (gate_state _ _ _ _ _ _ _ _ _ _ _ Hct Hst Hmk)
    as (data & Hsel & -> & -> & Hobj & Hfresh & Htmp3 & Hroot3 & Hdir3 & _).
  pose proof (CreateTemp_Some _ _ _ _ _ Hct) as (_ & _ & [x Hx] & _).
  assert (Hne : final <> tmp) by (rewrite Hx; by eapply tmp_not_object).
  exists data, final.
  destruct Hcases as [(n0 & Hstat & Hr & Hfs & _)|(Hstat & used & Hused & Hcases)].
  { exists true. rewrite Hfs. repeat split; try done.
    - rewrite (objPath_lookup _ _ _ _ Hobj) in Hstat.
      rewrite lookup_delete_ne by done. by eexists.
    - by eapply lookup_node_delete_dir.
    - by eapply lookup_node_delete_dir. }
  destruct Hcases as [(_ & ? & _)|(Hle & Hr & data' & Htmp' & Hfs & _)]; [discriminate|].
  exists false. rewrite Hfs. repeat split; try done.
  - rewrite lookup_insert_eq. by eexists.
  - apply lookup_node_insert_dir.
    + rewrite lookup_delete_ne by done.
      by rewrite <- (objPath_lookup _ _ _ _ Hobj).
    + by eapply lookup_node_delete_dir.
  - apply lookup_node_insert_dir.
    + rewrite lookup_delete_ne by done.
      by rewrite <- (objPath_lookup _ _ _ _ Hobj).
    + by eapply lookup_node_delete_dir.
Qed.

(** X3: uploading again what an upload answered 200 just stored is a
    no-op.  If the second request gets its temporary file, it is answered
    200 with the same [id] and [size] and [deduped: true], and the
    filesystem after it is the filesystem before it. *)
Theorem upload_twice (E : Env) (rnd rnd' : list string) (r : Request) (w w' w1 : World)
        (id : string) (n : Z) (dd : bool) (tmp : path) :
  upload E rnd r w = (upload_reply id n dd, w') ->
  os_CreateTemp (root E) rnd' w' = (Some tmp, w1) ->
  exists w'',
    upload E rnd' r w' = (upload_reply id n true, w'') /\
    fs w'' = fs w'.
Proof.
  intros Hup Hct.
  apply upload_ok_target in Hup
    as (data & final & dd' & Hsel & Hreply & Hobj & [n0 Hfin] & Hdir & Hroot).
  injection Hreply as _ -> ->.
  pose proof (CreateTemp_Some _ _ _ _ _ Hct) as (_ & Hfresh & _ & Hw1).
  assert (Htmp1 : fs w1 !! tmp = Some (File [])) by (subst w1; apply lookup_insert_eq).
  destruct (stage_ok E tmp r w1 _ final Hsel eq_refl Hobj) as (w2 & Hst & Hfs2).
  simpl in Hst. specialize (Hfs2 Htmp1).
  assert (Hfs2' : fs w2 = <[tmp := File data]> (fs w')).
  { rewrite Hfs2. subst w1. simpl. apply insert_insert_eq. }
  assert (Hdir2 : lookup_node (fs w2) (filepath_Dir final) = Some Dir).
  { rewrite Hfs2'. by apply lookup_node_insert_dir. }
  assert (Hmk : os_MkdirAll (filepath_Dir final) w2
                = (true, {| fs := fs w2;
                            trace := trace w2 ++ [EvMkdirAll (filepath_Dir final)] |})).
  { unfold os_MkdirAll. run_monad. rewrite MkdirAll_rev_existing; [done|].
    by rewrite rev_involutive. }
  assert (Hfin2 : fs w2 !! final = Some n0).
  { rewrite Hfs2', lookup_insert_ne; [done|]. congruence. }
  eexists. split.
  - eapply upload_with_temp; [exact Hct|].
    eapply upload_staged_gate; [exact Hst | exact Hmk |].
    apply (publish_duplicate _ _ _ _ _ _ n0). simpl.
    by rewrite (objPath_lookup _ _ _ _ Hobj).
  - rewrite (os_Remove_file tmp data) by (simpl; rewrite Hfs2'; apply lookup_insert_eq).
    simpl. rewrite Hfs2'. by apply delete_insert_id.
Qed.

Lemma upload_twice_witness :
  exists w'',
    upload demo_env ["7"] (raw_request hello) hello_world
    = (upload_reply hello_id 12 true, w'') /\
    fs w'' = fs hello_world.
Proof.
  eapply (upload_twice demo_env ["1"] ["7"] (raw_request hello) demo_world hello_world
            _ hello_id 12 false).
  - reflexivity.
  - reflexivity.
Defined.

(* ===================================================================== *)
(** ** Storage accounting *)
(* ===================================================================== *)

Lemma object_path_stored (E : Env) (id : string) (p : path) :
  idRe_MatchString id = true -> objPath E id = Some p ->
  stored E p = true /\ is_object_path E p = true.
Proof.
  intros Hid Hobj. pose proof (objPath_Base _ _ _ Hobj) as Hb.
  pose proof (objPath_shape _ _ _ Hobj) as Hp. unfold filepath_Join in Hp.
  unfold stored, is_object_path. rewrite Hb, Hid.
  rewrite !andb_true_iff, negb_true_iff. repeat split.
  - apply bool_decide_eq_true_2. rewrite Hp. by eexists.
  - destruct (String.eqb_spec id cfgPath) as [He|_]; [|done].
    apply valid_id_length in Hid. rewrite He in Hid. discriminate Hid.
  - by apply bool_decide_eq_true_2.
Qed.

(** X4: an upload answered [deduped: false] grows the store by exactly the
    reported size: both the bytes the usage walk counts and the bytes of
    published objects are those before the request plus [size]. *)
Theorem upload_published_grows (E : Env) (rnd : list string) (r : Request) (w w' : World)
        (id : string) (n : Z) :
  upload E rnd r w = (upload_reply id n false, w') ->
  stored_bytes E (fs w') = stored_bytes E (fs w) + n /\
  published_bytes E (fs w') = published_bytes E (fs w) + n /\
  0 <= n.
Proof.
  intros Hup. apply upload_ok_inv in Hup
    as (data & dd & tmp & final & _ & Hreply & Hobj & _ & Hpub & _).
  injection Hreply as <- -> ->. destruct (Hpub eq_refl) as (_ & Hf & Hnone & _).
  destruct (object_path_stored E _ final (object_id_valid E data) Hobj) as [Hs Ho].
  unfold stored_bytes, published_bytes, sum_sizes. rewrite Hf, !sum_map_insert by done.
  rewrite Hs, Ho. unfold len. lia.
Qed.

Lemma upload_published_grows_witness :
  stored_bytes demo_env (fs hello_world) = stored_bytes demo_env (fs demo_world) + 12 /\
  published_bytes demo_env (fs hello_world) = published_bytes demo_env (fs demo_world) + 12 /\
  0 <= 12.
Proof.
  apply (upload_published_grows demo_env ["1"] (raw_request hello) demo_world hello_world
           hello_id 12).
  reflexivity.
Defined.

(** X5: a request that is not answered as published changes no regular
    file: whether it was refused, failed, or found a duplicate, the files
    of the store and their contents are those before the request. *)
Theorem upload_unpublished_keeps_files (E : Env) (rnd : list string) (r : Request)
        (w w' : World) (reply : Response) :
  upload E rnd r w = (reply, w') ->
  (forall id n, reply <> upload_reply id n false) ->
  regular_files (fs w') = regular_files (fs w) /\
  stored_bytes E (fs w') = stored_bytes E (fs w).
Proof.
  intros Hup Hnot.
  destruct (upload_files _ _ _ _ _ _ Hup) as [Hsame|(data & _ & _ & _ & _ & Hr & _)].
  - split; [exact Hsame|]. unfold stored_bytes, sum_sizes. by rewrite Hsame.
  - by destruct (Hnot _ _ Hr).
Qed.

Lemma upload_unpublished_keeps_files_witness :
  regular_files (fs (snd (upload small_env ["1"] (raw_request five) hello_world)))
  = regular_files (fs hello_world) /\
  stored_bytes small_env (fs (snd (upload small_env ["1"] (raw_request five) hello_world)))
  = stored_bytes small_env (fs hello_world).
Proof.
  apply (upload_unpublished_keeps_files small_env ["1"] (raw_request five) hello_world _
           (quota_reply 12 16)).
  - reflexivity.
  - intros id n. discriminate.
Defined.

(* ===================================================================== *)
(** ** The payload of a request *)
(* ===================================================================== *)

Lemma selectSource_raw (E : Env) (r : Request) :
  is_raw E r ->
  selectSource E r = inr (MaxBytesReader (Body r) (MaxUploadByte (limits E))).
Proof.
  intros [Hct|(mt & Hparse & Hmt)]; unfold selectSource.
  - by rewrite Hct.
  - destruct (String.eqb_spec (Content_Type r) EmptyString); [done|].
    rewrite Hparse. destruct (String.eqb_spec mt "multipart/form-data"); done.
Qed.

(** X6: for a request that is not multipart, the payload is the request
    body, whole.  Whenever such an upload is answered 200, the body was
    read to its end without error, it is not longer than [MaxUploadByte],
    the reply carries the identifier and the length of the body, and when
    the reply says [deduped: false] the object file holds the body. *)
Theorem upload_raw_payload (E : Env) (rnd : list string) (r : Request) (w w' : World)
        (h : list (string * string)) (b : payload) :
  is_raw E r ->
  upload E rnd r w = (Reply status_ok h b, w') ->
  let body := rd_bytes (Body r) in
  rd_err (Body r) = None /\
  len body <= Z.max 0 (MaxUploadByte (limits E)) /\
  exists dd final,
    Reply status_ok h b = upload_reply (object_id E body) (len body) dd /\
    objPath E (object_id E body) = Some final /\
    (dd = false -> fs w' !! final = Some (File body)).
Proof.
  intros Hraw Hup. apply upload_ok_inv in Hup
    as (data & dd & tmp & final & Hsel & Hreply & Hobj & _ & Hpub & _).
  rewrite (selectSource_raw E r Hraw) in Hsel. unfold MaxBytesReader in Hsel.
  destruct (Z.ltb_spec (Z.max 0 (MaxUploadByte (limits E)))
              (Z.of_nat (length (rd_bytes (Body r))))) as [Hlt|Hle]; [discriminate Hsel|].
  injection Hsel as Hbody. destruct (Body r) as [body e]. simpl in *.
  injection Hbody as -> ->. repeat split; try done.
  exists dd, final. repeat split; try done. intros Hdd. by destruct (Hpub Hdd).
Qed.

Lemma upload_raw_payload_witness :
  let body := rd_bytes (Body (raw_request hello)) in
  rd_err (Body (raw_request hello)) = None /\
  len body <= Z.max 0 (MaxUploadByte (limits demo_env)) /\
  exists dd final,
    Reply status_ok json_header
      (BodyJSON [("deduped", JBool false); ("id", JString hello_id); ("size", JInt 12)])
    = upload_reply (object_id demo_env body) (len body) dd /\
    objPath demo_env (object_id demo_env body) = Some final /\
    (dd = false -> fs hello_world !! final = Some (File body)).
Proof.
  apply (upload_raw_payload demo_env ["1"] (raw_request hello) demo_world hello_world).
  - left. reflexivity.
  - reflexivity.
Defined.

(** X7: when the stream the payload is copied from breaks with an error
    other than the size limit (the client went away), the request is
    answered 400 "copy"; the gate is not entered and the filesystem ends
    as it began, the bytes staged until then removed with the staging
    file. *)
Theorem upload_read_error (E : Env) (rnd : list string) (r : Request) (w w1 : World)
        (tmp : path) (src : Reader) :
  os_CreateTemp (root E) rnd w = (Some tmp, w1) ->
  selectSource E r = inr src ->
  rd_err src = Some OtherReadError ->
  exists w',
    upload E rnd r w = (http_Error "copy" 400, w') /\
    trace w' = trace w ++ [EvCreateTemp (root E)] ++ copy_events tmp (rd_bytes src)
                 ++ [EvRemove tmp] /\
    fs w' = fs w.
Proof.
  intros Hct Hsel Herr.
  pose proof (CreateTemp_Some _ _ _ _ _ Hct) as (_ & Hfresh & _ & Hw1).
  assert (Hst : exists w2, stage E tmp r w1 = (inl (http_Error "copy" 400), w2) /\
            trace w2 = trace w1 ++ copy_events tmp (rd_bytes src) /\
            fs w2 = <[tmp := File (rd_bytes src)]> (fs w1)).
  { unfold stage. rewrite Hsel.
    destruct (io_Copy_run tmp src w1) as (w2 & Hc & Ht & _ & Hf).
    exists w2. unfold mbind, M_bind at 1. rewrite Hc. simpl. rewrite Herr.
    repeat split; try done. apply Hf. subst w1. apply lookup_insert_eq. }
  destruct Hst as (w2 & Hst & Htr & Hfs).
  rewrite Hw1 in Hfs, Htr. simpl in Hfs, Htr. rewrite insert_insert_eq in Hfs.
  eexists. split.
  { eapply upload_with_temp; [exact Hct|]. apply upload_staged_reply. exact Hst. }
  rewrite (os_Remove_file tmp (rd_bytes src)) by (rewrite Hfs; apply lookup_insert_eq).
  simpl. rewrite Htr, Hfs, <- ?app_assoc, delete_insert_id by done. done.
Qed.

Lemma upload_read_error_witness :
  exists w',
    upload demo_env ["1"] broken_request hello_world = (http_Error "copy" 400, w') /\
    trace w' = trace hello_world ++ [EvCreateTemp (root demo_env)]
                 ++ copy_events up1 five ++ [EvRemove up1] /\
    fs w' = fs hello_world.
Proof.
  apply (upload_read_error demo_env ["1"] broken_request hello_world
           (snd (os_CreateTemp (root demo_env) ["1"] hello_world)) up1
           {| rd_bytes := five; rd_err := Some OtherReadError |}).
  - reflexivity.
  - reflexivity.
  - reflexivity.
Defined.

(* ===================================================================== *)
(** ** Multipart bodies *)
(* ===================================================================== *)

Lemma findFilePart_first (ps1 ps2 : list Part) (p : Part) :
  forallb (fun q => negb (is_file_part q)) ps1 = true ->
  is_file_part p = true ->
  findFilePart (ps1 ++ p :: ps2) = Some p.
Proof.
  intros H1 Hp. induction ps1 as [|q ps1 IH]; simpl in *.
  - unfold is_file_part in Hp. by rewrite Hp.
  - apply andb_true_iff in H1 as [Hq H1]. unfold is_file_part in Hq.
    apply negb_true_iff in Hq. rewrite Hq. by apply IH.
Qed.

Lemma findFilePart_none (ps : list Part) :
  forallb (fun q => negb (is_file_part q)) ps = true -> findFilePart ps = None.
Proof.
  induction ps as [|q ps IH]; simpl; [done|].
  rewrite andb_true_iff. intros [Hq H]. unfold is_file_part in Hq.
  apply negb_true_iff in Hq. rewrite Hq. by apply IH.
Qed.

(** An upload that [selectSource] answers itself leaves the filesystem as
    it was: the staging file is created and removed, nothing else is
    called. *)
Lemma upload_rejected_early (E : Env) (rnd : list string) (r : Request) (w w1 : World)
      (tmp : path) (reply : Response) :
  os_CreateTemp (root E) rnd w = (Some tmp, w1) ->
  selectSource E r = inl reply ->
  exists w',
    upload E rnd r w = (reply, w') /\ fs w' = fs w /\
    trace w' = trace w ++ [EvCreateTemp (root E); EvRemove tmp].
Proof.
  intros Hct Hsel.
  pose proof (CreateTemp_Some _ _ _ _ _ Hct) as (_ & Hfresh & _ & Hw1).
  eexists. split.
  { eapply upload_with_temp; [exact Hct|]. apply upload_staged_reply. by apply stage_reply. }
  rewrite (os_Remove_file tmp []) by (subst w1; apply lookup_insert_eq).
  subst w1. simpl. split; [by apply delete_insert_id | by rewrite <- app_assoc].
Qed.

(** X8: of a multipart body, the payload is the first part that has a file
    name or is named [file]: the parts before it are passed over, and what
    follows it, further parts or an error of the reader, is never looked
    at.  An upload of such a request that is answered 200 reports the
    identifier and the size of that part. *)
Theorem multipart_selects_first_file_part (E : Env) (r : Request) (mr : PartStream)
        (ps1 ps2 : list Part) (p : Part) :
  Content_Type r <> EmptyString ->
  mime_ParseMediaType E (Content_Type r) = Some "multipart/form-data" ->
  MultipartReader E (Content_Type r) (MaxBytesReader (Body r) (MaxUploadByte (limits E)))
  = Some mr ->
  ps_parts mr = ps1 ++ p :: ps2 ->
  forallb (fun q => negb (is_file_part q)) ps1 = true ->
  is_file_part p = true ->
  selectSource E r = inr (part_body p) /\
  forall rnd w w' h b,
    upload E rnd r w = (Reply status_ok h b, w') ->
    exists dd,
      Reply status_ok h b
      = upload_reply (object_id E (rd_bytes (part_body p))) (len (rd_bytes (part_body p))) dd.
Proof.
  intros Hne Hparse Hmr Hps H1 Hp.
  assert (Hsel : selectSource E r = inr (part_body p)).
  { unfold selectSource. destruct (String.eqb_spec (Content_Type r) EmptyString); [done|].
    rewrite Hparse. simpl. rewrite Hmr, Hps. by rewrite (findFilePart_first _ _ _ H1 Hp). }
  split; [exact Hsel|]. intros rnd w w' h b Hup.
  apply upload_ok_inv in Hup as (data & dd & _ & _ & Hsel' & Hreply & _).
  rewrite Hsel in Hsel'. injection Hsel' as Hpb. exists dd. by rewrite Hpb.
Qed.

Lemma multipart_selects_first_file_part_witness :
  selectSource parts_env two_part_request = inr (part_body file_part) /\
  forall rnd w w' h b,
    upload parts_env rnd two_part_request w = (Reply status_ok h b, w') ->
    exists dd,
      Reply status_ok h b
      = upload_reply (object_id parts_env (rd_bytes (part_body file_part)))
          (len (rd_bytes (part_body file_part))) dd.
Proof.
  apply (multipart_selects_first_file_part parts_env two_part_request
           {| ps_parts := [note_part; file_part]; ps_fail := false |}
           [note_part] [] file_part).
  - discriminate.
  - reflexivity.
  - reflexivity.
  - reflexivity.
  - reflexivity.
  - reflexivity.
Defined.

(** X9: a multipart body none of whose parts has a file name or is named
    [file] is refused with 400: "invalid multipart body" when the reader
    failed after the parts it gave, "multipart missing file part" when it
    reached the end.  No byte is staged, hashed or published: the staging
    file is created and removed, and the filesystem ends as it began. *)
Theorem multipart_without_file_part (E : Env) (rnd : list string) (r : Request)
        (w w1 : World) (tmp : path) (mr : PartStream) :
  Content_Type r <> EmptyString ->
  mime_ParseMediaType E (Content_Type r) = Some "multipart/form-data" ->
  MultipartReader E (Content_Type r) (MaxBytesReader (Body r) (MaxUploadByte (limits E)))
  = Some mr ->
  forallb (fun q => negb (is_file_part q)) (ps_parts mr) = true ->
  os_CreateTemp (root E) rnd w = (Some tmp, w1) ->
  exists w',
    upload E rnd r w
    = (http_Error (if ps_fail mr then "invalid multipart body"
                   else "multipart missing file part") StatusBadRequest, w') /\
    fs w' = fs w /\
    trace w' = trace w ++ [EvCreateTemp (root E); EvRemove tmp].
Proof.
  intros Hne Hparse Hmr Hnone Hct.
  apply (upload_rejected_early E rnd r w w1 tmp _ Hct).
  unfold selectSource. destruct (String.eqb_spec (Content_Type r) EmptyString); [done|].
  rewrite Hparse. simpl. rewrite Hmr, (findFilePart_none _ Hnone).
  by destruct (ps_fail mr).
Qed.

Lemma multipart_without_file_part_witness :
  exists w',
    upload demo_env ["1"] empty_multipart_request hello_world
    = (http_Error "multipart missing file part" StatusBadRequest, w') /\
    fs w' = fs hello_world /\
    trace w' = trace hello_world ++ [EvCreateTemp (root demo_env); EvRemove up1].
Proof.
  apply (multipart_without_file_part demo_env ["1"] empty_multipart_request hello_world
           (snd (os_CreateTemp (root demo_env) ["1"] hello_world)) up1
           {| ps_parts := []; ps_fail := false |}).
  - discriminate.
  - reflexivity.
  - reflexivity.
  - reflexivity.
  - reflexivity.
Defined.

(* ===================================================================== *)
(** ** The usage walk *)
(* ===================================================================== *)

(** X10: [diskUsageBytes] reads and never writes.  It fails exactly when
    the storage root does not exist; otherwise its result is the total
    size, reduced to 64 bits, of the regular files at or below the root
    other than the excluded path and the files named [.sht2], in whatever
    order the walk meets them; when that total fits in an [int64] the
    result is the total itself. *)
Theorem diskUsageBytes_spec (E : Env) (exclude : path) (w : World) :
  let total := sum_sizes (counted E exclude) (fs w) in
  fs (snd (diskUsageBytes E exclude w)) = fs w /\
  trace (snd (diskUsageBytes E exclude w)) = trace w ++ [EvWalkDir (root E)] /\
  (fst (diskUsageBytes E exclude w) = None <-> lookup_node (fs w) (root E) = None) /\
  (lookup_node (fs w) (root E) <> None ->
   fst (diskUsageBytes E exclude w) = Some (wrap64 total) /\
   (total <= max_int64 -> fst (diskUsageBytes E exclude w) = Some total)).
Proof.
  unfold diskUsageBytes. run_monad. repeat split; try done.
  - unfold walk_usage. by destruct (lookup_node (fs w) (root E)).
  - intros H. unfold walk_usage. by rewrite H.
  - destruct (lookup_node (fs w) (root E)) as [n|] eqn:Hr; [|done].
    by rewrite (walk_usage_Some E exclude (fs w) n).
  - intros Hfit. destruct (lookup_node (fs w) (root E)) as [n|] eqn:Hr; [|done].
    rewrite (walk_usage_Some E exclude (fs w) n) by done. f_equal.
    apply wrap64_small. pose proof (sum_map_nonneg (counted E exclude) (regular_files (fs w))).
    unfold sum_sizes in *. pow64. lia.
Qed.

(** X11: what a new file does to the measured usage.  A file of [d] bytes
    created at a free path adds [len d] to the result of the walk when the
    path is at or below the root, is not the excluded path and is not
    named [.sht2]; anywhere else it leaves the result as it was.  A new
    directory never changes it. *)
Theorem walk_usage_new_entry (E : Env) (exclude p : path) (f : FS) (n : node) (u : Z) :
  f !! p = None ->
  walk_usage E exclude f = Some u ->
  walk_usage E exclude (<[p := n]> f)
  = Some (match n with
          | File d => if counted E exclude p then wrap64 (u + len d) else u
          | Dir => u
          end).
Proof.
  intros Hp Hu. unfold walk_usage in *.
  destruct (lookup_node f (root E)) as [m|] eqn:Hm; [|discriminate]. injection Hu as <-.
  assert (Hroot : lookup_node (<[p := n]> f) (root E) <> None).
  { destruct (root E) as [|c l]; [done|]. simpl in *.
    destruct (decide (p = c :: l)) as [->|Hne]; [by rewrite lookup_insert_eq|].
    rewrite lookup_insert_ne by done. congruence. }
  destruct (lookup_node (<[p := n]> f) (root E)) as [m'|]; [|done]. f_equal.
  rewrite map_fold_insert_L; [|by intros; apply usage_step_comm|done].
  unfold usage_step at 1, counted, len. destruct n as [d|]; [|by case_match].
  destruct (is_prefix (root E) p); [|done]. simpl.
  destruct (bool_decide (p = exclude)); simpl; [done|].
  by destruct (String.eqb (filepath_Base p) cfgPath).
Qed.

Lemma walk_usage_new_entry_witness :
  walk_usage demo_env up1 (<[ ["home"; "sht2"; "x"] := File hello ]> demo_fs) = Some 12 /\
  walk_usage demo_env up1 (<[ up1 := File hello ]> demo_fs) = Some 0 /\
  walk_usage demo_env up1 (<[ ["home"; "sht2"; "d"; ".sht2"] := File hello ]> demo_fs) = Some 0 /\
  walk_usage demo_env up1 (<[ ["home"; "other"] := File hello ]> demo_fs) = Some 0.
Proof.
  split; [|split; [|split]].
  - apply (walk_usage_new_entry demo_env up1 ["home"; "sht2"; "x"] demo_fs (File hello) 0);
      reflexivity.
  - apply (walk_usage_new_entry demo_env up1 up1 demo_fs (File hello) 0); reflexivity.
  - apply (walk_usage_new_entry demo_env up1 ["home"; "sht2"; "d"; ".sht2"] demo_fs
             (File hello) 0); reflexivity.
  - apply (walk_usage_new_entry demo_env up1 ["home"; "other"] demo_fs (File hello) 0);
      reflexivity.
Defined.

(* ===================================================================== *)
(** ** Retrieval *)
(* ===================================================================== *)

Lemma serveByID_fs (E : Env) (r : Request) (w : World) :
  fs (snd (serveByID E r w)) = fs w.
Proof.
  unfold serveByID. case_match; [done|]. case_match; [|done].
  unfold os_Open. run_monad. by case_match.
Qed.

(** X12: [serveByID] only reads, and only inside the store.  Whatever the
    request, the filesystem is left as it was, and the handler makes at
    most one call: the opening of one path, which is then the object path
    of a well-formed identifier, three components below the storage root.
    No request path can make it open anything else. *)
Theorem serveByID_reads_objects_only (E : Env) (r : Request) (w : World) :
  fs (snd (serveByID E r w)) = fs w /\
  (trace (snd (serveByID E r w)) = trace w \/
   exists id p,
     idRe_MatchString id = true /\
     p = root E ++ [slice id 0 2; slice id 2 4; id] /\
     is_object_path E p = true /\
     trace (snd (serveByID E r w)) = trace w ++ [EvOpen p]).
Proof.
  unfold serveByID. set (id := TrimPrefix_slash (URL_Path r)).
  destruct (String.eqb id EmptyString || contains_slash id || negb (idRe_MatchString id))%bool
    eqn:Hchk; [by split; [|left]|].
  apply orb_false_elim in Hchk as [_ Hid]. apply negb_false_iff in Hid.
  pose proof (valid_id_objPath E id Hid) as Hobj. rewrite Hobj.
  unfold os_Open. run_monad.
  assert (Hop : is_object_path E (filepath_Join (root E) [slice id 0 2; slice id 2 4; id]) = true)
    by (by eapply object_path_stored).
  destruct (lookup_node (fs w) _); simpl; (split; [done|]); right;
    exists id, (filepath_Join (root E) [slice id 0 2; slice id 2 4; id]); done.
Qed.

Lemma serveByID_file (E : Env) (r : Request) (w : World) (id : string) (p : path)
      (d : list byte) :
  URL_Path r = "/" +:+ id ->
  idRe_MatchString id = true ->
  objPath E id = Some p ->
  fs w !! p = Some (File d) ->
  fst (serveByID E r w)
  = Reply status_ok [("ETag", quote +:+ id +:+ quote)]
      (if String.eqb (Method r) "HEAD" then BodyEmpty else BodyBytes d).
Proof.
  intros Hpath Hid Hobj Hfile. unfold serveByID. rewrite Hpath.
  change (TrimPrefix_slash ("/" +:+ id)) with id. rewrite Hid.
  assert (Hs : contains_slash id = false).
  { apply id_chars_no_slash. unfold idRe_MatchString in Hid.
    by apply andb_true_iff in Hid as [_ ?]. }
  rewrite Hs. destruct (String.eqb_spec id EmptyString) as [He|_].
  { apply valid_id_length in Hid. rewrite He in Hid. discriminate Hid. }
  simpl. rewrite Hobj. unfold os_Open. run_monad.
  by rewrite (objPath_lookup _ _ _ _ Hobj), Hfile.
Qed.

(** X13: a stored object is served with its identifier as validator.  For
    a well-formed [id] with a regular file at [objPath id], the reply to a
    request for [/id] is 200 with [ETag] equal to [id] in double quotes;
    its body is the content of the file, or empty when the method is
    HEAD. *)
Theorem serveByID_stored (E : Env) (r : Request) (w : World) (id : string) (p : path)
        (d : list byte) :
  URL_Path r = "/" +:+ id ->
  idRe_MatchString id = true ->
  objPath E id = Some p ->
  fs w !! p = Some (File d) ->
  fst (serveByID E r w)
  = Reply status_ok [("ETag", quote +:+ id +:+ quote)]
      (if String.eqb (Method r) "HEAD" then BodyEmpty else BodyBytes d).
Proof. apply serveByID_file. Qed.

Lemma serveByID_stored_witness :
  fst (serveByID demo_env (HEAD hello_id) hello_world)
  = Reply status_ok [("ETag", quote +:+ hello_id +:+ quote)] BodyEmpty.
Proof.
  apply (serveByID_stored demo_env (HEAD hello_id) hello_world hello_id
           ["home"; "sht2"; "aG"; "ho"; hello_id] hello); reflexivity.
Defined.

(** X14: an identifier that is well-formed but not stored is answered as a
    malformed one: the reply is the same "404 page not found", so a reply
    does not tell a probe whether its identifier had the right shape. *)
Theorem serveByID_absent (E : Env) (r : Request) (w : World) (id : string) (p : path) :
  URL_Path r = "/" +:+ id ->
  idRe_MatchString id = true ->
  objPath E id = Some p ->
  fs w !! p = None ->
  serveByID E r w = (http_NotFound, {| fs := fs w; trace := trace w ++ [EvOpen p] |}) /\
  forall r', idRe_MatchString (TrimPrefix_slash (URL_Path r')) = false ->
             fst (serveByID E r' w) = fst (serveByID E r w).
Proof.
  intros Hpath Hid Hobj Hnone.
  assert (Hserve : serveByID E r w
            = (http_NotFound, {| fs := fs w; trace := trace w ++ [EvOpen p] |})).
  { unfold serveByID. rewrite Hpath.
    change (TrimPrefix_slash ("/" +:+ id)) with id. rewrite Hid.
    assert (Hs : contains_slash id = false).
    { apply id_chars_no_slash. unfold idRe_MatchString in Hid.
      by apply andb_true_iff in Hid as [_ ?]. }
    rewrite Hs. destruct (String.eqb_spec id EmptyString) as [He|_].
    { apply valid_id_length in Hid. rewrite He in Hid. discriminate Hid. }
    simpl. rewrite Hobj. unfold os_Open. run_monad.
    by rewrite (objPath_lookup _ _ _ _ Hobj), Hnone. }
  split; [exact Hserve|]. intros r' Hbad. rewrite Hserve. simpl.
  unfold serveByID. rewrite Hbad. simpl. by rewrite !orb_true_r.
Qed.

Lemma serveByID_absent_witness :
  serveByID demo_env (GET five_id) hello_world
  = (http_NotFound,
     {| fs := fs hello_world; trace := trace hello_world ++ [EvOpen five_path] |}) /\
  forall r', idRe_MatchString (TrimPrefix_slash (URL_Path r')) = false ->
             fst (serveByID demo_env r' hello_world)
             = fst (serveByID demo_env (GET five_id) hello_world).
Proof.
  apply (serveByID_absent demo_env (GET five_id) hello_world five_id five_path); reflexivity.
Defined.

(* ===================================================================== *)
(** ** The dispatcher and the server over time *)
(* ===================================================================== *)

Lemma upload_keeps (E : Env) (rnd : list string) (r : Request) (w : World)
      (p : path) (n : node) :
  fs w !! p = Some n -> fs (snd (upload E rnd r w)) !! p = Some n.
Proof.
  intros Hp. destruct (upload_changes E rnd r w p) as [Heq|[Hnone _]]; congruence.
Qed.

Lemma ServeHTTP_keeps (E : Env) (rnd : list string) (r : Request) (w : World)
      (p : path) (n : node) :
  fs w !! p = Some n -> fs (snd (ServeHTTP E rnd r w)) !! p = Some n.
Proof.
  intros Hp. unfold ServeHTTP. repeat case_match; try done.
  - by apply upload_keeps.
  - by rewrite serveByID_fs.
Qed.

Lemma serve_all_keeps (E : Env) (reqs : list (list string * Request)) (w : World)
      (p : path) (n : node) :
  fs w !! p = Some n -> fs (snd (serve_all E reqs w)) !! p = Some n.
Proof.
  revert w. induction reqs as [|[rnd r] reqs IH]; intros w Hp; [done|].
  simpl. unfold mbind, M_bind at 1.
  destruct (ServeHTTP E rnd r w) as [reply w1] eqn:H1.
  unfold mbind, M_bind at 1. destruct (serve_all E reqs w1) as [replies w2] eqn:H2.
  simpl. change w2 with (snd (replies, w2)). rewrite <- H2. apply IH.
  change w1 with (snd (reply, w1)). rewrite <- H1. by apply ServeHTTP_keeps.
Qed.

(** X15: of all requests, only a POST or PUT to [/] can change the
    filesystem.  Every other request (a retrieval, a preflight, a method
    or path that is refused) leaves it exactly as it was. *)
Theorem ServeHTTP_writes_only_on_upload (E : Env) (rnd : list string) (r : Request)
        (w : World) :
  ~ (URL_Path r = "/" /\ (Method r = "POST" \/ Method r = "PUT")) ->
  fs (snd (ServeHTTP E rnd r w)) = fs w.
Proof.
  intros Hnot. unfold ServeHTTP.
  destruct (String.eqb (Method r) "OPTIONS"); [done|].
  destruct (String.eqb_spec (URL_Path r) "/") as [Hp|_].
  - destruct (String.eqb_spec (Method r) "POST") as [?|_]; [by destruct Hnot; auto|].
    destruct (String.eqb_spec (Method r) "PUT") as [?|_]; [by destruct Hnot; auto|]. done.
  - destruct (String.eqb (Method r) "GET" || String.eqb (Method r) "HEAD")%bool; [|done].
    apply serveByID_fs.
Qed.

Lemma ServeHTTP_writes_only_on_upload_witness :
  fs (snd (ServeHTTP demo_env ["1"] (DELETE hello_id) hello_world)) = fs hello_world /\
  fs (snd (ServeHTTP demo_env ["1"] (GET hello_id) hello_world)) = fs hello_world.
Proof.
  split.
  - apply (ServeHTTP_writes_only_on_upload demo_env ["1"] (DELETE hello_id) hello_world).
    intros [Hp _]. discriminate Hp.
  - apply (ServeHTTP_writes_only_on_upload demo_env ["1"] (GET hello_id) hello_world).
    intros [Hp _]. discriminate Hp.
Defined.

(** X16: stored objects are immutable.  Once a regular file lies at the
    object path of a well-formed identifier, no sequence of requests,
    uploads of the same or of other content, retrievals or refused
    requests, changes or removes it: after any of them a GET of the
    identifier returns the same bytes with the same [ETag]. *)
Theorem object_survives_requests (E : Env) (reqs : list (list string * Request))
        (w : World) (id : string) (p : path) (d : list byte) :
  idRe_MatchString id = true ->
  objPath E id = Some p ->
  fs w !! p = Some (File d) ->
  let w' := snd (serve_all E reqs w) in
  fs w' !! p = Some (File d) /\
  fst (serveByID E (GET id) w')
  = Reply status_ok [("ETag", quote +:+ id +:+ quote)] (BodyBytes d).
Proof.
  intros Hid Hobj Hfile. simpl.
  pose proof (serve_all_keeps E reqs w p _ Hfile) as Hkept.
  split; [exact Hkept|].
  by rewrite (serveByID_file E (GET id) _ id p d).
Qed.

Lemma object_survives_requests_witness :
  let w' := snd (serve_all demo_env later_requests hello_world) in
  fs w' !! ["home"; "sht2"; "aG"; "ho"; hello_id] = Some (File hello) /\
  fst (serveByID demo_env (GET hello_id) w')
  = Reply status_ok [("ETag", quote +:+ hello_id +:+ quote)] (BodyBytes hello).
Proof.
  apply (object_survives_requests demo_env later_requests hello_world hello_id
           ["home"; "sht2"; "aG"; "ho"; hello_id] hello); reflexivity.
Defined.

(* ===================================================================== *)
(** ** The encoding of identifiers is one-to-one *)
(* ===================================================================== *)

Lemma dec_enc (n : N) : (n < 64)%N -> dec (enc n) = n.
Proof.
  intros H. rewrite <- (N2Nat.id n). assert (Hk : (N.to_nat n < 64)%nat) by lia.
  remember (N.to_nat n) as k eqn:Ek. clear Ek H n.
  do 64 (destruct k as [|k]; [reflexivity|]). lia.
Qed.

Lemma land63 (v : N) : N.land v 63 = (v mod 64)%N.
Proof. change 63%N with (N.ones 6). by rewrite N.land_ones. Qed.

Lemma enc_sextet_inj (v v' : N) :
  enc (N.land v 63) = enc (N.land v' 63) -> (v mod 64 = v' mod 64)%N.
Proof.
  intros H. apply (f_equal dec) in H. rewrite !land63 in H.
  rewrite !dec_enc in H; [done| |]; apply N.mod_upper_bound; lia.
Qed.

Lemma lor_shiftl_add (a b n : N) :
  (b < 2 ^ n)%N -> N.lor (N.shiftl a n) b = (a * 2 ^ n + b)%N.
Proof.
  intros Hb. rewrite N.shiftl_mul_pow2.
  assert (Hland : N.land (a * 2 ^ n) b = 0%N).
  { apply N.bits_inj. intros m. rewrite N.land_spec, N.bits_0.
    destruct (N.lt_ge_cases m n) as [Hm|Hm].
    - by rewrite N.mul_pow2_bits_low.
    - destruct (N.eq_dec b 0%N) as [->|Hb0]; [by rewrite N.bits_0, andb_false_r|].
      rewrite (N.bits_above_log2 b m), andb_false_r; [done|].
      apply N.log2_lt_pow2; [lia|].
      eapply N.lt_le_trans; [exact Hb|]. apply N.pow_le_mono_r; lia. }
  by rewrite <- N.lxor_lor, <- N.add_nocarry_lxor.
Qed.

Lemma b2N_bound (b : byte) : (b2N b < 256)%N.
Proof. unfold b2N. pose proof (Byte.to_N_bounded b). lia. Qed.

Lemma b2N_inj (a b : byte) : b2N a = b2N b -> a = b.
Proof.
  unfold b2N. intros H. pose proof (Byte.of_to_N a) as Ha.
  rewrite H, Byte.of_to_N in Ha. by injection Ha.
Qed.

Lemma val3 (x0 x1 x2 : N) :
  (x1 < 256)%N -> (x2 < 256)%N ->
  N.lor (N.lor (N.shiftl x0 16) (N.shiftl x1 8)) x2 = (x0 * 65536 + x1 * 256 + x2)%N.
Proof.
  intros H1 H2. rewrite (N.shiftl_mul_pow2 x1), lor_shiftl_add.
  2:{ change (2 ^ 16)%N with 65536%N. change (2 ^ 8)%N with 256%N. lia. }
  replace (x0 * 2 ^ 16 + x1 * 2 ^ 8)%N with ((x0 * 256 + x1) * 2 ^ 8)%N
    by (change (2 ^ 16)%N with 65536%N; change (2 ^ 8)%N with 256%N; lia).
  rewrite <- N.shiftl_mul_pow2, lor_shiftl_add by (change (2 ^ 8)%N with 256%N; lia).
  change (2 ^ 8)%N with 256%N. lia.
Qed.

Lemma val2 (x0 x1 : N) :
  (x1 < 256)%N -> N.lor (N.shiftl x0 16) (N.shiftl x1 8) = (x0 * 65536 + x1 * 256)%N.
Proof.
  intros H1. rewrite <- (N.lor_0_r (N.lor _ _)), val3 by lia. lia.
Qed.

Lemma shiftr_mod (v k : N) : (N.shiftr v k mod 64 = v / 2 ^ k mod 64)%N.
Proof. by rewrite N.shiftr_div_pow2. Qed.

Lemma step64 (a b : N) : (a mod 64 = b mod 64 -> a / 64 = b / 64 -> a = b)%N.
Proof.
  intros Hm Hd. rewrite (N.div_mod a 64), (N.div_mod b 64) by lia. by rewrite Hm, Hd.
Qed.

(** A 24-bit value is given by its four groups of six bits. *)
Lemma sextets_determine (v v' : N) :
  (v < 2 ^ 24 -> v' < 2 ^ 24 ->
   (v / 2 ^ 18) mod 64 = (v' / 2 ^ 18) mod 64 ->
   (v / 2 ^ 12) mod 64 = (v' / 2 ^ 12) mod 64 ->
   (v / 2 ^ 6) mod 64 = (v' / 2 ^ 6) mod 64 ->
   v mod 64 = v' mod 64 -> v = v')%N.
Proof.
  intros Hv Hv' H18 H12 H6 H0.
  change (2 ^ 6)%N with 64%N in *.
  change (2 ^ 12)%N with (64 * 64)%N in *. change (2 ^ 18)%N with (64 * 64 * 64)%N in *.
  rewrite <- !N.Div0.div_div in *.
  apply step64; [done|]. apply step64; [done|]. apply step64; [done|].
  assert (Hq : forall x, (x < 2 ^ 24 -> (x / 64 / 64 / 64) mod 64 = x / 64 / 64 / 64)%N).
  { intros x Hx. apply N.mod_small. rewrite !N.Div0.div_div.
    apply N.Div0.div_lt_upper_bound. exact Hx. }
  by rewrite !Hq in H18.
Qed.

Lemma bytes3_bound (x0 x1 x2 : N) :
  (x0 < 256 -> x1 < 256 -> x2 < 256 -> x0 * 65536 + x1 * 256 + x2 < 2 ^ 24)%N.
Proof. change (2 ^ 24)%N with 16777216%N. lia. Qed.

Lemma bytes3_inj (x0 x1 x2 y0 y1 y2 : N) :
  (x0 < 256 -> x1 < 256 -> x2 < 256 -> y0 < 256 -> y1 < 256 -> y2 < 256 ->
   x0 * 65536 + x1 * 256 + x2 = y0 * 65536 + y1 * 256 + y2 ->
   x0 = y0 /\ x1 = y1 /\ x2 = y2)%N.
Proof. lia. Qed.

Lemma low_sextet_zero (k : N) : ((k * 64) mod 64 = 0)%N.
Proof. apply N.Div0.mod_mul. Qed.

Lemma EncodeToString_inj (l1 l2 : list byte) :
  EncodeToString l1 = EncodeToString l2 -> l1 = l2.
Proof.
  revert l2. induction l1 as [|a|a b|a b c l IH] using list_ind3;
    intros [|a' [|b' [|c' l']]] H; try done; try discriminate H;
    cbn [EncodeToString] in H; cbv zeta in H.
  - injection H as H18 H12.
    apply enc_sextet_inj in H18, H12. rewrite !shiftr_mod, !N.shiftl_mul_pow2 in *.
    change (2 ^ 16)%N with 65536%N in *.
    pose proof (b2N_bound a) as Ha. pose proof (b2N_bound a') as Ha'.
    assert (Hv : (b2N a * 65536 = b2N a' * 65536)%N).
    { apply sextets_determine; try done.
      - pose proof (bytes3_bound (b2N a) 0 0). lia.
      - pose proof (bytes3_bound (b2N a') 0 0). lia.
      - replace (b2N a * 65536)%N with (b2N a * 1024 * 64)%N by lia.
        replace (b2N a' * 65536)%N with (b2N a' * 1024 * 64)%N by lia.
        change (2 ^ 6)%N with 64%N. rewrite !N.div_mul by lia.
        replace (b2N a * 1024)%N with (b2N a * 16 * 64)%N by lia.
        replace (b2N a' * 1024)%N with (b2N a' * 16 * 64)%N by lia.
        by rewrite !low_sextet_zero.
      - replace (b2N a * 65536)%N with (b2N a * 1024 * 64)%N by lia.
        replace (b2N a' * 65536)%N with (b2N a' * 1024 * 64)%N by lia.
        by rewrite !low_sextet_zero. }
    f_equal. apply b2N_inj. lia.
  - injection H as H18 H12 H6.
    apply enc_sextet_inj in H18, H12, H6.
    rewrite !shiftr_mod, !val2 in * by apply b2N_bound.
    pose proof (b2N_bound a) as Ha. pose proof (b2N_bound a') as Ha'.
    pose proof (b2N_bound b) as Hb. pose proof (b2N_bound b') as Hb'.
    assert (Hv : (b2N a * 65536 + b2N b * 256 = b2N a' * 65536 + b2N b' * 256)%N).
    { apply sextets_determine; try done.
      - pose proof (bytes3_bound (b2N a) (b2N b) 0). lia.
      - pose proof (bytes3_bound (b2N a') (b2N b') 0). lia.
      - replace (b2N a * 65536 + b2N b * 256)%N
          with ((b2N a * 1024 + b2N b * 4) * 64)%N by lia.
        replace (b2N a' * 65536 + b2N b' * 256)%N
          with ((b2N a' * 1024 + b2N b' * 4) * 64)%N by lia.
        by rewrite !low_sextet_zero. }
    assert (b2N a = b2N a' /\ b2N b = b2N b') as [Ea Eb] by lia.
    by rewrite (b2N_inj _ _ Ea), (b2N_inj _ _ Eb).
  - injection H as H18 H12 H6 H0 Hrest.
    apply enc_sextet_inj in H18, H12, H6, H0.
    rewrite !shiftr_mod, !val3 in * by apply b2N_bound.
    pose proof (b2N_bound a) as Ha. pose proof (b2N_bound a') as Ha'.
    pose proof (b2N_bound b) as Hb. pose proof (b2N_bound b') as Hb'.
    pose proof (b2N_bound c) as Hc. pose proof (b2N_bound c') as Hc'.
    assert (Hv : (b2N a * 65536 + b2N b * 256 + b2N c
                  = b2N a' * 65536 + b2N b' * 256 + b2N c')%N).
    { apply sextets_determine; try done; by apply bytes3_bound. }
    apply bytes3_inj in Hv as (Ea & Eb & Ec); try done.
    rewrite (b2N_inj _ _ Ea), (b2N_inj _ _ Eb), (b2N_inj _ _ Ec). f_equal. f_equal. f_equal.
    by apply IH.
Qed.

(** X17: the encoding of identifiers loses nothing.  Two byte sequences
    with the same [base64.RawURLEncoding] text are equal, so two payloads
    get the same identifier exactly when their digests are equal: within
    one store, identifiers collide only where the hash does. *)
Theorem object_id_determines_digest (E : Env) (d1 d2 : list byte) :
  (forall l1 l2 : list byte, EncodeToString l1 = EncodeToString l2 <-> l1 = l2) /\
  (object_id E d1 = object_id E d2
   <-> proj1_sig (blake3_Sum E d1) = proj1_sig (blake3_Sum E d2)).
Proof.
  split.
  - intros l1 l2. split; [apply EncodeToString_inj | by intros ->].
  - unfold object_id. split; [apply EncodeToString_inj | by intros ->].
Qed.

(** X18: objects with different digests never share a file, and an object
    path is never the path of the configuration file or of a staging
    file: it lies three components below the storage root, those lie
    directly in it. *)
Theorem distinct_digests_distinct_files (E : Env) (d1 d2 : list byte) (p1 p2 : path) :
  proj1_sig (blake3_Sum E d1) <> proj1_sig (blake3_Sum E d2) ->
  objPath E (object_id E d1) = Some p1 ->
  objPath E (object_id E d2) = Some p2 ->
  p1 <> p2 /\
  (forall x, p1 <> root E ++ [x]) /\
  filepath_Dir (filepath_Dir (filepath_Dir p1)) = root E.
Proof.
  intros Hne H1 H2. repeat split.
  - intros <-. apply Hne, EncodeToString_inj.
    apply objPath_Base in H1, H2. unfold object_id in *. congruence.
  - intros x. by eapply tmp_not_object.
  - rewrite (objPath_Dir _ _ _ H1), !filepath_Dir_snoc. done.
Qed.

Lemma distinct_digests_distinct_files_witness :
  ["home"; "sht2"; "aG"; "ho"; hello_id] <> five_path /\
  (forall x, ["home"; "sht2"; "aG"; "ho"; hello_id] <> root demo_env ++ [x]) /\
  filepath_Dir (filepath_Dir (filepath_Dir ["home"; "sht2"; "aG"; "ho"; hello_id]))
  = root demo_env.
Proof.
  apply (distinct_digests_distinct_files demo_env hello five).
  - discriminate.
  - reflexivity.
  - reflexivity.
Defined.

(* ===================================================================== *)
(** ** The filesystem stays a tree *)
(* ===================================================================== *)

Lemma tree_like_insert_fresh (f : FS) (p : path) (n : node) :
  tree_like f -> f !! p = None -> p <> [] ->
  is_dir (lookup_node f (filepath_Dir p)) = true ->
  tree_like (<[p := n]> f).
Proof.
  intros Ht Hp Hne Hd. unfold tree_like in *. apply map_Forall_insert_2.
  - destruct (filepath_Dir p) as [|c l] eqn:Hq; [done|]. simpl in *.
    rewrite lookup_insert_ne; [done|]. intros Heq. by rewrite <- Heq, Hp in Hd.
  - intros q m Hq. specialize (Ht q m Hq). simpl in Ht.
    destruct (filepath_Dir q) as [|c l] eqn:Hdq; [done|]. simpl in *.
    rewrite lookup_insert_ne; [done|]. intros Heq. by rewrite <- Heq, Hp in Ht.
Qed.

Lemma tree_like_write_file (f : FS) (p : path) (d d' : list byte) :
  tree_like f -> f !! p = Some (File d) -> tree_like (<[p := File d']> f).
Proof.
  intros Ht Hp. unfold tree_like in *. apply map_Forall_insert_2.
  - specialize (Ht p _ Hp). simpl in Ht.
    destruct (filepath_Dir p) as [|c l] eqn:Hq; [done|]. simpl in *.
    rewrite lookup_insert_ne; [done|]. intros Heq. by rewrite <- Heq, Hp in Ht.
  - intros q m Hq. specialize (Ht q m Hq). simpl in Ht.
    destruct (filepath_Dir q) as [|c l] eqn:Hdq; [done|]. simpl in *.
    rewrite lookup_insert_ne; [done|]. intros Heq. by rewrite <- Heq, Hp in Ht.
Qed.

Lemma tree_like_delete_file (f : FS) (p : path) (d : list byte) :
  tree_like f -> f !! p = Some (File d) -> tree_like (delete p f).
Proof.
  intros Ht Hp. unfold tree_like in *. intros q m Hq.
  apply lookup_delete_Some in Hq as [Hne Hq]. specialize (Ht q m Hq). simpl in *.
  destruct (filepath_Dir q) as [|c l] eqn:Hdq; [done|]. simpl in *.
  rewrite lookup_delete_ne; [done|]. intros Heq. by rewrite <- Heq, Hp in Ht.
Qed.

Lemma MkdirAll_rev_tree (rp : list string) (f f' : FS) :
  tree_like f -> MkdirAll_rev f rp = Some f' -> tree_like f'.
Proof.
  revert f'. induction rp as [|c rp IH]; intros f' Ht H; simpl in H.
  - by injection H as <-.
  - rewrite lookup_node_snoc in H.
    destruct (f !! (rev rp ++ [c])) as [[d|]|] eqn:Hl; try discriminate.
    { by injection H as <-. }
    destruct (MkdirAll_rev f rp) as [f1|] eqn:H1; [|discriminate].
    injection H as <-. specialize (IH f1 Ht eq_refl).
    destruct (MkdirAll_rev_frame _ _ _ H1 (rev rp ++ [c])) as [Heq|[_ Hd]].
    + apply tree_like_insert_fresh; try done.
      * by rewrite Heq.
      * by destruct (rev rp).
      * by rewrite filepath_Dir_snoc, (MkdirAll_rev_dir _ _ _ H1).
    + by rewrite insert_id.
Qed.

Lemma upload_tree (E : Env) (rnd : list string) (r : Request) (w : World) :
  tree_like (fs w) -> tree_like (fs (snd (upload E rnd r w))).
Proof.
  intros Ht. destruct (upload_outcomes E rnd r w) as (reply & w' & Hup & Hcases).
  rewrite Hup. simpl.
  destruct Hcases as [[Hct _]|(tmp & w1 & Hct & Hcases)].
  { apply CreateTemp_None in Hct. by subst w'. }
  destruct Hcases as [(w2 & _ & -> & _)|(id & n & final & w2 & Hst & Hcases)]; [done|].
  destruct Hcases as [(w3 & _ & _ & -> & _)|(w3 & Hmk & Hcases)]; [done|].
  destruct (gate_state _ _ _ _ _ _ _ _ _ _ _ Hct Hst Hmk)
    as (data & _ & Hid & _ & Hobj & Hfresh & Htmp3 & _ & Hdir3 & _).
  pose proof (CreateTemp_Some _ _ _ _ _ Hct) as (Hroot & _ & [x Hx] & Hw1).
  assert (Ht3 : tree_like (fs w3)).
  { apply stage_staged in Hst as (src & _ & _ & _ & _ & _ & _ & Hfs2).
    rewrite Hw1 in Hfs2. simpl in Hfs2. specialize (Hfs2 (lookup_insert_eq _ _ _)).
    rewrite insert_insert_eq in Hfs2.
    apply os_MkdirAll_true in Hmk as [_ Hmk].
    eapply MkdirAll_rev_tree; [|exact Hmk]. rewrite Hfs2.
    apply tree_like_insert_fresh; try done.
    - rewrite Hx. unfold filepath_Join. by destruct (root E).
    - rewrite Hx. unfold filepath_Join. by rewrite filepath_Dir_snoc, Hroot. }
  assert (Htd : tree_like (delete tmp (fs w3))) by (by eapply tree_like_delete_file).
  destruct Hcases as [(n0 & _ & _ & -> & _)|(Hstat & used & _ & Hcases)]; [done|].
  destruct Hcases as [(_ & _ & -> & _)|(_ & _ & data' & _ & -> & _)]; [done|].
  rewrite Hid in Hobj. rewrite (objPath_lookup _ _ _ _ Hobj) in Hstat.
  apply tree_like_insert_fresh; try done.
  - destruct (decide (final = tmp)) as [->|Hne]; [apply lookup_delete_eq|].
    by rewrite lookup_delete_ne.
  - apply objPath_shape in Hobj. rewrite Hobj. unfold filepath_Join. by destruct (root E).
  - by rewrite (lookup_node_delete_dir _ _ _ _ Htmp3 Hdir3).
Qed.

(** X19: the server keeps the filesystem a tree.  If every entry lies in
    a directory before a sequence of requests, every entry lies in a
    directory after it: directories are made before what goes into them,
    and only files are removed. *)
Theorem serve_all_keeps_tree (E : Env) (reqs : list (list string * Request)) (w : World) :
  tree_like (fs w) -> tree_like (fs (snd (serve_all E reqs w))).
Proof.
  revert w. induction reqs as [|[rnd r] reqs IH]; intros w Ht; [done|].
  simpl. unfold mbind, M_bind at 1.
  destruct (ServeHTTP E rnd r w) as [reply w1] eqn:H1.
  unfold mbind, M_bind at 1. destruct (serve_all E reqs w1) as [replies w2] eqn:H2.
  simpl. change w2 with (snd (replies, w2)). rewrite <- H2. apply IH.
  change w1 with (snd (reply, w1)). rewrite <- H1.
  unfold ServeHTTP. repeat case_match; try done.
  - by apply upload_tree.
  - by rewrite serveByID_fs.
Qed.

Lemma serve_all_keeps_tree_witness :
  tree_like (fs (snd (serve_all demo_env later_requests hello_world))).
Proof.
  apply (serve_all_keeps_tree demo_env later_requests hello_world).
  unfold tree_like. apply (bool_decide_unpack _). vm_compute. exact I.
Defined.

(* ===================================================================== *)
(** ** Start-up *)
(* ===================================================================== *)

Lemma loadQuotaConfig_existing (L : Startup.Lib) (rootp : path) (w : World) (n : node) :
  let p := filepath_Join rootp [cfgPath] in
  fs w !! p = Some n ->
  Startup.loadQuotaConfig L rootp w
  = (let scanned := match n with
                    | File d => Startup.bufio_Scan L d
                    | Dir => ([], true)
                    end in
     let result := Startup.scan_lines L Startup.defaultQuotaConfig (fst scanned) in
     (fst result,
      match snd result with
      | Some e => Some e
      | None => if snd scanned then Some Startup.ErrScan else None
      end),
     {| fs := fs w; trace := trace w ++ [EvStat p; EvOpen p; EvClose p] |}).
Proof.
  intros p Hp.
  assert (Hl : lookup_node (fs w) p = fs w !! p) by apply lookup_node_snoc.
  unfold Startup.loadQuotaConfig, os_Stat, os_Open, file_Close. run_monad.
  change (filepath_Join rootp [cfgPath]) with p. rewrite Hl, Hp. run_monad.
  rewrite Hl, Hp. run_monad. by rewrite <- ?app_assoc.
Qed.

Lemma loadQuotaConfig_absent (L : Startup.Lib) (rootp : path) (w : World) :
  let p := filepath_Join rootp [cfgPath] in
  let text := list_byte_of_string (Startup.config_text L Startup.defaultQuotaConfig) in
  fs w !! p = None ->
  Startup.loadQuotaConfig L rootp w
  = if Startup.not_exist (fs w) p then
      if is_dir (lookup_node (fs w) rootp) then
        ((Startup.defaultQuotaConfig, None),
         {| fs := <[p := File text]> (fs w);
            trace := trace w ++ [EvStat p; EvOpen p; EvWrite p; EvClose p] |})
      else
        ((Startup.defaultQuotaConfig, Some Startup.ErrCreate),
         {| fs := fs w; trace := trace w ++ [EvStat p; EvOpen p] |})
    else
      ((Startup.defaultQuotaConfig, Some Startup.ErrOpen),
       {| fs := fs w; trace := trace w ++ [EvStat p; EvOpen p] |}).
Proof.
  intros p text Hp.
  assert (Hl : lookup_node (fs w) p = fs w !! p) by apply lookup_node_snoc.
  assert (Hd : filepath_Dir p = rootp) by apply filepath_Dir_snoc.
  unfold Startup.loadQuotaConfig, Startup.writeDefaultConfig, Startup.os_Create,
    os_Stat, os_Open, write_file, file_Close.
  run_monad. change (filepath_Join rootp [cfgPath]) with p. rewrite Hl, Hp.
  destruct (Startup.not_exist (fs w) p).
  - run_monad. rewrite Hd, Hl, Hp.
    destruct (lookup_node (fs w) rootp) as [[d|]|]; run_monad; rewrite <- ?app_assoc; try done.
    by rewrite insert_insert_eq.
  - run_monad. rewrite Hl, Hp. by rewrite <- ?app_assoc.
Qed.

Lemma sum_sizes_insert_uncounted (P : path -> bool) (f : FS) (p : path) (d : list byte) :
  f !! p = None -> P p = false -> sum_sizes P (<[p := File d]> f) = sum_sizes P f.
Proof.
  intros Hp HP. unfold sum_sizes.
  rewrite regular_files_insert_file, sum_map_insert, HP; [lia|].
  by rewrite regular_files_lookup, Hp.
Qed.

Lemma config_not_counted (E : Env) (exclude : path) :
  counted E exclude (filepath_Join (root E) [cfgPath]) = false.
Proof.
  unfold counted, filepath_Join. rewrite filepath_Base_snoc. simpl.
  by rewrite andb_false_r.
Qed.

Lemma config_not_object (E : Env) : is_object_path E (filepath_Join (root E) [cfgPath]) = false.
Proof. unfold is_object_path, filepath_Join. by rewrite filepath_Base_snoc. Qed.

Lemma loadQuotaConfig_changes (L : Startup.Lib) (rootp : path) (w : World) :
  let p := filepath_Join rootp [cfgPath] in
  let r := Startup.loadQuotaConfig L rootp w in
  fs (snd r) = fs w \/
  (fs w !! p = None /\ lookup_node (fs w) rootp = Some Dir /\
   Startup.not_exist (fs w) p = true /\
   fst r = (Startup.defaultQuotaConfig, None) /\
   fs (snd r)
   = <[p := File (list_byte_of_string (Startup.config_text L Startup.defaultQuotaConfig))]>
       (fs w)).
Proof.
  intros p r. subst r. destruct (fs w !! p) as [n|] eqn:Hp.
  - left. by rewrite (loadQuotaConfig_existing L rootp w n Hp).
  - rewrite (loadQuotaConfig_absent L rootp w Hp). fold p.
    destruct (Startup.not_exist (fs w) p); [|by left].
    destruct (lookup_node (fs w) rootp) as [[d|]|]; simpl; [by left| |by left].
    right. by repeat split.
Qed.

(** X20: [loadQuotaConfig] writes at most one file, once.  Either it
    leaves the filesystem as it was, or the configuration file was absent
    in an existing storage root and now holds the default text, the
    defaults being returned without error.  In both cases the usage walk
    of the handlers and the bytes of published objects are what they
    were: the configuration never counts against the quota. *)
Theorem loadQuotaConfig_frame (L : Startup.Lib) (E : Env) (w : World) :
  let p := filepath_Join (root E) [cfgPath] in
  let r := Startup.loadQuotaConfig L (root E) w in
  (fs (snd r) = fs w \/
   (fs w !! p = None /\ lookup_node (fs w) (root E) = Some Dir /\
    fst r = (Startup.defaultQuotaConfig, None) /\
    fs (snd r)
    = <[p := File (list_byte_of_string (Startup.config_text L Startup.defaultQuotaConfig))]>
        (fs w))) /\
  (forall exclude, walk_usage E exclude (fs (snd r)) = walk_usage E exclude (fs w)) /\
  published_bytes E (fs (snd r)) = published_bytes E (fs w).
Proof.
  intros p r. pose proof (loadQuotaConfig_changes L (root E) w) as H.
  cbv zeta in H. fold p in H. fold r in H.
  destruct H as [Heq|(Hp & Hroot & _ & Hr & Hfs)].
  - rewrite Heq. auto.
  - split; [right; auto|]. rewrite Hfs. split.
    + intros exclude. unfold walk_usage.
      assert (Hne : p <> root E).
      { unfold p, filepath_Join. intros Heq. apply (f_equal length) in Heq.
        rewrite length_app in Heq. simpl in Heq. lia. }
      assert (Hl : lookup_node (<[p := File (list_byte_of_string
                     (Startup.config_text L Startup.defaultQuotaConfig))]> (fs w)) (root E)
                   = Some Dir).
      { rewrite <- Hroot. unfold lookup_node. destruct (root E); [done|].
        by rewrite lookup_insert_ne. }
      rewrite Hl, Hroot, !usage_fold_exact.
      by rewrite (sum_sizes_insert_uncounted _ _ _ _ Hp (config_not_counted E exclude)).
    + unfold published_bytes.
      by rewrite (sum_sizes_insert_uncounted _ _ _ _ Hp (config_not_object E)).
Qed.

Lemma SplitN_eq_2_cut (k v : string) :
  forall_chars (fun c => negb (Ascii.eqb c "="%char)) k = true ->
  Startup.SplitN_eq_2 (k +:+ "=" +:+ v) = Some (k, v).
Proof.
  induction k as [|c k IH]; simpl; [done|].
  intros [Hc Hk]%andb_true_iff. apply negb_true_iff in Hc. by rewrite Hc, IH.
Qed.

Lemma comment_prefix (k v : string) :
  String.prefix "#" (k +:+ "=" +:+ v) = String.prefix "#" k.
Proof.
  destruct k as [|c k]; [reflexivity|].
  change (String c k +:+ "=" +:+ v) with (String c (k +:+ "=" +:+ v)).
  cbn [String.prefix]. destruct (ascii_dec _ c); [|done].
  by destruct (k +:+ "=" +:+ v), k.
Qed.

Lemma scan_line_invalid (L : Startup.Lib) (cfg : Startup.quotaConfig) (text k v : string) :
  Startup.strings_TrimSpace L text = k +:+ "=" +:+ v ->
  forall_chars (fun c => negb (Ascii.eqb c "="%char)) k = true ->
  String.prefix "#" k = false ->
  match Startup.strconv_ParseFloat L (Startup.strings_TrimSpace L v) with
  | Some gb => PrimFloat.leb gb PrimFloat.zero = true
  | None => True
  end ->
  Startup.scan_line L cfg text = inr (Startup.strings_TrimSpace L k).
Proof.
  intros Hline Hk Hc Hbad. unfold Startup.scan_line.
  rewrite Hline, comment_prefix, Hc, (SplitN_eq_2_cut k v Hk).
  assert (He : String.eqb (k +:+ "=" +:+ v) EmptyString = false).
  { apply String.eqb_neq. by destruct k. }
  rewrite He. simpl.
  destruct (Startup.strconv_ParseFloat L (Startup.strings_TrimSpace L v)); [|done].
  by rewrite Hbad.
Qed.

Lemma scan_lines_invalid (L : Startup.Lib) (pre post : list string) (text key : string) :
  (forall cfg, Startup.scan_line L cfg text = inr key) ->
  forall cfg, exists cfg' key',
    Startup.scan_lines L cfg (pre ++ text :: post) = (cfg', Some (Startup.ErrInvalid key')).
Proof.
  intros Hbad. induction pre as [|t pre IH]; intros cfg; simpl.
  - rewrite Hbad. eauto.
  - destruct (Startup.scan_line L cfg t); eauto.
Qed.

Lemma os_MkdirAll_keeps (p q : path) (n : node) (w : World) :
  fs w !! q = Some n -> fs (snd (os_MkdirAll p w)) !! q = Some n.
Proof.
  intros Hq. destruct (os_MkdirAll p w) as [[|] w1] eqn:H; simpl.
  - apply os_MkdirAll_true in H as [_ H].
    destruct (MkdirAll_rev_frame _ _ _ H q) as [->|[? _]]; congruence.
  - apply os_MkdirAll_false in H. by subst w1.
Qed.

Lemma main_start_load (L : Startup.Lib) (rootp : path) (w : World) :
  Startup.main_start L rootp w
  = (let r := Startup.loadQuotaConfig L rootp (snd (os_MkdirAll rootp w)) in
     (match snd (fst r) with
      | None => Some (fst (fst r))
      | Some _ => None
      end, snd r)).
Proof.
  unfold Startup.main_start. unfold mbind, M_bind at 1.
  destruct (os_MkdirAll rootp w) as [b w1]. unfold mbind, M_bind at 1. simpl.
  destruct (Startup.loadQuotaConfig L rootp w1) as [[cfg [e|]] w2]; done.
Qed.

(** X21: a value that does not parse, or is not above zero, is fatal
    whatever its key.  If some line of the configuration file, trimmed,
    reads [k=v] with no [=] in [k] and no [#] at its start, and [v]
    trimmed is rejected by [strconv.ParseFloat] or parses to a number
    [<= 0], then [loadQuotaConfig] returns an "invalid" error, also when
    [k] is a key the loader does not know; it writes nothing, and [main]
    ends in [log.Fatal]. *)
Theorem invalid_value_is_fatal (L : Startup.Lib) (rootp : path) (w : World) (d : list byte)
        (pre post : list string) (text k v : string) :
  fs w !! filepath_Join rootp [cfgPath] = Some (File d) ->
  fst (Startup.bufio_Scan L d) = pre ++ text :: post ->
  Startup.strings_TrimSpace L text = k +:+ "=" +:+ v ->
  forall_chars (fun c => negb (Ascii.eqb c "="%char)) k = true ->
  String.prefix "#" k = false ->
  match Startup.strconv_ParseFloat L (Startup.strings_TrimSpace L v) with
  | Some gb => PrimFloat.leb gb PrimFloat.zero = true
  | None => True
  end ->
  (exists cfg key,
     fst (Startup.loadQuotaConfig L rootp w) = (cfg, Some (Startup.ErrInvalid key))) /\
  fs (snd (Startup.loadQuotaConfig L rootp w)) = fs w /\
  fst (Startup.main_start L rootp w) = None.
Proof.
  intros Hp Hlines Hline Hk Hc Hbad.
  assert (Hload : forall w0, fs w0 !! filepath_Join rootp [cfgPath] = Some (File d) ->
            exists cfg key,
              fst (Startup.loadQuotaConfig L rootp w0) = (cfg, Some (Startup.ErrInvalid key))).
  { intros w0 H0. rewrite (loadQuotaConfig_existing L rootp w0 _ H0). cbv zeta. rewrite Hlines.
    destruct (scan_lines_invalid L pre post text _
                (fun cfg => scan_line_invalid L cfg text k v Hline Hk Hc Hbad)
                Startup.defaultQuotaConfig) as (cfg & key & ->).
    by exists cfg, key. }
  split; [by apply Hload|]. split.
  - by rewrite (loadQuotaConfig_existing L rootp w _ Hp).
  - rewrite main_start_load. cbv zeta. simpl.
    destruct (Hload (snd (os_MkdirAll rootp w))) as (cfg & key & ->); [|done].
    by apply os_MkdirAll_keeps.
Qed.

Lemma invalid_value_is_fatal_witness :
  (exists cfg key,
     fst (Startup.loadQuotaConfig Startup.demo_lib ["home"; "sht2"]
            (Startup.config_world Startup.broken_config))
     = (cfg, Some (Startup.ErrInvalid key))) /\
  fs (snd (Startup.loadQuotaConfig Startup.demo_lib ["home"; "sht2"]
             (Startup.config_world Startup.broken_config)))
  = fs (Startup.config_world Startup.broken_config) /\
  fst (Startup.main_start Startup.demo_lib ["home"; "sht2"]
         (Startup.config_world Startup.broken_config)) = None.
Proof.
  apply (invalid_value_is_fatal Startup.demo_lib ["home"; "sht2"]
           (Startup.config_world Startup.broken_config)
           (list_byte_of_string Startup.broken_config)
           ["MAX_STORAGE_GB=5"] [] "RETENTION_DAYS=0" "RETENTION_DAYS" "0").
  - reflexivity.
  - reflexivity.
  - reflexivity.
  - reflexivity.
  - reflexivity.
  - reflexivity.
Defined.

Lemma scan_line_assignment (L : Startup.Lib) (cfg cfg' : Startup.quotaConfig) (text : string) :
  Startup.scan_line L cfg text = inl cfg' ->
  match Startup.assignment L text with
  | Some (key, gb) =>
      PrimFloat.leb gb PrimFloat.zero = false /\ cfg' = Startup.assign L cfg key gb
  | None => cfg' = cfg
  end.
Proof.
  unfold Startup.scan_line, Startup.assignment.
  destruct (String.eqb _ _ || String.prefix _ _); [by intros [= <-]|].
  destruct (Startup.SplitN_eq_2 _) as [[k v]|]; [|by intros [= <-]].
  destruct (Startup.strconv_ParseFloat L _) as [gb|]; [|discriminate].
  destruct (PrimFloat.leb gb PrimFloat.zero); [discriminate|]. by intros [= <-].
Qed.

Lemma last_Some_nonempty {A B : Type} (g : A -> B) (x : A) (l : list A) :
  exists y, List.last (map (fun a => Some (g a)) (x :: l)) None = Some y.
Proof.
  revert x. induction l as [|z l IH]; intros x; [by eexists|].
  destruct (IH z) as [y Hy]. exists y. exact Hy.
Qed.

Lemma last_Some_cons {A B : Type} (g : A -> B) (x : A) (l : list A) :
  List.last (map (fun a => Some (g a)) (x :: l)) None
  = match List.last (map (fun a => Some (g a)) l) None with
    | Some y => Some y
    | None => Some (g x)
    end.
Proof.
  destruct l as [|z l]; [done|].
  destruct (last_Some_nonempty g z l) as [y Hy]. rewrite Hy. exact Hy.
Qed.

Lemma last_value_cons (L : Startup.Lib) (key text : string) (rest : list string) :
  Startup.last_value L key (text :: rest)
  = match Startup.last_value L key rest with
    | Some gb => Some gb
    | None =>
        match Startup.assignment L text with
        | Some (k, gb) => if String.eqb key k then Some gb else None
        | None => None
        end
    end.
Proof.
  unfold Startup.last_value. simpl.
  destruct (Startup.assignment L text) as [[k gb]|].
  - rewrite filter_cons. cbn [fst].
    destruct (decide (String.eqb key k = true)) as [He|He].
    + by rewrite last_Some_cons, He.
    + apply not_true_is_false in He. rewrite He. by case_match.
  - by case_match.
Qed.

Lemma scan_lines_last (L : Startup.Lib) (lines : list string) :
  forall cfg0 cfg,
  Startup.scan_lines L cfg0 lines = (cfg, None) ->
  (Startup.MaxStorageGB cfg, Startup.MaxStorageByte cfg)
  = match Startup.last_value L "MAX_STORAGE_GB" lines with
    | Some gb => (gb, Startup.int64 L (PrimFloat.mul gb (Startup.float64 gib)))
    | None => (Startup.MaxStorageGB cfg0, Startup.MaxStorageByte cfg0)
    end /\
  (Startup.MaxUploadGB cfg, Startup.MaxUploadByte cfg)
  = match Startup.last_value L "MAX_UPLOAD_GB" lines with
    | Some gb => (gb, Startup.int64 L (PrimFloat.mul gb (Startup.float64 gib)))
    | None => (Startup.MaxUploadGB cfg0, Startup.MaxUploadByte cfg0)
    end /\
  (forall key gb, Startup.last_value L key lines = Some gb ->
                  PrimFloat.leb gb PrimFloat.zero = false).
Proof.
  induction lines as [|text rest IH]; intros cfg0 cfg H; simpl in H.
  - injection H as <-. by repeat split.
  - destruct (Startup.scan_line L cfg0 text) as [cfg1|key] eqn:Hline; [|discriminate].
    apply scan_line_assignment in Hline. destruct (IH cfg1 cfg H) as (Hs & Hu & Hv).
    rewrite !last_value_cons. repeat split.
    + rewrite Hs. destruct (Startup.last_value L "MAX_STORAGE_GB" rest); [done|].
      destruct (Startup.assignment L text) as [[k gb]|]; [|by subst cfg1].
      destruct Hline as [_ ->]. unfold Startup.assign.
      destruct (String.eqb k "MAX_STORAGE_GB") eqn:Hk.
      * apply String.eqb_eq in Hk. by subst k.
      * rewrite (String.eqb_sym "MAX_STORAGE_GB" k), Hk.
        by destruct (String.eqb k "MAX_UPLOAD_GB").
    + rewrite Hu. destruct (Startup.last_value L "MAX_UPLOAD_GB" rest); [done|].
      destruct (Startup.assignment L text) as [[k gb]|]; [|by subst cfg1].
      destruct Hline as [_ ->]. unfold Startup.assign.
      destruct (String.eqb k "MAX_STORAGE_GB") eqn:Hk.
      * apply String.eqb_eq in Hk. by subst k.
      * destruct (String.eqb k "MAX_UPLOAD_GB") eqn:Hk2.
        -- apply String.eqb_eq in Hk2. by subst k.
        -- by rewrite (String.eqb_sym "MAX_UPLOAD_GB" k), Hk2.
    + intros key gb. rewrite last_value_cons.
      destruct (Startup.last_value L key rest) as [g|] eqn:Hr.
      * intros [= <-]. by eapply Hv.
      * destruct (Startup.assignment L text) as [[k g]|]; [|done].
        destruct (String.eqb key k); [|done]. intros [= <-]. by destruct Hline.
Qed.

(** X22: the last assignment wins, for each ceiling on its own.  When
    [loadQuotaConfig] reads a configuration file without error, the
    storage ceiling is that of the last line assigning [MAX_STORAGE_GB],
    or the default if no line does, and likewise for [MAX_UPLOAD_GB];
    the value taken is not [<= 0], and each byte ceiling is the
    conversion to [int64] of its figure in GiB times 2^30. *)
Theorem loadQuotaConfig_last_wins (L : Startup.Lib) (rootp : path) (w : World)
        (d : list byte) (cfg : Startup.quotaConfig) :
  fs w !! filepath_Join rootp [cfgPath] = Some (File d) ->
  fst (Startup.loadQuotaConfig L rootp w) = (cfg, None) ->
  let lines := fst (Startup.bufio_Scan L d) in
  let bytes gb := Startup.int64 L (PrimFloat.mul gb (Startup.float64 gib)) in
  (Startup.MaxStorageGB cfg, Startup.MaxStorageByte cfg)
  = match Startup.last_value L "MAX_STORAGE_GB" lines with
    | Some gb => (gb, bytes gb)
    | None => (Startup.float64 20, 20 * gib)
    end /\
  (Startup.MaxUploadGB cfg, Startup.MaxUploadByte cfg)
  = match Startup.last_value L "MAX_UPLOAD_GB" lines with
    | Some gb => (gb, bytes gb)
    | None => (Startup.float64 2, 2 * gib)
    end /\
  (forall key gb, Startup.last_value L key lines = Some gb ->
                  PrimFloat.leb gb PrimFloat.zero = false) /\
  Startup.MaxStorageByte cfg = bytes (Startup.MaxStorageGB cfg) /\
  Startup.MaxUploadByte cfg = bytes (Startup.MaxUploadGB cfg).
Proof.
  intros Hp Hload lines bytes.
  rewrite (loadQuotaConfig_existing L rootp w _ Hp) in Hload. cbv zeta in Hload.
  simpl in Hload. fold lines in Hload.
  destruct (Startup.scan_lines L Startup.defaultQuotaConfig lines) as [cfg' [e|]] eqn:Hscan;
    [discriminate|].
  simpl in Hload. assert (cfg' = cfg) as -> by congruence.
  destruct (scan_lines_last L lines _ _ Hscan) as (Hs & Hu & Hv).
  change (Startup.MaxStorageGB Startup.defaultQuotaConfig) with (Startup.float64 20) in Hs.
  change (Startup.MaxStorageByte Startup.defaultQuotaConfig) with (20 * gib) in Hs.
  change (Startup.MaxUploadGB Startup.defaultQuotaConfig) with (Startup.float64 2) in Hu.
  change (Startup.MaxUploadByte Startup.defaultQuotaConfig) with (2 * gib) in Hu.
  split; [exact Hs|]. split; [exact Hu|]. split; [exact Hv|]. split.
  - destruct (Startup.last_value L "MAX_STORAGE_GB" lines); injection Hs as -> ->; reflexivity.
  - destruct (Startup.last_value L "MAX_UPLOAD_GB" lines); injection Hu as -> ->; reflexivity.
Qed.

Lemma loadQuotaConfig_last_wins_witness :
  let cfg := fst (fst (Startup.loadQuotaConfig Startup.demo_lib ["home"; "sht2"]
                         (Startup.config_world Startup.tuned_config))) in
  (Startup.MaxStorageGB cfg, Startup.MaxStorageByte cfg) = (Startup.float64 3, 3 * gib) /\
  (Startup.MaxUploadGB cfg, Startup.MaxUploadByte cfg) = (Startup.float64 1, gib).
Proof.
  pose proof (loadQuotaConfig_last_wins Startup.demo_lib ["home"; "sht2"]
                (Startup.config_world Startup.tuned_config)
                (list_byte_of_string Startup.tuned_config)
                (fst (fst (Startup.loadQuotaConfig Startup.demo_lib ["home"; "sht2"]
                             (Startup.config_world Startup.tuned_config))))
                eq_refl eq_refl) as (Hs & Hu & _).
  split; [exact Hs | exact Hu].
Defined.

(** X23: no request changes what a restart would load.  If a
    configuration file (or anything else) lies at the configuration path,
    then after any sequence of requests [loadQuotaConfig] returns what it
    would have returned before them: uploads stage under names that
    start with [up-] and publish three levels below the root, so the
    handlers never write the configuration. *)
Theorem requests_keep_configuration (L : Startup.Lib) (E : Env)
        (reqs : list (list string * Request)) (w : World) (n : node) :
  fs w !! filepath_Join (root E) [cfgPath] = Some n ->
  fst (Startup.loadQuotaConfig L (root E) (snd (serve_all E reqs w)))
  = fst (Startup.loadQuotaConfig L (root E) w).
Proof.
  intros Hp. pose proof (serve_all_keeps E reqs w _ _ Hp) as Hp'.
  by rewrite (loadQuotaConfig_existing L (root E) _ _ Hp'),
             (loadQuotaConfig_existing L (root E) _ _ Hp).
Qed.

Lemma requests_keep_configuration_witness :
  fst (Startup.loadQuotaConfig Startup.demo_lib (root demo_env)
         (snd (serve_all demo_env later_requests hello_world)))
  = fst (Startup.loadQuotaConfig Startup.demo_lib (root demo_env) hello_world).
Proof.
  apply (requests_keep_configuration Startup.demo_lib demo_env later_requests hello_world
           (File (list_byte_of_string "MAX_STORAGE_GB=20"))).
  reflexivity.
Defined.

Lemma os_MkdirAll_tree (p : path) (w : World) :
  tree_like (fs w) -> tree_like (fs (snd (os_MkdirAll p w))).
Proof.
  intros Ht. destruct (os_MkdirAll p w) as [[|] w1] eqn:H; simpl.
  - apply os_MkdirAll_true in H as [_ H]. by eapply MkdirAll_rev_tree.
  - apply os_MkdirAll_false in H. by subst w1.
Qed.

(** X24: a server that starts has a usable storage root, although [main]
    drops the error of [os.MkdirAll].  On a filesystem that is a tree, if
    [main] gets past [loadQuotaConfig], then the storage root is a
    directory and the configuration path holds a regular file; start-up
    has removed and modified nothing, and the filesystem is still a
    tree. *)
Theorem main_start_usable (L : Startup.Lib) (rootp : path) (w : World)
        (cfg : Startup.quotaConfig) :
  tree_like (fs w) ->
  fst (Startup.main_start L rootp w) = Some cfg ->
  let w' := snd (Startup.main_start L rootp w) in
  lookup_node (fs w') rootp = Some Dir /\
  (exists d, fs w' !! filepath_Join rootp [cfgPath] = Some (File d)) /\
  (forall p n, fs w !! p = Some n -> fs w' !! p = Some n) /\
  tree_like (fs w').
Proof.
  intros Ht. rewrite main_start_load. cbv zeta. simpl.
  pose proof (os_MkdirAll_tree rootp w Ht) as Ht1.
  pose proof (fun p n => os_MkdirAll_keeps rootp p n w) as Hk.
  set (w1 := snd (os_MkdirAll rootp w)) in *.
  set (p := filepath_Join rootp [cfgPath]).
  destruct (fs w1 !! p) as [n|] eqn:Hp.
  - rewrite (loadQuotaConfig_existing L rootp w1 n Hp). cbv zeta. simpl. fold p.
    destruct n as [d|].
    + intros _. repeat split; try done; [|by exists d].
      specialize (Ht1 p _ Hp). simpl in Ht1. unfold p, filepath_Join in Ht1.
      rewrite filepath_Dir_snoc in Ht1. by destruct (lookup_node (fs w1) rootp) as [[?|]|].
    + by simpl.
  - rewrite (loadQuotaConfig_absent L rootp w1 Hp). fold p.
    destruct (Startup.not_exist (fs w1) p); [|done].
    destruct (lookup_node (fs w1) rootp) as [[d|]|] eqn:Hr; simpl; try done.
    intros _. repeat split.
    + rewrite <- Hr. unfold lookup_node. destruct rootp as [|c l]; [done|].
      rewrite lookup_insert_ne; [done|]. unfold p, filepath_Join.
      intros Heq. apply (f_equal length) in Heq. simpl in Heq.
      rewrite length_app in Heq. simpl in Heq. lia.
    + eexists. apply lookup_insert_eq.
    + intros q n Hq. apply Hk in Hq. rewrite lookup_insert_ne; [done|]. congruence.
    + apply tree_like_insert_fresh; try done.
      * unfold p, filepath_Join. by destruct rootp.
      * unfold p, filepath_Join. by rewrite filepath_Dir_snoc, Hr.
Qed.

Lemma main_start_usable_witness :
  lookup_node (fs Startup.started_world) ["home"; "sht2"] = Some Dir /\
  (exists d, fs Startup.started_world !! filepath_Join ["home"; "sht2"] [cfgPath]
             = Some (File d)) /\
  (forall p n, fs Startup.fresh_world !! p = Some n -> fs Startup.started_world !! p = Some n) /\
  tree_like (fs Startup.started_world).
Proof.
  apply (main_start_usable Startup.demo_lib ["home"; "sht2"] Startup.fresh_world
           Startup.defaultQuotaConfig).
  - unfold tree_like. apply (bool_decide_unpack _). vm_compute. exact I.
  - reflexivity.
Defined.

(** X25: the ceiling written in the configuration file is the ceiling
    the handler enforces.  When [main] starts on a configuration file,
    the upload ceiling is the [int64] of the last [MAX_UPLOAD_GB] value
    times 2^30 (2 GiB if no line sets it), and a first POST or PUT to [/]
    without [Content-Type] whose body is longer than that is answered
    413. *)
Theorem configured_upload_ceiling_enforced (L : Startup.Lib) (rootp : path)
        (sum : list byte -> Digest) (parse : string -> option string)
        (mr : string -> Reader -> option PartStream)
        (w w2 : World) (d : list byte) (cfg : Startup.quotaConfig)
        (rnd : list string) (r : Request) (tmp : path) :
  let ceiling :=
    match Startup.last_value L "MAX_UPLOAD_GB" (fst (Startup.bufio_Scan L d)) with
    | Some gb => Startup.int64 L (PrimFloat.mul gb (Startup.float64 gib))
    | None => 2 * gib
    end in
  fs w !! filepath_Join rootp [cfgPath] = Some (File d) ->
  fst (Startup.main_start L rootp w) = Some cfg ->
  URL_Path r = "/" ->
  Method r = "POST" \/ Method r = "PUT" ->
  Content_Type r = EmptyString ->
  Z.max 0 ceiling < len (rd_bytes (Body r)) ->
  os_CreateTemp rootp rnd (snd (Startup.main_start L rootp w)) = (Some tmp, w2) ->
  Startup.MaxUploadByte cfg = ceiling /\
  fst (Startup.main L rootp sum parse mr [(rnd, r)] w)
  = Some [http_Error "upload exceeds MAX_UPLOAD_GB" StatusRequestEntityTooLarge].
Proof.
  intros ceiling Hp Hstart Hpath Hmeth Hct Hlen Htmp.
  assert (Hceil : Startup.MaxUploadByte cfg = ceiling).
  { rewrite main_start_load in Hstart. cbv zeta in Hstart. simpl in Hstart.
    pose proof (os_MkdirAll_keeps rootp _ _ w Hp) as Hp1.
    destruct (Startup.loadQuotaConfig L rootp (snd (os_MkdirAll rootp w)))
      as [[cfg' [e|]] w1] eqn:Hload; [discriminate|].
    simpl in Hstart. injection Hstart as ->.
    assert (Hl : fst (Startup.loadQuotaConfig L rootp (snd (os_MkdirAll rootp w))) = (cfg, None))
      by (by rewrite Hload).
    rewrite (loadQuotaConfig_existing L rootp _ _ Hp1) in Hl. cbv zeta in Hl. simpl in Hl.
    destruct (Startup.scan_lines L Startup.defaultQuotaConfig (fst (Startup.bufio_Scan L d)))
      as [c [e|]] eqn:Hscan; [discriminate|].
    simpl in Hl. assert (c = cfg) as -> by congruence.
    destruct (scan_lines_last L _ _ _ Hscan) as (_ & Hu & _). unfold ceiling.
    destruct (Startup.last_value L "MAX_UPLOAD_GB" _); by injection Hu as _ ->. }
  split; [exact Hceil|].
  unfold Startup.main. unfold mbind, M_bind at 1.
  destruct (Startup.main_start L rootp w) as [o w1] eqn:Hms. simpl in Hstart, Htmp. subst o.
  set (E := {| root := rootp; limits := Startup.handler_limits cfg; blake3_Sum := sum;
               mime_ParseMediaType := parse; MultipartReader := mr |}).
  assert (Hup : fst (upload E rnd r w1)
                = http_Error "upload exceeds MAX_UPLOAD_GB" StatusRequestEntityTooLarge).
  { destruct (raw_body_over_ceiling E r Hct) as (src & Hsel & Herr).
    { simpl. by rewrite Hceil. }
    destruct (stage_too_large E tmp r w2 src Hsel Herr) as (w3 & Hst & _).
    by rewrite (upload_with_temp E rnd r w1 w2 w3 tmp _ Htmp (upload_staged_reply _ _ _ _ _ _ Hst)). }
  assert (Hserve : ServeHTTP E rnd r w1 = upload E rnd r w1).
  { unfold ServeHTTP. rewrite Hpath. destruct Hmeth as [-> | ->]; reflexivity. }
  simpl. unfold mbind, M_bind, mret, M_ret. rewrite Hserve.
  destruct (upload E rnd r w1) as [reply w4]. simpl in Hup. subst reply.
  reflexivity.
Qed.

Lemma configured_upload_ceiling_enforced_witness :
  Startup.MaxUploadByte (Startup.assign Startup.demo_lib Startup.defaultQuotaConfig
                           "MAX_UPLOAD_GB"
                           (FloatOps.SF2Prim (SpecFloat.S754_finite false 1 (-27)))) = 8 /\
  fst (Startup.main Startup.demo_lib ["home"; "sht2"] demo_Sum demo_ParseMediaType
         no_part_reader [(["1"], raw_request hello)]
         (Startup.config_world Startup.small_config))
  = Some [http_Error "upload exceeds MAX_UPLOAD_GB" StatusRequestEntityTooLarge].
Proof.
  apply (configured_upload_ceiling_enforced Startup.demo_lib ["home"; "sht2"] demo_Sum
           demo_ParseMediaType no_part_reader
           (Startup.config_world Startup.small_config)
           (snd (os_CreateTemp ["home"; "sht2"] ["1"]
                   (snd (Startup.main_start Startup.demo_lib ["home"; "sht2"]
                           (Startup.config_world Startup.small_config)))))
           (list_byte_of_string Startup.small_config)
           (Startup.assign Startup.demo_lib Startup.defaultQuotaConfig "MAX_UPLOAD_GB"
              (FloatOps.SF2Prim (SpecFloat.S754_finite false 1 (-27))))
           ["1"] (raw_request hello) up1).
  - reflexivity.
  - reflexivity.
  - reflexivity.
  - left. reflexivity.
  - reflexivity.
  - reflexivity.
  - reflexivity.
Defined.

Lemma MkdirAll_rev_deeper (rp : list string) (f f' : FS) (q : path) :
  MkdirAll_rev f rp = Some f' -> (length rp < length q)%nat -> f' !! q = f !! q.
Proof.
  revert f'. induction rp as [|c rp IH]; intros f' H Hlen; simpl in H.
  - by injection H as <-.
  - rewrite lookup_node_snoc in H.
    destruct (f !! (rev rp ++ [c])) as [[d|]|]; try discriminate.
    { by injection H as <-. }
    destruct (MkdirAll_rev f rp) as [f1|]; [|discriminate]. injection H as <-.
    rewrite lookup_insert_ne.
    + apply IH; [done|]. simpl in Hlen. lia.
    + intros Heq. apply (f_equal length) in Heq.
      rewrite length_app, length_rev in Heq. simpl in *. lia.
Qed.

Lemma tree_prefix_dirs (f : FS) (q : path) :
  tree_like f -> lookup_node f q = Some Dir ->
  forall k, lookup_node f (firstn k q) = Some Dir.
Proof.
  intros Ht. induction q as [|c l IH] using rev_ind; intros Hq k.
  - by destruct k.
  - rewrite lookup_node_snoc in Hq. pose proof (Ht _ _ Hq) as Hd. simpl in Hd.
    rewrite filepath_Dir_snoc in Hd.
    assert (Hl : lookup_node f l = Some Dir) by (by destruct (lookup_node f l) as [[?|]|]).
    destruct (decide (k <= length l)%nat) as [Hk|Hk].
    + rewrite firstn_app. replace (k - length l)%nat with 0%nat by lia.
      simpl. rewrite app_nil_r. by apply IH.
    + rewrite firstn_all2; [by rewrite lookup_node_snoc|]. rewrite length_app. simpl. lia.
Qed.

Lemma not_exist_in_dir (f : FS) (dir : path) (c : string) :
  tree_like f -> lookup_node f dir = Some Dir ->
  Startup.not_exist f (filepath_Join dir [c]) = true.
Proof.
  intros Ht Hd. unfold Startup.not_exist, filepath_Join. apply forallb_forall.
  intros k Hk%in_seq. rewrite length_app in Hk. simpl in Hk.
  rewrite firstn_app. replace (k - length dir)%nat with 0%nat by lia.
  simpl. rewrite app_nil_r. by rewrite (tree_prefix_dirs f dir Ht Hd k).
Qed.

(** X26: the first start writes the defaults, later starts read them
    back without writing.  On a filesystem that is a tree, when the
    storage root exists or can be made and holds no configuration file,
    [main] creates the file with the default text and goes on with the
    default ceilings of 20 GiB and 2 GiB; a start in the resulting
    filesystem changes nothing in it. *)
Theorem first_start_writes_defaults (L : Startup.Lib) (rootp : path) (w w1 : World) :
  let p := filepath_Join rootp [cfgPath] in
  let text := list_byte_of_string (Startup.config_text L Startup.defaultQuotaConfig) in
  tree_like (fs w) ->
  os_MkdirAll rootp w = (true, w1) ->
  fs w !! p = None ->
  let w' := {| fs := <[p := File text]> (fs w1);
               trace := trace w ++ [EvMkdirAll rootp; EvStat p; EvOpen p; EvWrite p; EvClose p] |} in
  Startup.main_start L rootp w = (Some Startup.defaultQuotaConfig, w') /\
  Startup.handler_limits Startup.defaultQuotaConfig = defaultQuotaConfig /\
  fs (snd (Startup.main_start L rootp w')) = fs w'.
Proof.
  intros p text Ht Hmk Hp w'.
  pose proof (os_MkdirAll_tree rootp w Ht) as Ht1. rewrite Hmk in Ht1. simpl in Ht1.
  apply os_MkdirAll_true in Hmk as Hmk'. destruct Hmk' as [Htr Hrev].
  assert (Hroot : lookup_node (fs w1) rootp = Some Dir).
  { apply MkdirAll_rev_dir in Hrev. by rewrite rev_involutive in Hrev. }
  assert (Hp1 : fs w1 !! p = None).
  { rewrite (MkdirAll_rev_deeper _ _ _ p Hrev); [done|].
    unfold p, filepath_Join. rewrite length_rev, length_app. simpl. lia. }
  split; [|split; [reflexivity|]].
  - rewrite main_start_load, Hmk. cbv zeta. simpl.
    rewrite (loadQuotaConfig_absent L rootp w1 Hp1). fold p.
    assert (Hne : Startup.not_exist (fs w1) p = true) by (by apply not_exist_in_dir).
    rewrite Hne, Hroot. simpl.
    unfold w'. by rewrite Htr, <- ?app_assoc.
  - assert (Hroot' : lookup_node (fs w') rootp = Some Dir).
    { rewrite <- Hroot. unfold w', lookup_node. simpl. destruct rootp as [|c l]; [done|].
      rewrite lookup_insert_ne; [done|]. unfold p, filepath_Join.
      intros Heq. apply (f_equal length) in Heq. simpl in Heq.
      rewrite length_app in Heq. simpl in Heq. lia. }
    rewrite main_start_load. cbv zeta. simpl.
    assert (Hmk2 : snd (os_MkdirAll rootp w')
                   = {| fs := fs w'; trace := trace w' ++ [EvMkdirAll rootp] |}).
    { unfold os_MkdirAll. run_monad.
      rewrite MkdirAll_rev_existing by (by rewrite rev_involutive). by run_monad. }
    rewrite Hmk2.
    erewrite (loadQuotaConfig_existing L rootp); [done|]. simpl. apply lookup_insert_eq.
Qed.

Lemma first_start_writes_defaults_witness :
  Startup.main_start Startup.demo_lib ["home"; "sht2"] Startup.fresh_world
  = (Some Startup.defaultQuotaConfig, Startup.started_world) /\
  Startup.handler_limits Startup.defaultQuotaConfig = defaultQuotaConfig /\
  fs (snd (Startup.main_start Startup.demo_lib ["home"; "sht2"] Startup.started_world))
  = fs Startup.started_world.
Proof.
  apply (first_start_writes_defaults Startup.demo_lib ["home"; "sht2"] Startup.fresh_world
           (snd (os_MkdirAll ["home"; "sht2"] Startup.fresh_world))).
  - unfold tree_like. apply (bool_decide_unpack _). vm_compute. exact I.
  - reflexivity.
  - reflexivity.
Defined.

(* ===================================================================== *)
(** ** The staging file in the usage walk: names as text *)
(* ===================================================================== *)

#[local] Arguments String.append !_ _ / : simpl nomatch.

Lemma append_empty_r (s : string) : s +:+ EmptyString = s.
Proof. induction s as [|c s IH]; simpl; [done | by rewrite IH]. Qed.

Lemma append_assoc (s t u : string) : (s +:+ t) +:+ u = s +:+ t +:+ u.
Proof. induction s as [|c s IH]; simpl; [done | by rewrite IH]. Qed.

Lemma split_slash_cons (s : string) : exists x l, Names.split_slash s = x :: l.
Proof.
  induction s as [|c s (x & l & IH)]; simpl; [by eexists _, _|].
  destruct (Ascii.eqb c "/"); [by eexists _, _|]. rewrite IH. by eexists _, _.
Qed.

Lemma split_slash_element (e s x : string) (l : list string) :
  forall_chars (fun c => negb (Ascii.eqb c "/"%char)) e = true ->
  Names.split_slash s = x :: l ->
  Names.split_slash (e +:+ s) = (e +:+ x) :: l.
Proof.
  intros He Hs. induction e as [|c e IH]; simpl in *; [done|].
  apply andb_true_iff in He as [Hc He]. apply negb_true_iff in Hc.
  by rewrite Hc, (IH He).
Qed.

Lemma is_element_no_slash (e : string) :
  Names.is_element e = true -> forall_chars (fun c => negb (Ascii.eqb c "/"%char)) e = true.
Proof. unfold Names.is_element. by intros [_ ?]%andb_true_iff. Qed.

Lemma split_slash_text (p : path) :
  forallb Names.is_element p = true ->
  Names.split_slash (Names.text_elems p)
  = match p with [] => [EmptyString] | _ => EmptyString :: p end.
Proof.
  induction p as [|e p IH]; [done|]. intros [He Hp]%andb_true_iff.
  cbn [Names.text_elems]. change ("/" +:+ e +:+ Names.text_elems p)
    with (String "/" (e +:+ Names.text_elems p)).
  cbn [Names.split_slash]. change (Ascii.eqb "/" "/") with true. cbv iota. f_equal.
  rewrite (split_slash_element e _ EmptyString p (is_element_no_slash e He)).
  - by rewrite append_empty_r.
  - rewrite (IH Hp). by destruct p.
Qed.

Lemma clean_elems_elements (l out : list string) :
  forallb Names.is_element l = true ->
  Names.clean_elems true out l = rev l ++ out.
Proof.
  revert out. induction l as [|e l IH]; intros out; [done|].
  intros [He Hl]%andb_true_iff. cbn [Names.clean_elems]. unfold Names.is_element in He.
  apply andb_true_iff in He as [He _]. apply andb_true_iff in He as [He H2].
  apply andb_true_iff in He as [H0 H1].
  apply negb_true_iff in H0, H1, H2. rewrite H0, H1, H2. simpl.
  rewrite (IH _ Hl). by rewrite <- app_assoc.
Qed.

Lemma join_slash_text (p : path) :
  p <> [] -> "/" +:+ Names.join_slash p = Names.text_elems p.
Proof.
  induction p as [|e [|e' p] IH]; intros Hne; [done| |].
  - simpl. by rewrite append_empty_r.
  - change (Names.join_slash (e :: e' :: p)) with (e +:+ "/" +:+ Names.join_slash (e' :: p)).
    change (Names.text_elems (e :: e' :: p)) with ("/" +:+ e +:+ Names.text_elems (e' :: p)).
    rewrite <- IH by done. reflexivity.
Qed.

Lemma text_elems_snoc (p : path) (name : string) :
  Names.text_elems (p ++ [name]) = Names.text_elems p +:+ "/" +:+ name.
Proof.
  induction p as [|e p IH]; simpl; [by rewrite append_empty_r|].
  by rewrite IH, append_assoc.
Qed.

Lemma ends_with_slash_cons (a : ascii) (s : string) :
  s <> EmptyString -> Names.ends_with_slash (String a s) = Names.ends_with_slash s.
Proof. by destruct s. Qed.

Lemma ends_with_slash_app (s t : string) :
  t <> EmptyString -> Names.ends_with_slash (s +:+ t) = Names.ends_with_slash t.
Proof.
  intros Ht. induction s as [|a s IH]; [done|].
  change (String a s +:+ t) with (String a (s +:+ t)).
  rewrite ends_with_slash_cons; [done|]. by destruct s, t.
Qed.

Lemma element_not_slash_end (e : string) :
  forall_chars (fun c => negb (Ascii.eqb c "/"%char)) e = true ->
  Names.ends_with_slash e = false.
Proof.
  induction e as [|c e IH]; [done|]. intros [Hc He]%andb_true_iff.
  destruct e as [|c' e]; [by apply negb_true_iff|].
  rewrite ends_with_slash_cons by done. by apply IH.
Qed.

Lemma text_elems_not_slash_end (p : path) :
  p <> [] -> forallb Names.is_element p = true ->
  Names.ends_with_slash (Names.text_elems p) = false.
Proof.
  destruct p as [|e p _] using rev_ind; [done|]. intros _.
  rewrite forallb_app. intros [_ He]%andb_true_iff. simpl in He. rewrite andb_true_r in He.
  rewrite text_elems_snoc, ends_with_slash_app by done.
  assert (Hne : e <> EmptyString) by (intros ->; done).
  change ("/" +:+ e) with (String "/" e). rewrite ends_with_slash_cons by done.
  by apply element_not_slash_end, is_element_no_slash.
Qed.

Lemma Join_nonempty (dir name : string) :
  String.eqb dir EmptyString = false -> String.eqb name EmptyString = false ->
  Names.Join dir name = Names.Clean (dir +:+ "/" +:+ name).
Proof.
  intros Hd Hn. unfold Names.Join.
  rewrite filter_cons_True, filter_cons_True by done. reflexivity.
Qed.

(** For a storage root given as a cleaned absolute path, the name
    [os.CreateTemp] returns for a file in it and the path under which
    [filepath.WalkDir] meets that file are the same text: that of the
    path one element longer. *)
Lemma staging_name_is_walked (p : path) (name : string) :
  forallb Names.is_element p = true -> Names.is_element name = true ->
  Names.joinPath (Names.text p) name = Names.text (p ++ [name]) /\
  Names.Join (Names.text p) name = Names.text (p ++ [name]).
Proof.
  intros Hp Hname.
  assert (Hne : String.eqb name EmptyString = false).
  { unfold Names.is_element in Hname. by destruct name. }
  assert (Hall : forallb Names.is_element (p ++ [name]) = true).
  { rewrite forallb_app, Hp. simpl. by rewrite Hname. }
  assert (Htext : Names.text (p ++ [name]) = Names.text_elems (p ++ [name])) by (by destruct p).
  assert (Hclean : Names.Clean (Names.text_elems (p ++ [name])) = Names.text_elems (p ++ [name])).
  { unfold Names.Clean.
    destruct (Names.text_elems (p ++ [name])) as [|c s] eqn:Ht; [by destruct p|].
    assert (c = "/"%char) as -> by (destruct p; simpl in Ht; congruence).
    change (Ascii.eqb "/" "/") with true. cbv zeta iota. rewrite <- Ht.
    rewrite (split_slash_text _ Hall).
    destruct (p ++ [name]) as [|e l] eqn:Hl; [by destruct p|].
    change (Names.clean_elems true [] (EmptyString :: e :: l))
      with (Names.clean_elems true [] (e :: l)).
    rewrite (clean_elems_elements _ [] Hall), app_nil_r, rev_involutive.
    by apply join_slash_text. }
  destruct p as [|e p].
  - change (Names.text ([] ++ [name])) with ("/" +:+ name +:+ EmptyString).
    rewrite append_empty_r. split; [reflexivity|].
    rewrite Join_nonempty by done.
    change (Names.Clean (String "/" (String "/" name)) = String "/" name).
    unfold Names.Clean. change (Ascii.eqb "/" "/") with true. cbv zeta iota.
    cbn [Names.split_slash]. change (Ascii.eqb "/" "/") with true. cbv iota.
    rewrite <- (append_empty_r name) at 1.
    rewrite (split_slash_element name EmptyString EmptyString []
               (is_element_no_slash _ Hname) eq_refl), append_empty_r.
    change (Names.clean_elems true [] [EmptyString; EmptyString; name])
      with (Names.clean_elems true [] [name]).
    rewrite (clean_elems_elements [name] []) by (simpl; by rewrite Hname).
    reflexivity.
  - rewrite Htext, text_elems_snoc. split.
    + unfold Names.joinPath, Names.text.
      by rewrite (text_elems_not_slash_end (e :: p)).
    + rewrite Join_nonempty by done.
      change (Names.text (e :: p)) with (Names.text_elems (e :: p)).
      by rewrite <- text_elems_snoc.
Qed.

(** For a root that is not cleaned the two names differ, and the walk
    does not recognise the staging file. *)
Lemma uncleaned_root_names_differ :
  Names.joinPath "./data" "up-1" = "./data/up-1" /\
  Names.Join "./data" "up-1" = "data/up-1" /\
  Names.joinPath "/a//b" "up-1" = "/a//b/up-1" /\
  Names.Join "/a//b" "up-1" = "/a/b/up-1".
Proof. repeat split; reflexivity. Qed.
